(** * Proofmark: the quality gate, the escalation router and the experiment engine

    A shallow embedding of [src/quality-gate.mjs], [src/prompt-schema.mjs],
    [src/providers/minimax.mjs] and [src/router.mjs], and the properties of
    the specification checked against it.

    JavaScript values are modelled as the program has them:
    - a string is its sequence of UTF-16 code units ([jsstring]);
    - a number is an IEEE 754 binary64 value (Rocq's primitive [float]), so
      [NaN], the infinities, rounding and overflow behave as in the source;
    - a regular expression is a term of [Regex.regex], run by a backtracking
      matcher that follows the order of ECMAScript's matcher;
    - [async] code that calls providers, reads the clock and logs is written
      in a state-and-exception monad over an explicit world.

    Where a property bounds a rounding error, a Number is read as the real
    number it is ([Exact.toR]), and the error of each operation is derived
    from the specification of binary64 arithmetic ([Rounding]). *)

From Stdlib Require Import ZArith NArith String Ascii List Bool Lia.
From Stdlib Require Import Floats Reals Lra Permutation.
Import ListNotations.

Set Warnings "-inexact-float,-abstract-large-number".

(* ================================================================== *)
(** * JavaScript strings *)

Module JS.

(** A UTF-16 code unit. *)
Definition char := N.

Definition jsstring := list char.

(** An ASCII literal as a JavaScript string. *)
Definition js (s : string) : jsstring :=
  List.map N_of_ascii (list_ascii_of_string s).

Definition char_in (lo hi : N) (c : char) : bool :=
  (N.leb lo c && N.leb c hi)%bool.

(** ECMAScript [LineTerminator]: LF, CR, LS, PS. *)
Definition isLineTerminator (c : char) : bool :=
  (N.eqb c 10 || N.eqb c 13 || N.eqb c 8232 || N.eqb c 8233)%bool.

(** ECMAScript [WhiteSpace] or [LineTerminator]: the class [\s], and what
    [String.prototype.trim] strips. *)
Definition isSpace (c : char) : bool :=
  (char_in 9 13 c || N.eqb c 32 || N.eqb c 160 || N.eqb c 5760
   || char_in 8192 8202 c || N.eqb c 8232 || N.eqb c 8233 || N.eqb c 8239
   || N.eqb c 8287 || N.eqb c 12288 || N.eqb c 65279)%bool.

(** The class [\d]. *)
Definition isDigit (c : char) : bool := char_in 48 57 c.

(** The class [\w]. *)
Definition isWord (c : char) : bool :=
  (char_in 97 122 c || char_in 65 90 c || isDigit c || N.eqb c 95)%bool.

Fixpoint trimStart (s : jsstring) : jsstring :=
  match s with
  | c :: s' => if isSpace c then trimStart s' else s
  | [] => []
  end.

Definition trimEnd (s : jsstring) : jsstring := rev (trimStart (rev s)).

(** [String.prototype.trim]. *)
Definition trim (s : jsstring) : jsstring := trimEnd (trimStart s).

Fixpoint jsstring_eqb (a b : jsstring) : bool :=
  match a, b with
  | [], [] => true
  | x :: a', y :: b' => (N.eqb x y && jsstring_eqb a' b')%bool
  | _, _ => false
  end.

End JS.

Import JS.

(* ================================================================== *)
(** * Regular expressions *)

Module Regex.

(** The fragment of ECMAScript patterns the sources use.  [Star true] is the
    greedy [*], [Star false] the lazy [*?]; [Group n] is the [n]-th capturing
    group; [LineStart] is [^] under the [m] flag; [WordBoundary] is [\b]. *)
Inductive regex : Type :=
| Empty
| Char (p : char -> bool)
| Seq (r1 r2 : regex)
| Alt (r1 r2 : regex)
| Star (greedy : bool) (r : regex)
| Group (n : nat) (r : regex)
| LineStart
| WordBoundary.

(** A position in the subject: the code unit before it, its index, and the
    rest of the subject; with the captures made so far. *)
Record mstate : Type := MState {
  before : option char;
  here : nat;
  ahead : jsstring;
  caps : list (nat * jsstring)
}.

Definition start_of (s : jsstring) : mstate := MState None 0 s [].

Definition isWordOpt (c : option char) : bool :=
  match c with Some c => isWord c | None => false end.

(** The backtracking matcher, in continuation-passing style: [rmatch r st k]
    tries the ways [r] can match at [st] in ECMAScript's order and returns the
    first one the continuation [k] accepts.  An iteration of a star that
    consumes nothing is rejected, as in ECMAScript's RepeatMatcher, so a star
    makes at most [length (ahead st)] iterations. *)
Fixpoint rmatch {A : Type} (r : regex) (st : mstate)
    (k : mstate -> option A) {struct r} : option A :=
  match r with
  | Empty => k st
  | Char p =>
      match ahead st with
      | c :: rest =>
          if p c then k (MState (Some c) (S (here st)) rest (caps st))
          else None
      | [] => None
      end
  | Seq r1 r2 => rmatch r1 st (fun st1 => rmatch r2 st1 k)
  | Alt r1 r2 =>
      match rmatch r1 st k with
      | Some a => Some a
      | None => rmatch r2 st k
      end
  | Star greedy r1 =>
      (fix loop (fuel : nat) (st0 : mstate) {struct fuel} : option A :=
         match fuel with
         | O => k st0
         | S fuel' =>
             let again :=
               rmatch r1 st0 (fun st1 =>
                 if Nat.eqb (here st1) (here st0) then None
                 else loop fuel' st1) in
             if greedy then
               match again with Some a => Some a | None => k st0 end
             else
               match k st0 with Some a => Some a | None => again end
         end) (length (ahead st)) st
  | Group n r1 =>
      rmatch r1 st (fun st1 =>
        k (MState (before st1) (here st1) (ahead st1)
             ((n, firstn (here st1 - here st) (ahead st)) :: caps st1)))
  | LineStart =>
      match before st with
      | None => k st
      | Some c => if isLineTerminator c then k st else None
      end
  | WordBoundary =>
      if xorb (isWordOpt (before st)) (isWordOpt (hd_error (ahead st)))
      then k st else None
  end.

(** One step forward in the subject. *)
Definition advance (st : mstate) : option mstate :=
  match ahead st with
  | c :: rest => Some (MState (Some c) (S (here st)) rest [])
  | [] => None
  end.

(** The leftmost match at or after [st]: the state where it starts and the
    state where it ends. *)
Fixpoint search_fuel (fuel : nat) (r : regex) (st : mstate)
    : option (mstate * mstate) :=
  match rmatch r st Some with
  | Some e => Some (st, e)
  | None =>
      match fuel with
      | O => None
      | S fuel' =>
          match advance st with
          | Some st' => search_fuel fuel' r st'
          | None => None
          end
      end
  end.

Definition search (r : regex) (st : mstate) : option (mstate * mstate) :=
  search_fuel (length (ahead st)) r st.

(** [RegExp.prototype.test] for a pattern without the [g] flag. *)
Definition test (r : regex) (s : jsstring) : bool :=
  match search r (start_of s) with Some _ => true | None => false end.

(** The successive matches of a pattern with the [g] flag, as the loop over
    [exec] and [String.prototype.match] find them: each search starts where
    the previous match ended, one code unit further after an empty match. *)
Fixpoint matches_fuel (fuel : nat) (r : regex) (st : mstate)
    : list (mstate * mstate) :=
  match fuel with
  | O => []
  | S fuel' =>
      match search r st with
      | None => []
      | Some (b, e) =>
          let e0 := MState (before e) (here e) (ahead e) [] in
          if Nat.eqb (here e) (here b) then
            match advance e0 with
            | Some e1 => (b, e) :: matches_fuel fuel' r e1
            | None => [(b, e)]
            end
          else (b, e) :: matches_fuel fuel' r e0
      end
  end.

Definition matches (r : regex) (s : jsstring) : list (mstate * mstate) :=
  matches_fuel (S (length s)) r (start_of s).

(** [(s.match(/r/g) || []).length]. *)
Definition count (r : regex) (s : jsstring) : nat := length (matches r s).

(** The text of capturing group [n] of a match ending in [e]. *)
Definition capture (n : nat) (e : mstate) : jsstring :=
  match find (fun p => Nat.eqb (fst p) n) (caps e) with
  | Some p => snd p
  | None => []
  end.

(** ** Pattern syntax *)

Definition chr (c : char) : regex := Char (N.eqb c).

(** Canonicalisation under the [i] flag without [u]: a code unit outside
    ASCII never canonicalises to an ASCII letter, so an ASCII letter of the
    pattern matches exactly its two cases. *)
Definition upper (c : char) : char :=
  if char_in 97 122 c then (c - 32)%N else c.

Definition chri (c : char) : regex := Char (fun x => N.eqb (upper x) (upper c)).

Fixpoint seqs (rs : list regex) : regex :=
  match rs with
  | [] => Empty
  | [r] => r
  | r :: rs' => Seq r (seqs rs')
  end.

Fixpoint alts (rs : list regex) : regex :=
  match rs with
  | [] => Empty
  | [r] => r
  | r :: rs' => Alt r (alts rs')
  end.

Definition lit (s : string) : regex := seqs (List.map chr (js s)).
Definition liti (s : string) : regex := seqs (List.map chri (js s)).

Definition star (r : regex) : regex := Star true r.
Definition lazy_star (r : regex) : regex := Star false r.
Definition plus (r : regex) : regex := Seq r (Star true r).
Definition opt (r : regex) : regex := Alt r Empty.

Definition space : regex := Char isSpace.          (* \s *)
Definition digit : regex := Char isDigit.          (* \d *)
Definition word : regex := Char isWord.            (* \w *)
Definition any : regex := Char (fun _ => true).    (* [\s\S] *)
Definition dot : regex := Char (fun c => negb (isLineTerminator c)).  (* . *)

End Regex.

(* ================================================================== *)
(** * JavaScript numbers *)

Module Num.

Open Scope float_scope.

(** An integer as a Number (the nearest one, ties to even). *)
Definition ofZ (z : Z) : float :=
  SF2Prim (binary_normalize prec emax z 0 false).

(** A natural number (an array length) as a Number. *)
Definition ofNat (n : nat) : float := ofZ (Z.of_nat n).

(** The Number nearest to [m * 10^e] (ties to even), negated when [neg]:
    the value of a decimal literal.  Beyond the two cut-offs the value is
    above the largest Number, or below half the smallest one. *)
Definition ofDecimal (neg : bool) (m e : Z) : float :=
  if (m <=? 0)%Z then (if neg then neg_zero else zero)
  else if (310 <? e)%Z then (if neg then neg_infinity else infinity)
  else if (Z.log2 m + 1 + 3 * e <? -1076)%Z then
    (if neg then neg_zero else zero)
  else if (0 <=? e)%Z then
    SF2Prim (binary_normalize prec emax (cond_Zopp neg (m * 10 ^ e)) 0 false)
  else
    SF2Prim (SFdiv prec emax
               (S754_finite neg (Z.to_pos m) 0)
               (S754_finite false (Z.to_pos (10 ^ (- e))) 0)).

Fixpoint takeDigits (s : jsstring) : jsstring * jsstring :=
  match s with
  | c :: s' =>
      if isDigit c then let (ds, r) := takeDigits s' in (c :: ds, r)
      else ([], s)
  | [] => ([], [])
  end.

Definition digitsValue (ds : jsstring) : Z :=
  fold_left (fun acc c => (10 * acc + (Z.of_N c - 48))%Z) ds 0%Z.

Fixpoint startsWith (p s : jsstring) : bool :=
  match p, s with
  | [], _ => true
  | x :: p', y :: s' => (N.eqb x y && startsWith p' s')%bool
  | _ :: _, [] => false
  end.

(** A leading [+] or [-]. *)
Definition takeSign (s : jsstring) : bool * jsstring :=
  match s with
  | c :: s' =>
      if N.eqb c 45 then (true, s')
      else if N.eqb c 43 then (false, s')
      else (false, s)
  | [] => (false, [])
  end.

(** The exponent part [e], [E] followed by a signed integer, when complete. *)
Definition takeExponent (s : jsstring) : Z :=
  match s with
  | c :: s' =>
      if (N.eqb c 101 || N.eqb c 69)%bool then
        let (eneg, s1) := takeSign s' in
        let (ds, _) := takeDigits s1 in
        match ds with
        | [] => 0%Z
        | _ => cond_Zopp eneg (digitsValue ds)
        end
      else 0%Z
  | [] => 0%Z
  end.

(** [parseFloat]: the value of the longest prefix of the trimmed string that
    is a [StrDecimalLiteral], [NaN] when there is none. *)
Definition parseFloat (s : jsstring) : float :=
  let (neg, s1) := takeSign (trimStart s) in
  if startsWith (js "Infinity") s1 then
    (if neg then neg_infinity else infinity)
  else
    let (ip, r1) := takeDigits s1 in
    let (fp, r2) :=
      match r1 with
      | c :: t => if N.eqb c 46 then takeDigits t else ([], r1)
      | [] => ([], r1)
      end in
    match ip ++ fp with
    | [] => nan
    | ds => ofDecimal neg (digitsValue ds)
              (takeExponent r2 - Z.of_nat (length fp))
    end.

(** [parseFloat(x.toFixed(3))].  [toFixed(3)] prints the integer [n] for
    which [n / 1000 - |x|] is closest to zero (the larger on a tie) with
    three decimals, and a leading [-] when [x < 0]; [NaN] prints as ["NaN"]
    and a magnitude of at least [1e21] prints as [String(x)], which parses
    back to [x]. *)
Definition roundFixed3 (x : float) : float :=
  match Prim2SF x with
  | S754_nan => nan
  | S754_infinity _ => x
  | S754_zero _ => zero
  | S754_finite s m e =>
      if 1e21 <=? abs x then x
      else
        let n :=
          match e with
          | Zneg p => ((2000 * Zpos m + 2 ^ Zpos p) / 2 ^ (Zpos p + 1))%Z
          | _ => (1000 * Zpos m * 2 ^ e)%Z
          end in
        ofDecimal s n (-3)
  end.

(** [Math.max] and [Math.min] of two Numbers. *)
Definition max (a b : float) : float :=
  if (is_nan a || is_nan b)%bool then nan
  else if a <? b then b
  else if b <? a then a
  else if get_sign a then b else a.

Definition min (a b : float) : float :=
  if (is_nan a || is_nan b)%bool then nan
  else if a <? b then a
  else if b <? a then b
  else if get_sign a then a else b.

(** [ToBoolean] of a Number: false for [0], [-0] and [NaN]. *)
Definition truthy (x : float) : bool := negb (is_nan x || is_zero x).

(** [a > b] and [a >= b] of the source. *)
Definition gt (a b : float) : bool := b <? a.
Definition ge (a b : float) : bool := b <=? a.

(** The order of the magnitudes [m1 * 2^e1] and [m2 * 2^e2] of two finite
    binary64 values in canonical form: by exponent, then by mantissa. *)
Definition magnitude_lt (m1 : positive) (e1 : Z) (m2 : positive) (e2 : Z)
    : Prop :=
  (e1 < e2)%Z \/ (e1 = e2 /\ (m1 < m2)%positive).

End Num.

(* ================================================================== *)
(** * The quality gate ([src/quality-gate.mjs]) *)

Module QualityGate.

Import Regex.
Open Scope float_scope.

Definition QUALITY_THRESHOLD : float := 0.70.

Inductive Category : Type :=
| cat_xml | cat_completeness | cat_probability | cat_rubric | cat_structure
| cat_injection | cat_formatting | cat_consistency | cat_schema.

Inductive Severity : Type := info | warning | critical.

(** The message of an issue: which template of the source it is, with the
    values the template interpolates (the text itself is not rendered). *)
Inductive Message : Type :=
| MsgProbabilityOutOfRange (index : nat) (p : float)
| MsgNonStandardFormat (index bestScoreCount : nat)
| MsgRubricFound (index found : nat)
| MsgMissingTotalVariant (index : nat)
| MsgMissingTotal (index : nat)
| MsgNoPivot (index : nat)
| MsgInjection (index : nat) (pattern : string)
| MsgShort (index len : nat)
| MsgLong (index len : nat)
| MsgMismatchedTags (openTags closeTags : nat)
| MsgNoValidBlocks
| MsgOnlyResponses (n : nat)
| MsgProbabilitySum (probSum : float)
| MsgInconsistent
| MsgOther (text : jsstring).

Record Issue : Type := mkIssue {
  category : Category;
  severity : Severity;
  message : Message
}.

Record ResponseUnit : Type := mkUnit {
  text : jsstring;
  probability : float
}.

Record QualityReport : Type := mkReport {
  score : float;
  issues : list Issue;
  responses : list ResponseUnit;
  passesGate : bool;
  threshold : float
}.

Definition Category_eqb (a b : Category) : bool :=
  match a, b with
  | cat_xml, cat_xml | cat_completeness, cat_completeness
  | cat_probability, cat_probability | cat_rubric, cat_rubric
  | cat_structure, cat_structure | cat_injection, cat_injection
  | cat_formatting, cat_formatting | cat_consistency, cat_consistency
  | cat_schema, cat_schema => true
  | _, _ => false
  end.

(** An issue that is neither an injection issue nor the probability-sum
    issue of the document level. *)
Definition plain (i : Issue) : Prop :=
  category i <> cat_injection /\ forall p, message i <> MsgProbabilitySum p.

(** ** [parseResponses] *)

(** [/<response>\s*<text>([\s\S]*?)<\/text>\s*<probability>([\s\S]*?)<\/probability>\s*<\/response>/g] *)
Definition responseRegex : regex :=
  seqs [lit "<response>"; star space; lit "<text>";
        Group 1 (lazy_star any); lit "</text>"; star space;
        lit "<probability>"; Group 2 (lazy_star any); lit "</probability>";
        star space; lit "</response>"].

Definition parseResponses (outputText : jsstring) : list ResponseUnit :=
  List.map (fun m : mstate * mstate =>
         mkUnit (trim (capture 1 (snd m)))
                (Num.parseFloat (trim (capture 2 (snd m)))))
      (matches responseRegex outputText).

(** ** [scoreResponse] *)

(** The running [score] and [issues] of [scoreResponse], and the running
    [totalScore] and [allIssues] of [qualityGate]. *)
Record Tally : Type := mkTally {
  total : float;
  found : list Issue
}.

(** [issues.push(issue); score -= penalty]. *)
Definition penalize (t : Tally) (issue : Issue) (penalty : float) : Tally :=
  mkTally (total t - penalty) (found t ++ [issue]).

(** [/^\d+\)\s+.+:\s+\d+/gm] *)
Definition formatA_re : regex :=
  seqs [LineStart; plus digit; lit ")"; plus space; plus dot; lit ":";
        plus space; plus digit].

(** [/\b\w[\w\s]+:\s+\d+(?:\/10)?/gm] *)
Definition formatB_re : regex :=
  seqs [WordBoundary; word; plus (Char (fun c => isWord c || isSpace c));
        lit ":"; plus space; plus digit; opt (lit "/10")].

(** [/Total:\s*(\d+)\/100/] *)
Definition total_re : regex :=
  seqs [lit "Total:"; star space; Group 1 (plus digit); lit "/100"].

(** [/\|\s*\d+\s*\|/g] *)
Definition scoreTable_re : regex :=
  seqs [lit "|"; star space; plus digit; star space; lit "|"].

(** [/(?:pivot|alternative|reframe|high.leverage|polar|how\s+it\s+works|integration)/i] *)
Definition pivot_re : regex :=
  alts [liti "pivot"; liti "alternative"; liti "reframe";
        seqs [liti "high"; dot; liti "leverage"]; liti "polar";
        seqs [liti "how"; plus space; liti "it"; plus space; liti "works"];
        liti "integration"].

(** The six injection patterns, each with its source text. *)
Definition injectionPatterns : list (string * regex) :=
  [ ("/\bsystem\s*:\s*/i"%string,
     seqs [WordBoundary; liti "system"; star space; lit ":"; star space]);
    ("/\bassistant\s*:\s*/i"%string,
     seqs [WordBoundary; liti "assistant"; star space; lit ":"; star space]);
    ("/\bignore\s+(previous|above|all)\s+instructions/i"%string,
     seqs [WordBoundary; liti "ignore"; plus space;
           Group 1 (alts [liti "previous"; liti "above"; liti "all"]);
           plus space; liti "instructions"]);
    ("/\byou\s+are\s+(now|a)\b/i"%string,
     seqs [WordBoundary; liti "you"; plus space; liti "are"; plus space;
           Group 1 (alts [liti "now"; liti "a"]); WordBoundary]);
    ("/\bdo\s+not\s+follow/i"%string,
     seqs [WordBoundary; liti "do"; plus space; liti "not"; plus space;
           liti "follow"]);
    ("/<\/?(?:system|instruction|prompt)>/i"%string,
     seqs [lit "<"; opt (lit "/");
           alts [liti "system"; liti "instruction"; liti "prompt"]; lit ">"]) ].

(** 1. Probability sanity. *)
Definition checkProbability (response : ResponseUnit) (index : nat)
    (t : Tally) : Tally :=
  let p := probability response in
  if (is_nan p || (p <? 0) || (1 <? p))%bool then
    penalize t (mkIssue cat_probability critical
                  (MsgProbabilityOutOfRange index p)) 0.3
  else t.

Definition formatA (response : ResponseUnit) : nat :=
  count formatA_re (text response).

Definition totalMatch (response : ResponseUnit) : bool :=
  test total_re (text response).

Definition bestScoreCount (response : ResponseUnit) : nat :=
  Nat.max (formatA response)
    (Nat.max (count formatB_re (text response))
             (count scoreTable_re (text response))).

(** 2. Scoring rubric. *)
Definition checkRubric (response : ResponseUnit) (index : nat)
    (t : Tally) : Tally :=
  if (Nat.ltb (bestScoreCount response) 5 && negb (totalMatch response))%bool
  then
    penalize t (mkIssue cat_rubric info
                  (MsgNonStandardFormat index (bestScoreCount response))) 0.05
  else if (Nat.ltb (bestScoreCount response) 10
           && Nat.ltb 0 (formatA response))%bool
  then
    penalize t (mkIssue cat_rubric warning
                  (MsgRubricFound index (formatA response)))
      (0.1 * Num.ofZ (10 - Z.of_nat (formatA response)) / 10)
  else t.

(** 3. Total score present. *)
Definition checkTotal (response : ResponseUnit) (index : nat)
    (t : Tally) : Tally :=
  if (negb (totalMatch response)
      && Nat.leb 5 (bestScoreCount response))%bool
  then
    penalize t (mkIssue cat_rubric info (MsgMissingTotalVariant index)) 0.03
  else if (negb (totalMatch response)
           && Nat.ltb (bestScoreCount response) 5)%bool
  then
    penalize t (mkIssue cat_rubric warning (MsgMissingTotal index)) 0.1
  else t.

(** 4. Pivot section or substantive content. *)
Definition checkPivot (response : ResponseUnit) (index : nat)
    (t : Tally) : Tally :=
  let hasPivot := test pivot_re (text response) in
  if (negb hasPivot && Nat.ltb (length (text response)) 300)%bool then
    penalize t (mkIssue cat_structure warning (MsgNoPivot index)) 0.1
  else t.

(** 5. Prompt injection artifacts: the loop over the patterns, left at the
    first one that matches. *)
Fixpoint checkInjection (patterns : list (string * regex))
    (response : ResponseUnit) (index : nat) (t : Tally) : Tally :=
  match patterns with
  | [] => t
  | (source, pattern) :: rest =>
      if test pattern (text response) then
        penalize t (mkIssue cat_injection critical
                      (MsgInjection index source)) 0.4
      else checkInjection rest response index t
  end.

(** 6. Text length sanity. *)
Definition checkLength (response : ResponseUnit) (index : nat)
    (t : Tally) : Tally :=
  let n := length (text response) in
  let t1 :=
    if Nat.ltb n 100 then
      penalize t (mkIssue cat_formatting warning (MsgShort index n)) 0.2
    else t in
  if Nat.ltb 10000 n then
    penalize t1 (mkIssue cat_formatting warning (MsgLong index n)) 0.05
  else t1.

(** The tally of [scoreResponse] before check 5, and at its [return]. *)
Definition beforeInjection (response : ResponseUnit) (index : nat) : Tally :=
  checkPivot response index
    (checkTotal response index
      (checkRubric response index
        (checkProbability response index (mkTally 1.0 [])))).

Definition unclamped (response : ResponseUnit) (index : nat) : Tally :=
  checkLength response index
    (checkInjection injectionPatterns response index
      (beforeInjection response index)).

(** [scoreResponse(response, index)]: [{ score: Math.max(0, score), issues }]. *)
Definition scoreResponse (response : ResponseUnit) (index : nat) : Tally :=
  let t := unclamped response index in
  mkTally (Num.max 0 (total t)) (found t).

(** ** [qualityGate] *)

(** [xs.map((x, i) => f(x, i))], from index [i]. *)
Fixpoint mapi_from {A B : Type} (i : nat) (f : A -> nat -> B) (xs : list A)
    : list B :=
  match xs with
  | [] => []
  | x :: xs' => f x i :: mapi_from (S i) f xs'
  end.

Definition mapi {A B : Type} (f : A -> nat -> B) (xs : list A) : list B :=
  mapi_from 0 f xs.

(** 1. XML well-formedness. *)
Definition openTags (outputText : jsstring) : nat :=
  count (lit "<response>") outputText.

Definition closeTags (outputText : jsstring) : nat :=
  count (lit "</response>") outputText.

Definition checkTags (outputText : jsstring) (t : Tally) : Tally :=
  if negb (Nat.eqb (openTags outputText) (closeTags outputText)) then
    penalize t (mkIssue cat_xml critical
                  (MsgMismatchedTags (openTags outputText)
                                     (closeTags outputText))) 0.3
  else t.

(** 3. Expected count. *)
Definition checkCount (responses : list ResponseUnit) (t : Tally) : Tally :=
  if Nat.ltb (length responses) 3 then
    penalize t (mkIssue cat_completeness warning
                  (MsgOnlyResponses (length responses))) 0.15
  else t.

(** 4. Probability sum check. *)
Definition probSum (responses : list ResponseUnit) : float :=
  fold_left (fun sum r => sum + probability r) responses 0.

Definition checkProbabilitySum (responses : list ResponseUnit) (t : Tally)
    : Tally :=
  if Num.gt (probSum responses) 1.0 then
    penalize t (mkIssue cat_probability critical
                  (MsgProbabilitySum (probSum responses))) 0.2
  else t.

(** 5. Each response scored; the mean of the scores; the issues appended. *)
Definition responseScores (responses : list ResponseUnit) : list Tally :=
  mapi scoreResponse responses.

Definition avgResponseScore (responses : list ResponseUnit) : float :=
  fold_left (fun sum r => sum + total r) (responseScores responses) 0
  / Num.ofNat (length (responseScores responses)).

Definition pushIssues (responses : list ResponseUnit) (t : Tally) : Tally :=
  fold_left (fun acc rs => mkTally (total acc) (found acc ++ found rs))
            (responseScores responses) t.

(** [/^\d+\)\s+/m] *)
Definition hasScores_re : regex :=
  seqs [LineStart; plus digit; lit ")"; plus space].

(** 6. Structural consistency. *)
Definition checkConsistency (responses : list ResponseUnit) (t : Tally)
    : Tally :=
  let hasScoresFlags :=
    List.map (fun r => test hasScores_re (text r)) responses in
  let allHaveScores := forallb (fun b => b) hasScoresFlags in
  if (negb allHaveScores && existsb (fun b => b) hasScoresFlags)%bool then
    penalize t (mkIssue cat_consistency warning MsgInconsistent) 0.1
  else t.

(** [totalScore] and [allIssues] once the checks 3, 4, 5 and 6 have run on a
    non-empty list of responses, from the tally [t] that check 1 left. *)
Definition documentChecks (responses : list ResponseUnit) (t : Tally) : Tally :=
  checkConsistency responses
    (pushIssues responses
      (checkProbabilitySum responses
        (checkCount responses t))).

(** The final composite score, before it is rounded for the report. *)
Definition compositeScore (totalScore avg : float) : float :=
  Num.max 0 (Num.min 1 (totalScore * 0.4 + avg * 0.6)).

Definition qualityGate (outputText : jsstring) : QualityReport :=
  let t1 := checkTags outputText (mkTally 1.0 []) in
  let responses := parseResponses outputText in
  if Nat.eqb (length responses) 0 then
    mkReport 0
      (found t1 ++ [mkIssue cat_xml critical MsgNoValidBlocks])
      [] false QUALITY_THRESHOLD
  else
    let t := documentChecks responses t1 in
    let composite := compositeScore (total t) (avgResponseScore responses) in
    mkReport (Num.roundFixed3 composite) (found t) responses
      (Num.ge composite QUALITY_THRESHOLD) QUALITY_THRESHOLD.

End QualityGate.

(* ================================================================== *)
(** * Exceptions and JavaScript objects *)

Module Effects.

(** The messages of the [Error]s the sources construct. *)
Inductive ErrorMessage : Type :=
| ExperimentWithoutVariant
| AnthropicKeyMissing
| MiniMaxKeyMissing
| MiniMaxApiError (status : Z) (body : jsstring)
| UnknownProvider (provider : jsstring).

(** What a [throw] or a rejected promise carries: an [Error] of the sources,
    a [TypeError] of the language (a property read on [undefined]), or the
    failure of an external call (network, authentication, rate limit). *)
Inductive Exn : Type :=
| Error (msg : ErrorMessage)
| TypeError (property : string)
| External (reason : jsstring).

(** The outcome of a call that may throw. *)
Inductive result (A : Type) : Type :=
| Ok (a : A)
| Throw (e : Exn).

Arguments Ok {A} a.
Arguments Throw {A} e.

(** An object or a [Map] used as a map from keys to values: its own entries,
    in the order they were created. *)
Definition obj (V : Type) : Type := list (jsstring * V).

Fixpoint objGet {V : Type} (k : jsstring) (o : obj V) : option V :=
  match o with
  | [] => None
  | (k', v) :: o' => if jsstring_eqb k' k then Some v else objGet k o'
  end.

(** [m.set(k, v)], and [o.k = v] for a fixed name [k]: an existing entry
    keeps its place. *)
Fixpoint objSet {V : Type} (k : jsstring) (v : V) (o : obj V) : obj V :=
  match o with
  | [] => [(k, v)]
  | (k', v') :: o' =>
      if jsstring_eqb k' k then (k, v) :: o' else (k', v') :: objSet k v o'
  end.

(** [o[k] = v] on an object written as a literal: [__proto__] is not a
    property of the object but the accessor it inherits from
    [Object.prototype], and assigning an object to it replaces the prototype
    of [o]; the object gets no property of its own. *)
Definition objAssign {V : Type} (k : jsstring) (v : V) (o : obj V) : obj V :=
  if jsstring_eqb k (js "__proto__") then o else objSet k v o.

(** An array index: the canonical decimal form of an integer below
    [2^32 - 1]. *)
Definition arrayIndex (k : jsstring) : option Z :=
  match k with
  | [] => None
  | c :: rest =>
      if (forallb isDigit k
          && (negb (N.eqb c 48) || Nat.eqb (length rest) 0)
          && Nat.leb (length k) 10
          && (Num.digitsValue k <? 4294967295)%Z)%bool
      then Some (Num.digitsValue k) else None
  end.

(** Insertion of [x] before the first element it does not come after; with
    [sortBy], a stable sort, as [Array.prototype.sort] is.  Where the
    comparator is not consistent (a difference of Numbers that is [NaN] for
    some pairs only), the language leaves the order to the implementation, and
    [sortBy] gives one of the orders allowed. *)
Fixpoint insertBy {A : Type} (after : A -> A -> bool) (x : A) (l : list A)
    : list A :=
  match l with
  | [] => [x]
  | y :: l' => if after x y then y :: insertBy after x l' else x :: y :: l'
  end.

Fixpoint sortBy {A : Type} (after : A -> A -> bool) (l : list A) : list A :=
  match l with
  | [] => []
  | x :: l' => insertBy after x (sortBy after l')
  end.

(** [Object.entries(o)]: the array-index keys in ascending order, then the
    other keys in creation order. *)
Definition objEntries {V : Type} (o : obj V) : list (jsstring * V) :=
  let isIndex (p : jsstring * V) :=
    match arrayIndex (fst p) with Some _ => true | None => false end in
  let indexOf (p : jsstring * V) :=
    match arrayIndex (fst p) with Some i => i | None => 0%Z end in
  sortBy (fun a b => (indexOf b <? indexOf a)%Z) (filter isIndex o)
  ++ filter (fun p => negb (isIndex p)) o.

End Effects.

(* ================================================================== *)
(** * Prompt variants and experiments ([src/prompt-schema.mjs]) *)

Module PromptSchema.

Import QualityGate Effects.
Open Scope float_scope.

Record PromptConfig : Type := mkPromptConfig {
  promptId : option jsstring;
  promptVersion : option jsstring;
  systemPrompt : option jsstring;
  model : option jsstring
}.

(** An issue as a Standard Schema reports it, its path already reduced to
    keys; and as [validateOutput] returns it. *)
Record SchemaIssue : Type := mkSchemaIssue {
  schemaMessage : jsstring;
  schemaPath : option (list jsstring)
}.

Record OutputIssue : Type := mkOutputIssue {
  outputMessage : jsstring;
  outputPath : option jsstring
}.

(** [schema["~standard"].validate]: the [issues] of its result, [None] when
    the result has none. *)
Definition Schema : Type := list ResponseUnit -> option (list SchemaIssue).

Record PromptVariant : Type := mkVariant {
  id : jsstring;
  provider : jsstring;
  weight : option float;
  promptConfig : option PromptConfig;
  outputSchema : option Schema;
  qualityThreshold : option float
}.

Record Metric : Type := mkMetric {
  qualityScore : float;
  escalated : bool;
  schemaValid : bool;
  latencyMs : float;
  tokenCount : float
}.

Record MetricSample : Type := mkSample {
  metric : Metric;
  timestamp : Z
}.

Record Experiment : Type := mkExperiment {
  name : jsstring;
  variants : list PromptVariant;
  metrics : obj (list MetricSample);
  _startedAt : Z
}.

(** [v.weight || 1]. *)
Definition weightOr1 (v : PromptVariant) : float :=
  match weight v with
  | Some w => if Num.truthy w then w else 1
  | None => 1
  end.

Definition totalWeight (variants : list PromptVariant) : float :=
  fold_left (fun sum v => sum + weightOr1 v) variants 0.

(** [defineExperiment(name, variants)], at clock reading [now]. *)
Definition defineExperiment (now : Z) (name : jsstring)
    (variants : list PromptVariant) : result Experiment :=
  match variants with
  | [] => Throw (Error ExperimentWithoutVariant)
  | _ =>
      let normalized :=
        List.map (fun v =>
               mkVariant (id v) (provider v)
                 (Some (weightOr1 v / totalWeight variants))
                 (promptConfig v) (outputSchema v) (qualityThreshold v))
            variants in
      Ok (mkExperiment name normalized [] now)
  end.

(** [undefined] read as a Number is [NaN]. *)
Definition weightNumber (v : PromptVariant) : float :=
  match weight v with Some w => w | None => nan end.

Fixpoint selectLoop (rand cumulative : float) (variants : list PromptVariant)
    : option PromptVariant :=
  match variants with
  | [] => None
  | variant :: rest =>
      let cumulative' := cumulative + weightNumber variant in
      if Num.ge cumulative' rand then Some variant
      else selectLoop rand cumulative' rest
  end.

(** [selectVariant(experiment)], for the value [rand] of [Math.random()]. *)
Definition selectVariant (rand : float) (experiment : Experiment)
    : option PromptVariant :=
  match selectLoop rand 0 (variants experiment) with
  | Some v => Some v
  | None => last (List.map Some (variants experiment)) None
  end.

Fixpoint join (sep : jsstring) (parts : list jsstring) : jsstring :=
  match parts with
  | [] => []
  | [p] => p
  | p :: rest => p ++ sep ++ join sep rest
  end.

(** [validateOutput(variant, output)]: [(valid, issues)]. *)
Definition validateOutput (variant : PromptVariant)
    (output : list ResponseUnit) : bool * list OutputIssue :=
  match outputSchema variant with
  | None => (true, [])
  | Some schema =>
      match schema output with
      | Some issues =>
          (false,
           List.map (fun i => mkOutputIssue (schemaMessage i)
                           (option_map (join (js ".")) (schemaPath i)))
               issues)
      | None => (true, [])
      end
  end.

(** [experiment.metrics.get(variantId) || []]: the samples recorded for a
    variant. *)
Definition recorded (experiment : Experiment) (variantId : jsstring)
    : list MetricSample :=
  match objGet variantId (metrics experiment) with
  | Some l => l
  | None => []
  end.

(** [recordMetric(experiment, variantId, metric)], at clock reading [now]:
    the experiment with the sample appended. *)
Definition recordMetric (now : Z) (experiment : Experiment)
    (variantId : jsstring) (m : Metric) : Experiment :=
  mkExperiment (name experiment) (variants experiment)
    (objSet variantId (recorded experiment variantId ++ [mkSample m now])
            (metrics experiment))
    (_startedAt experiment).

(** ** Statistics *)

Definition sum (arr : list float) : float :=
  fold_left (fun a b => a + b) arr 0.

Definition avg (arr : list float) : float :=
  match arr with
  | [] => 0
  | _ => sum arr / Num.ofNat (length arr)
  end.

(** [Math.ceil] of a finite Number. *)
Definition ceil (x : float) : option Z :=
  match Prim2SF x with
  | S754_zero _ => Some 0%Z
  | S754_finite s m e =>
      let v := cond_Zopp s (Zpos m) in
      Some (match e with
            | Zneg p => (- ((- v) / 2 ^ Zpos p))%Z
            | _ => (v * 2 ^ e)%Z
            end)
  | _ => None
  end.

(** [percentile(arr, p)]: [None] is [undefined].  The copy is sorted by
    [sortBy]; for an array that holds [NaN] the order is the
    implementation's, see [Effects.insertBy]. *)
Definition percentile (arr : list float) (p : float) : option float :=
  let sorted := sortBy (fun a b => Num.gt (a - b) 0) arr in
  match ceil (Num.ofNat (length sorted) * p) with
  | Some c => nth_error sorted (Z.to_nat (Z.max 0 (c - 1)))
  | None => None
  end.

Record QualityStats : Type := mkQualityStats {
  mean : float;
  min : float;
  max : float;
  p50 : option float;
  p95 : option float
}.

Record LatencyStats : Type := mkLatencyStats {
  latencyMean : float;
  latencyP50 : option float;
  latencyP95 : option float
}.

Record TokenStats : Type := mkTokenStats {
  tokenMean : float;
  tokenTotal : float
}.

(** What the statistics of a variant with samples add to [samples] and
    [weight]. *)
Record Detail : Type := mkDetail {
  quality : QualityStats;
  escalationRate : float;
  schemaPassRate : float;
  latency : LatencyStats;
  tokens : TokenStats
}.

Record VariantStats : Type := mkVariantStats {
  samples : nat;
  statsWeight : option float;
  detail : option Detail
}.

Record Stats : Type := mkStats {
  experimentName : jsstring;
  totalSamples : nat;
  startedAt : Z;
  variantStats : obj VariantStats
}.

Definition statsOf (variant : PromptVariant) (ms : list MetricSample)
    : VariantStats :=
  match ms with
  | [] => mkVariantStats 0 (weight variant) None
  | _ =>
      let qualityScores := List.map (fun m => qualityScore (metric m)) ms in
      let latencies := List.map (fun m => latencyMs (metric m)) ms in
      let tokens := List.map (fun m => tokenCount (metric m)) ms in
      mkVariantStats (length ms) (weight variant)
        (Some (mkDetail
           (mkQualityStats (avg qualityScores)
              (fold_left Num.min qualityScores infinity)
              (fold_left Num.max qualityScores neg_infinity)
              (percentile qualityScores 0.5)
              (percentile qualityScores 0.95))
           (Num.ofNat (length (filter (fun m => escalated (metric m)) ms))
            / Num.ofNat (length ms))
           (Num.ofNat (length (filter (fun m => schemaValid (metric m)) ms))
            / Num.ofNat (length ms))
           (mkLatencyStats (avg latencies)
              (percentile latencies 0.5) (percentile latencies 0.95))
           (mkTokenStats (avg tokens) (sum tokens))))
  end.

(** [getExperimentStats(experiment)]. *)
Definition getExperimentStats (experiment : Experiment) : Stats :=
  let stats :=
    fold_left (fun stats variant =>
                 objAssign (id variant)
                   (statsOf variant (recorded experiment (id variant)))
                   stats)
              (variants experiment) [] in
  mkStats (name experiment)
    (fold_left (fun sum m => (sum + length (snd m))%nat)
               (metrics experiment) 0%nat)
    (_startedAt experiment)
    stats.

(** ** [pickWinner] *)

Inductive Confidence : Type := high | medium | low | insufficient_data.

Record Options : Type := mkOptions {
  minSamples : option float;
  optimizeFor : option jsstring
}.

Record Pick : Type := mkPick {
  winner : option PromptVariant;
  confidence : Confidence;
  stats : Stats
}.

(** The default values of the destructured options. *)
Definition minSamplesOf (options : Options) : float :=
  match minSamples options with Some n => n | None => 5 end.

Definition optimizeForOf (options : Options) : jsstring :=
  match optimizeFor options with Some m => m | None => js "quality" end.

(** [Object.entries(stats.variants).filter(([_, s]) => s.samples >= minSamples)]. *)
Definition eligibleOf (minSamples : float) (stats : Stats)
    : list (jsstring * VariantStats) :=
  filter (fun p => Num.ge (Num.ofNat (samples (snd p))) minSamples)
         (objEntries (variantStats stats)).

(** The [switch] over [optimizeFor]. *)
Definition scoreFor (optimizeFor : jsstring) (d : Detail) : float :=
  if jsstring_eqb optimizeFor (js "quality") then
    mean (quality d) * (1 - escalationRate d * 0.5)
  else if jsstring_eqb optimizeFor (js "cost") then
    mean (quality d)
    / (if Num.truthy (tokenMean (tokens d)) then tokenMean (tokens d) else 1)
  else if jsstring_eqb optimizeFor (js "latency") then
    mean (quality d)
    / (if Num.truthy (latencyMean (latency d)) then latencyMean (latency d)
       else 1)
    * 1000
  else mean (quality d).

(** The loop over the eligible entries: [bestId] and [bestScore] at its end.
    Reading [s.quality.mean] of an entry without samples is a [TypeError]. *)
Fixpoint bestLoop (optimizeFor : jsstring)
    (eligible : list (jsstring * VariantStats))
    (bestId : option jsstring) (bestScore : float)
    : result (option jsstring * float) :=
  match eligible with
  | [] => Ok (bestId, bestScore)
  | (id, s) :: rest =>
      match detail s with
      | None => Throw (TypeError "mean")
      | Some d =>
          let score := scoreFor optimizeFor d in
          if Num.gt score bestScore then
            bestLoop optimizeFor rest (Some id) score
          else bestLoop optimizeFor rest bestId bestScore
      end
  end.

(** [id !== bestId] and [v.id === bestId], [bestId] being [null] or a string. *)
Definition isBest (bestId : option jsstring) (id : jsstring) : bool :=
  match bestId with
  | Some b => jsstring_eqb id b
  | None => false
  end.

(** [s.quality.mean] of an entry the loop has been through. *)
Definition meanOf (s : VariantStats) : float :=
  match detail s with
  | Some d => mean (quality d)
  | None => nan
  end.

(** [eligible.filter(([id]) => id !== bestId).sort((a, b) => b[1].quality.mean - a[1].quality.mean)[0]].
    When a quality mean is [NaN] the order of the sorted array is the
    implementation's, see [Effects.insertBy]. *)
Definition runnerUpOf (eligible : list (jsstring * VariantStats))
    (bestId : option jsstring) : option (jsstring * VariantStats) :=
  hd_error
    (sortBy (fun a b => Num.gt (meanOf (snd b) - meanOf (snd a)) 0)
            (filter (fun p => negb (isBest bestId (fst p))) eligible)).

Definition confidenceOf (winnerSamples : nat) (gap : float) : Confidence :=
  if (Nat.leb 30 winnerSamples && Num.gt gap 0.1)%bool then high
  else if (Nat.leb 10 winnerSamples && Num.gt gap 0.05)%bool then medium
  else low.

(** [pickWinner(experiment, options)]. *)
Definition pickWinner (experiment : Experiment) (options : Options)
    : result Pick :=
  let stats := getExperimentStats experiment in
  let eligible := eligibleOf (minSamplesOf options) stats in
  if Nat.ltb (length eligible) 2 then
    Ok (mkPick None insufficient_data stats)
  else
    match bestLoop (optimizeForOf options) eligible None neg_infinity with
    | Throw e => Throw e
    | Ok (bestId, _) =>
        let winner := find (fun v => isBest bestId (id v))
                           (variants experiment) in
        let key := match bestId with Some b => b | None => js "null" end in
        match objGet key (variantStats stats) with
        | None => Throw (TypeError "quality")
        | Some winnerStats =>
            match runnerUpOf eligible bestId with
            | Some runnerUp =>
                match detail winnerStats with
                | None => Throw (TypeError "mean")
                | Some d =>
                    let gap := mean (quality d) - meanOf (snd runnerUp) in
                    Ok (mkPick winner
                          (confidenceOf (samples winnerStats) gap) stats)
                end
            | None =>
                Ok (mkPick winner (confidenceOf (samples winnerStats) 0)
                      stats)
            end
        end
    end.

End PromptSchema.

(* ================================================================== *)
(** * The model router ([src/router.mjs], [src/providers/minimax.mjs]) *)

Module Router.

Import QualityGate Effects PromptSchema.
Open Scope float_scope.

(** ** Data *)

Record Usage : Type := mkUsage {
  input_tokens : Z;
  output_tokens : Z;
  total_tokens : Z
}.

(** What an adapter returns (the [raw] reply is left out). *)
Record ProviderResult : Type := mkProviderResult {
  outputText : jsstring;
  resultModel : jsstring;
  resultUsage : option Usage;
  resultReasoning : option jsstring;
  latency : Z
}.

Record Timing : Type := mkTiming {
  primary : Z;
  gate : Z;
  escalation : Z;
  total : Z
}.

Inductive EscalationReason : Type :=
| ReasonStrings (reasons : list jsstring)
| ReasonIssues (issues : list Issue).

(** The three shapes of [usage] in a result: one tier's own usage, the
    [usageLog] of [evaluate], and [{ primary, fallback }]. *)
Inductive UsageReport : Type :=
| UsageOne (usage : option Usage)
| UsageLog (log : obj (option Usage))
| UsagePair (primaryUsage fallbackUsage : option Usage).

Record EvaluationResult : Type := mkResult {
  provider : jsstring;
  model : jsstring;
  quality : float;
  escalated : bool;
  escalationReason : option EscalationReason;
  responses : list ResponseUnit;
  issues : list Issue;
  usage : UsageReport;
  timing : Timing;
  reasoning : option jsstring;
  variantId : option jsstring;
  schemaValid : option bool
}.

Record RouterConfig : Type := mkConfig {
  openaiKey : jsstring;
  anthropicKey : option jsstring;
  minimaxKey : option jsstring;
  promptId : jsstring;
  promptVersion : option jsstring;
  qualityThreshold : option float;
  allowEscalation : option bool
}.

(** The defaults of the destructured configuration. *)
Definition promptVersionOf (config : RouterConfig) : jsstring :=
  match promptVersion config with Some v => v | None => js "3" end.

Definition qualityThresholdOf (config : RouterConfig) : float :=
  match qualityThreshold config with Some t => t | None => 0.70 end.

Definition allowEscalationOf (config : RouterConfig) : bool :=
  match allowEscalation config with Some b => b | None => true end.

(** [ToBoolean] of an optional string: [undefined] and [""] are false. *)
Definition truthyStr (s : option jsstring) : bool :=
  match s with
  | Some (_ :: _) => true
  | _ => false
  end.

(** [a || b] on optional strings. *)
Definition orStr (a : option jsstring) (b : jsstring) : jsstring :=
  match a with
  | Some (c :: s) => c :: s
  | _ => b
  end.

(** ** The outside world *)

(** The requests sent to the three providers. *)
Record OpenAIRequest : Type := mkOpenAIRequest {
  requestPromptId : jsstring;
  requestPromptVersion : jsstring;
  requestInput : jsstring
}.

Record OpenAIResponse : Type := mkOpenAIResponse {
  output_text : jsstring;
  responseModel : jsstring;
  responseUsage : option Usage;
  responseReasoning : option jsstring
}.

Record ChatRequest : Type := mkChatRequest {
  requestKey : option jsstring;
  requestModel : jsstring;
  requestSystem : jsstring;
  requestUser : jsstring
}.

Record ContentBlock : Type := mkBlock {
  blockType : jsstring;
  blockText : jsstring
}.

Record AnthropicMessage : Type := mkMessage {
  content : list ContentBlock;
  messageModel : jsstring;
  messageInput : Z;
  messageOutput : Z
}.

(** The reply to [fetch]: its status, and its body as text and as the
    fields of the JSON the adapter reads. *)
Record MiniMaxData : Type := mkData {
  choiceContent : option jsstring;
  prompt_tokens : option Z;
  completion_tokens : option Z;
  dataTotal : option Z;
  dataModel : option jsstring
}.

Record FetchResponse : Type := mkFetch {
  ok : bool;
  status : Z;
  bodyText : jsstring;
  bodyJson : result MiniMaxData
}.

(** What the program cannot decide: the readings of the clock, the draws of
    [Math.random], and the providers' replies.  Each is indexed by how many
    readings, draws or calls came before it. *)
Record Env : Type := mkEnv {
  now : nat -> Z;
  random : nat -> float;
  openaiCreate : nat -> OpenAIRequest -> result OpenAIResponse;
  anthropicCreate : nat -> ChatRequest -> result AnthropicMessage;
  fetchMiniMax : nat -> ChatRequest -> result FetchResponse
}.

Inductive Call : Type := CallMiniMax | CallOpenAI | CallAnthropic.

Inductive Warning : Type :=
| WarnMiniMaxScored (score threshold : float)
| WarnMiniMaxError (err : Exn)
| WarnOpenAIScored (score threshold : float)
| WarnVariantScored (experiment variant : jsstring) (score threshold : float).

(** The state a call runs in: what it has consumed of the world and sent to
    it, and the two objects [evaluate] mutates, [timing] and [usageLog]. *)
Record World : Type := mkWorld {
  reads : nat;
  draws : nat;
  calls : list Call;
  warnings : list Warning;
  timingNow : Timing;
  usageLog : obj (option Usage)
}.

Definition initial : World :=
  mkWorld 0 0 [] [] (mkTiming 0 0 0 0) [].

(** ** The monad of [async] functions *)

Definition M (A : Type) : Type := World -> result A * World.

Definition ret {A : Type} (a : A) : M A := fun w => (Ok a, w).

Definition bind {A B : Type} (m : M A) (f : A -> M B) : M B :=
  fun w =>
    match m w with
    | (Ok a, w') => f a w'
    | (Throw e, w') => (Throw e, w')
    end.

Definition throw {A : Type} (e : Exn) : M A := fun w => (Throw e, w).

(** [try { body } catch (err) { handler }]. *)
Definition tryCatch {A : Type} (body : M A) (handler : Exn -> M A) : M A :=
  fun w =>
    match body w with
    | (Ok a, w') => (Ok a, w')
    | (Throw e, w') => handler e w'
    end.

Notation "x <- m ;; k" := (bind m (fun x => k))
  (at level 61, m at next level, right associativity).
Notation "m ;;; k" := (bind m (fun _ => k))
  (at level 61, right associativity).

Section WithEnv.

Variable env : Env.

(** [Date.now()]. *)
Definition dateNow : M Z :=
  fun w => (Ok (now env (reads w)),
            mkWorld (S (reads w)) (draws w) (calls w) (warnings w)
                    (timingNow w) (usageLog w)).

(** [Math.random()]. *)
Definition mathRandom : M float :=
  fun w => (Ok (random env (draws w)),
            mkWorld (reads w) (S (draws w)) (calls w) (warnings w)
                    (timingNow w) (usageLog w)).

(** [console.warn(...)]. *)
Definition warn (msg : Warning) : M unit :=
  fun w => (Ok tt,
            mkWorld (reads w) (draws w) (calls w) (warnings w ++ [msg])
                    (timingNow w) (usageLog w)).

(** An external call: logged, and answered by [reply] at its number. *)
Definition external {A : Type} (c : Call) (reply : nat -> result A) : M A :=
  fun w => (reply (length (calls w)),
            mkWorld (reads w) (draws w) (calls w ++ [c]) (warnings w)
                    (timingNow w) (usageLog w)).

Definition getTiming : M Timing := fun w => (Ok (timingNow w), w).

Definition setTiming (f : Timing -> Timing) : M unit :=
  fun w => (Ok tt,
            mkWorld (reads w) (draws w) (calls w) (warnings w)
                    (f (timingNow w)) (usageLog w)).

Definition getUsageLog : M (obj (option Usage)) :=
  fun w => (Ok (usageLog w), w).

Definition setUsageLog (f : obj (option Usage) -> obj (option Usage))
    : M unit :=
  fun w => (Ok tt,
            mkWorld (reads w) (draws w) (calls w) (warnings w)
                    (timingNow w) (f (usageLog w))).

Definition setPrimary (v : Z) (t : Timing) : Timing :=
  mkTiming v (gate t) (escalation t) (total t).
Definition setGate (v : Z) (t : Timing) : Timing :=
  mkTiming (primary t) v (escalation t) (total t).
Definition setEscalation (v : Z) (t : Timing) : Timing :=
  mkTiming (primary t) (gate t) v (total t).
Definition setTotal (v : Z) (t : Timing) : Timing :=
  mkTiming (primary t) (gate t) (escalation t) v.

(** ** The provider adapters *)

Definition defaultSystemPrompt : jsstring := js
"You are a SaaS idea evaluator. Given a business idea, produce exactly 5 evaluation variants.

Each variant must:
1. Score the original idea on 10 dimensions (1-10 each): Self-Serve Fulfillment, Zero Human Labor, 100% Digital Delivery, No Expert Judgment Required, Polar Compliance, Low Dispute Risk, Autonomous Feature Delivery, Narrow Scope Strong Utility, Subscription-Friendly, Sells Itself
2. Calculate Total: X/100
3. If Total < 60, suggest a Polar-safe digital pivot with its own 10-dimension scoring
4. Include a Polar integration sketch for the pivot

Hard Filters (auto-fail if any score 0):
- HF1: Zero Human Labor
- HF2: 100% Digital Delivery
- HF3: No Expert Judgment Required (threshold: 3+)

Output format (XML, exactly 5 response blocks):
<response>
  <text>[evaluation text]</text>
  <probability>[0.01-0.10]</probability>
</response>

Probabilities across all 5 responses must sum to < 1.0.".

Definition userContent (idea : jsstring) : jsstring :=
  js "Evaluate this SaaS idea:" ++ [10%N; 10%N] ++ idea.

(** [x || 0] on an optional token count. *)
Definition or0 (x : option Z) : Z :=
  match x with Some v => v | None => 0%Z end.

(** [callMiniMax(idea, { apiKey, model, systemPrompt })]. *)
Definition callMiniMax (idea : jsstring) (apiKey model systemPrompt : option jsstring)
    : M ProviderResult :=
  let model := match model with Some m => m | None => js "MiniMax-Text-01" end in
  if negb (truthyStr apiKey) then throw (Error MiniMaxKeyMissing)
  else
    start <- dateNow ;;
    response <- external CallMiniMax (fun n =>
      fetchMiniMax env n
        (mkChatRequest apiKey model (orStr systemPrompt defaultSystemPrompt)
           (userContent idea))) ;;
    if negb (ok response) then
      throw (Error (MiniMaxApiError (status response) (bodyText response)))
    else
      data <- (fun w => (bodyJson response, w)) ;;
      finish <- dateNow ;;
      ret (mkProviderResult
             (orStr (choiceContent data) [])
             (orStr (dataModel data) model)
             (Some (mkUsage (or0 (prompt_tokens data))
                            (or0 (completion_tokens data))
                            (or0 (dataTotal data))))
             None
             (finish - start)%Z).

Section WithConfig.

Variable config : RouterConfig.

(** [callOpenAI(idea)], on the stored prompt [pid] at version [pver]. *)
Definition openaiCall (pid pver idea : jsstring) : M ProviderResult :=
  start <- dateNow ;;
  response <- external CallOpenAI (fun n =>
    openaiCreate env n (mkOpenAIRequest pid pver idea)) ;;
  finish <- dateNow ;;
  ret (mkProviderResult (output_text response) (responseModel response)
         (responseUsage response) (responseReasoning response)
         (finish - start)%Z).

Definition callOpenAI (idea : jsstring) : M ProviderResult :=
  openaiCall (promptId config) (promptVersionOf config) idea.

(** [message.content.filter(b => b.type === "text").map(b => b.text).join("\n")]. *)
Definition messageText (message : AnthropicMessage) : jsstring :=
  join [10%N]
    (List.map blockText
       (filter (fun b => jsstring_eqb (blockType b) (js "text"))
               (content message))).

(** The call to [client.messages.create] and the result built from it. *)
Definition anthropicCall (model system idea : jsstring) : M ProviderResult :=
  start <- dateNow ;;
  message <- external CallAnthropic (fun n =>
    anthropicCreate env n
      (mkChatRequest (anthropicKey config) model system (userContent idea))) ;;
  finish <- dateNow ;;
  ret (mkProviderResult (messageText message) (messageModel message)
         (Some (mkUsage (messageInput message) (messageOutput message)
                        (messageInput message + messageOutput message)))
         None
         (finish - start)%Z).

Definition callAnthropic (idea : jsstring) : M ProviderResult :=
  if negb (truthyStr (anthropicKey config)) then
    throw (Error AnthropicKeyMissing)
  else
    anthropicCall (js "claude-opus-4-20250514") defaultSystemPrompt idea.

(** The requests [callAnthropic] and [callOpenAI] send. *)
Definition anthropicRequest (idea : jsstring) : ChatRequest :=
  mkChatRequest (anthropicKey config) (js "claude-opus-4-20250514")
    defaultSystemPrompt (userContent idea).

Definition openaiRequest (idea : jsstring) : OpenAIRequest :=
  mkOpenAIRequest (promptId config) (promptVersionOf config) idea.

(** ** [evaluate] *)

(** [qualityGate] between two readings of the clock. *)
Definition timedGate (text : jsstring) : M QualityReport :=
  gateStart <- dateNow ;;
  let gate := qualityGate text in
  gateEnd <- dateNow ;;
  setTiming (setGate (gateEnd - gateStart)%Z) ;;;
  ret gate.

(** Tier 1: [Some] is the result the function returns from inside the [try],
    [None] is falling through to tier 2. *)
Definition tierMiniMax (idea : jsstring) (totalStart : Z)
    : M (option EvaluationResult) :=
  if truthyStr (minimaxKey config) then
    tryCatch
      (mm <- callMiniMax idea (minimaxKey config) None None ;;
       setTiming (setPrimary (latency mm)) ;;;
       setUsageLog (objSet (js "minimax") (resultUsage mm)) ;;;
       gate <- timedGate (outputText mm) ;;
       if (passesGate gate || negb (allowEscalationOf config))%bool then
         finish <- dateNow ;;
         setTiming (setTotal (finish - totalStart)%Z) ;;;
         timing <- getTiming ;;
         ret (Some (mkResult (js "minimax") (resultModel mm) (score gate)
                      false None
                      (QualityGate.responses gate) (QualityGate.issues gate)
                      (UsageOne (resultUsage mm)) timing None None None))
       else
         warn (WarnMiniMaxScored (score gate) (qualityThresholdOf config)) ;;;
         ret None)
      (fun err => warn (WarnMiniMaxError err) ;;; ret None)
  else ret None.

(** Tiers 2 and 3. *)
Definition tierOpenAI (idea : jsstring) (totalStart : Z)
    : M EvaluationResult :=
  primary <- callOpenAI idea ;;
  setTiming (fun t =>
    setPrimary (if Z.eqb (Router.primary t) 0 then latency primary
                else Router.primary t) t) ;;;
  setTiming (setEscalation (latency primary)) ;;;
  setUsageLog (objSet (js "openai") (resultUsage primary)) ;;;
  gate <- timedGate (outputText primary) ;;
  if (passesGate gate || negb (allowEscalationOf config))%bool then
    finish <- dateNow ;;
    setTiming (setTotal (finish - totalStart)%Z) ;;;
    timing <- getTiming ;;
    log <- getUsageLog ;;
    ret (mkResult (js "openai") (resultModel primary) (score gate)
           (truthyStr (minimaxKey config))
           (if truthyStr (minimaxKey config)
            then Some (ReasonStrings [js "MiniMax failed quality gate"])
            else None)
           (QualityGate.responses gate) (QualityGate.issues gate)
           (if Nat.ltb 1 (length log) then UsageLog log
            else UsageOne (resultUsage primary))
           timing (resultReasoning primary) None None)
  else
    warn (WarnOpenAIScored (score gate) (qualityThresholdOf config)) ;;;
    fallback <- callAnthropic idea ;;
    setTiming (fun t => setEscalation (escalation t + latency fallback)%Z t) ;;;
    setUsageLog (objSet (js "anthropic") (resultUsage fallback)) ;;;
    let fallbackGate := qualityGate (outputText fallback) in
    finish <- dateNow ;;
    setTiming (setTotal (finish - totalStart)%Z) ;;;
    timing <- getTiming ;;
    log <- getUsageLog ;;
    ret (mkResult (js "anthropic") (resultModel fallback) (score fallbackGate)
           true (Some (ReasonIssues (QualityGate.issues gate)))
           (QualityGate.responses fallbackGate)
           (QualityGate.issues fallbackGate)
           (UsageLog log) timing None None None).

(** [evaluate(idea)]. *)
Definition evaluate (idea : jsstring) : M EvaluationResult :=
  setTiming (fun _ => mkTiming 0 0 0 0) ;;;
  totalStart <- dateNow ;;
  setUsageLog (fun _ => []) ;;;
  early <- tierMiniMax idea totalStart ;;
  match early with
  | Some r => ret r
  | None => tierOpenAI idea totalStart
  end.

(** ** [evaluateWithExperiment] *)

Definition configOf (variant : PromptVariant) (field : PromptConfig -> option jsstring)
    : option jsstring :=
  match promptConfig variant with
  | Some c => field c
  | None => None
  end.

(** Step 1: the call to the variant's provider. *)
Definition callVariant (idea : jsstring) (variant : PromptVariant)
    : M ProviderResult :=
  if jsstring_eqb (PromptSchema.provider variant) (js "openai") then
    openaiCall (orStr (configOf variant PromptSchema.promptId) (promptId config))
               (orStr (configOf variant PromptSchema.promptVersion)
                      (promptVersionOf config))
               idea
  else if jsstring_eqb (PromptSchema.provider variant) (js "anthropic") then
    primary <- callAnthropic idea ;;
    if truthyStr (configOf variant systemPrompt) then
      anthropicCall
        (orStr (configOf variant PromptSchema.model) (js "claude-opus-4-20250514"))
        (orStr (configOf variant systemPrompt) [])
        idea
    else ret primary
  else if jsstring_eqb (PromptSchema.provider variant) (js "minimax") then
    callMiniMax idea (minimaxKey config)
      (configOf variant PromptSchema.model) (configOf variant systemPrompt)
  else throw (Error (UnknownProvider (PromptSchema.provider variant))).

(** [variant.qualityThreshold || qualityThreshold]. *)
Definition thresholdOf (variant : PromptVariant) : float :=
  match PromptSchema.qualityThreshold variant with
  | Some t => if Num.truthy t then t else qualityThresholdOf config
  | None => qualityThresholdOf config
  end.

(** [result.usage?.total_tokens || (result.usage?.primary?.total_tokens || 0)
    + (result.usage?.fallback?.total_tokens || 0)]. *)
Definition tokenCountOf (u : UsageReport) : Z :=
  let totalOf (x : option Usage) :=
    match x with Some v => total_tokens v | None => 0%Z end in
  match u with
  | UsageOne x => totalOf x
  | UsagePair p f => (totalOf p + totalOf f)%Z
  | UsageLog _ => 0%Z
  end.

(** [evaluateWithExperiment(idea, experiment)]: the result, and the
    experiment with the sample recorded. *)
Definition evaluateWithExperiment (idea : jsstring) (experiment : Experiment)
    : M (EvaluationResult * Experiment) :=
  rand <- mathRandom ;;
  match selectVariant rand experiment with
  | None =>
      setTiming (fun _ => mkTiming 0 0 0 0) ;;;
      totalStart <- dateNow ;;
      throw (TypeError "provider")
  | Some variant =>
      setTiming (fun _ => mkTiming 0 0 0 0) ;;;
      totalStart <- dateNow ;;
      primary <- callVariant idea variant ;;
      setTiming (setPrimary (latency primary)) ;;;
      let threshold := thresholdOf variant in
      gateStart <- dateNow ;;
      let gate := qualityGate (outputText primary) in
      gateEnd <- dateNow ;;
      setTiming (setGate (gateEnd - gateStart)%Z) ;;;
      let validation :=
        match outputSchema variant, QualityGate.responses gate with
        | Some _, _ :: _ => validateOutput variant (QualityGate.responses gate)
        | _, _ => (true, [])
        end in
      let schemaValid := fst validation in
      let gateIssues :=
        if schemaValid then QualityGate.issues gate
        else QualityGate.issues gate
             ++ List.map (fun i => mkIssue cat_schema warning
                                     (MsgOther (outputMessage i)))
                    (snd validation) in
      result <-
        (if (Num.ge (score gate) threshold
             || negb (allowEscalationOf config))%bool then
           finish <- dateNow ;;
           setTiming (setTotal (finish - totalStart)%Z) ;;;
           timing <- getTiming ;;
           ret (mkResult (PromptSchema.provider variant) (resultModel primary)
                  (score gate) false None
                  (QualityGate.responses gate) gateIssues
                  (UsageOne (resultUsage primary)) timing
                  (resultReasoning primary)
                  (Some (id variant)) (Some schemaValid))
         else
           warn (WarnVariantScored (name experiment) (id variant)
                   (score gate) threshold) ;;;
           fallback <- callAnthropic idea ;;
           setTiming (setEscalation (latency fallback)) ;;;
           let fallbackGate := qualityGate (outputText fallback) in
           finish <- dateNow ;;
           setTiming (setTotal (finish - totalStart)%Z) ;;;
           timing <- getTiming ;;
           ret (mkResult (js "anthropic") (resultModel fallback)
                  (score fallbackGate) true (Some (ReasonIssues gateIssues))
                  (QualityGate.responses fallbackGate)
                  (QualityGate.issues fallbackGate)
                  (UsagePair (resultUsage primary) (resultUsage fallback))
                  timing None
                  (Some (id variant)) (Some schemaValid))) ;;
      timing <- getTiming ;;
      stamp <- dateNow ;;
      ret (result,
           recordMetric stamp experiment (id variant)
             (mkMetric (quality result) (escalated result) schemaValid
                (Num.ofZ (total timing))
                (Num.ofZ (tokenCountOf (usage result)))))
  end.

End WithConfig.

(** [createRouter(config)]: the two functions it returns. *)
Definition createRouter (config : RouterConfig)
    : (jsstring -> M EvaluationResult)
      * (jsstring -> Experiment -> M (EvaluationResult * Experiment)) :=
  (evaluate config, evaluateWithExperiment config).

End WithEnv.

End Router.

(* ================================================================== *)
(** * The composite score as the specification words it *)

Module Spec.

Import QualityGate.
Open Scope float_scope.

Definition clamp01 (x : float) : float := Num.max 0 (Num.min 1 x).

Definition tagsMismatched (outputText : jsstring) : bool :=
  negb (Nat.eqb (openTags outputText) (closeTags outputText)).

(** Some units show the numbered rubric and others do not. *)
Definition inconsistent (responses : list ResponseUnit) : bool :=
  (existsb (fun r => Regex.test hasScores_re (text r)) responses
   && existsb (fun r => negb (Regex.test hasScores_re (text r))) responses)%bool.

(** The document-level score of section 4.3: 1.0 less 0.3 for unbalanced
    tags, 0.15 for fewer than three units, 0.2 for a probability sum above
    1.0 and 0.1 for inconsistent structure, taken off in this order.
    [structureScore] is the score once the first two have been taken off. *)
Definition structureScore (outputText : jsstring)
    (responses : list ResponseUnit) : float :=
  let s1 := if tagsMismatched outputText then 1.0 - 0.3 else 1.0 in
  if Nat.ltb (length responses) 3 then s1 - 0.15 else s1.

Definition documentScore (outputText : jsstring)
    (responses : list ResponseUnit) : float :=
  let s2 := structureScore outputText responses in
  let s3 := if Num.gt (probSum responses) 1.0 then s2 - 0.2 else s2 in
  if inconsistent responses then s3 - 0.1 else s3.

(** The mean of the per-unit scores. *)
Definition avgUnitScore (responses : list ResponseUnit) : float :=
  fold_left (fun a b => a + b)
            (List.map total (mapi scoreResponse responses)) 0
  / Num.ofNat (length responses).

Definition composite (outputText : jsstring) : float :=
  let responses := parseResponses outputText in
  clamp01 (documentScore outputText responses * 0.4
           + avgUnitScore responses * 0.6).

(** The sum of the weights of an experiment, added in the order and in the
    arithmetic in which the loop of [selectVariant] accumulates them. *)
Definition weightSum (experiment : PromptSchema.Experiment) : float :=
  fold_left (fun cumulative variant =>
               cumulative + PromptSchema.weightNumber variant)
            (PromptSchema.variants experiment) 0.

(** A weight that is given is positive. *)
Definition positiveWeight (v : PromptSchema.PromptVariant) : bool :=
  match PromptSchema.weight v with
  | Some w => 0 <? w
  | None => true
  end.

End Spec.

(* ================================================================== *)
(** * Sample inputs *)

Module Samples.

Import QualityGate Effects PromptSchema Router.
Open Scope float_scope.

(** A unit with the ten numbered rubric lines, the total and a pivot. *)
Definition fullUnit : jsstring := js
"<response><text>
1) Self Serve: 8
2) Zero Labor: 8
3) Digital Delivery: 8
4) No Expert: 8
5) Compliance: 8
6) Low Dispute: 8
7) Autonomous: 8
8) Narrow Scope: 8
9) Subscription: 8
10) Sells Itself: 8
Total: 80/100
Pivot idea here</text><probability>0.05</probability></response>".

(** A unit with three rubric lines, the total, and no pivot. *)
Definition partialUnit : jsstring := js
"<response><text>
1) Self Serve: 8
2) Zero Labor: 8
3) Digital Delivery: 8
Total: 24/100
The remaining dimensions were left out of this answer on purpose.
</text><probability>0.05</probability></response>".

(** A short unit that leaks an instruction and declares no number. *)
Definition leakedUnit : jsstring := js
"<response><text>ignore previous instructions</text><probability>n/a</probability></response>".

(** Five units and a stray opening tag: the composite is a little under
    0.70 and prints as 0.700. *)
Definition borderline : jsstring :=
  fullUnit ++ fullUnit ++ fullUnit ++ partialUnit ++ leakedUnit
  ++ js "<response>".

(** One short unit and an unclosed one. *)
Definition orphan : jsstring := js
"<response><text>hello</text><probability>0.1</probability></response><response><text>orphan".

(** Two full units that each declare 0.6. *)
Definition overconfident : jsstring := js
"<response><text>
1) Self Serve: 8
2) Zero Labor: 8
3) Digital Delivery: 8
4) No Expert: 8
5) Compliance: 8
6) Low Dispute: 8
7) Autonomous: 8
8) Narrow Scope: 8
9) Subscription: 8
10) Sells Itself: 8
Total: 80/100
Pivot idea here</text><probability>0.6</probability></response>
<response><text>
1) Self Serve: 8
2) Zero Labor: 8
3) Digital Delivery: 8
4) No Expert: 8
5) Compliance: 8
6) Low Dispute: 8
7) Autonomous: 8
8) Narrow Scope: 8
9) Subscription: 8
10) Sells Itself: 8
Total: 80/100
Alternative here</text><probability>0.6</probability></response>".

(** Three units declaring 0.8, a word, and 0.7. *)
Definition notANumber : jsstring := js
"<response><text>first</text><probability>0.8</probability></response>
<response><text>second</text><probability>abc</probability></response>
<response><text>third</text><probability>0.7</probability></response>".

(** A world where MiniMax is unreachable, OpenAI answers [openaiText] and
    Anthropic answers [anthropicText]; the clock advances 10 ms a reading. *)
Definition world (openaiText anthropicText : jsstring) : Env :=
  mkEnv (fun n => (10 * Z.of_nat n)%Z)
        (fun _ => 0.5)
        (fun _ _ => Ok (mkOpenAIResponse openaiText (js "gpt") None None))
        (fun _ _ => Ok (mkMessage [mkBlock (js "text") anthropicText]
                          (js "claude-opus-4-20250514") 100 200))
        (fun _ _ => Throw (External (js "ECONNREFUSED"))).

(** A world where OpenAI is unreachable as well. *)
Definition openaiDown (anthropicText : jsstring) : Env :=
  mkEnv (fun n => (10 * Z.of_nat n)%Z)
        (fun _ => 0.5)
        (fun _ _ => Throw (External (js "401 Unauthorized")))
        (fun _ _ => Ok (mkMessage [mkBlock (js "text") anthropicText]
                          (js "claude-opus-4-20250514") 100 200))
        (fun _ _ => Throw (External (js "ECONNREFUSED"))).

(** All three keys, every option at its default. *)
Definition threeTiers : RouterConfig :=
  mkConfig (js "sk-openai") (Some (js "sk-ant")) (Some (js "mm-key"))
           (js "pmpt_1") None None None.

(** OpenAI and Anthropic only. *)
Definition twoTiers : RouterConfig :=
  mkConfig (js "sk-openai") (Some (js "sk-ant")) None
           (js "pmpt_1") None None None.

(** The same, with the quality threshold lowered to 0.5. *)
Definition lenient : RouterConfig :=
  mkConfig (js "sk-openai") (Some (js "sk-ant")) None
           (js "pmpt_1") None (Some 0.5) None.

Definition openaiVariant : PromptVariant :=
  mkVariant (js "openai-v3") (js "openai") (Some 1) None None None.

(** Two variants whose weights are finite and add up to more than the
    largest Number. *)
Definition heavyVariants : list PromptVariant :=
  [ mkVariant (js "a") (js "openai") (Some 1e308) None None None;
    mkVariant (js "b") (js "anthropic") (Some 1e308) None None None ].

(** An experiment with the one variant [openaiVariant]. *)
Definition soloExperiment : Experiment :=
  mkExperiment (js "solo") [openaiVariant] [] 0.

(** [n] samples of the same metric for one variant. *)
Fixpoint recordMany (n : nat) (experiment : Experiment) (variantId : jsstring)
    (m : Metric) : Experiment :=
  match n with
  | O => experiment
  | S n' => recordMany n' (recordMetric 0 experiment variantId m) variantId m
  end.

(** Two variants with thirty samples each: one scores 0.92 and never
    escalates, the other scores 0.55 and always does. *)
Definition trial : Experiment :=
  recordMany 30
    (recordMany 30
       (mkExperiment (js "trial")
          [ mkVariant (js "good") (js "openai") (Some 0.5) None None None;
            mkVariant (js "bad") (js "anthropic") (Some 0.5) None None None ]
          [] 0)
       (js "good") (mkMetric 0.92 false true 1200 10000))
    (js "bad") (mkMetric 0.55 true false 4000 25000).

(** Three variants with thirty samples each: [steady] scores 0.9 and never
    escalates, [plain] scores 0.7 and never escalates, [shaky] scores 0.95
    and always escalates. *)
Definition rivals : Experiment :=
  recordMany 30
    (recordMany 30
       (recordMany 30
          (mkExperiment (js "rivals")
             [ mkVariant (js "steady") (js "openai") (Some 0.4) None None None;
               mkVariant (js "plain") (js "openai") (Some 0.3) None None None;
               mkVariant (js "shaky") (js "anthropic") (Some 0.3) None None
                 None ]
             [] 0)
          (js "steady") (mkMetric 0.9 false true 1200 10000))
       (js "plain") (mkMetric 0.7 false true 1500 12000))
    (js "shaky") (mkMetric 0.95 true true 4000 25000).

End Samples.

(* ================================================================== *)
(** * Positions in the subject of a match *)

Module Positions.

Import Regex.

(** [st'] is the position reached from [st] by going through the code
    units [pre]. *)
Definition consumed (st st' : mstate) (pre : jsstring) : Prop :=
  ahead st = pre ++ ahead st' /\ here st' = (here st + length pre)%nat.

Definition reaches (st st' : mstate) : Prop :=
  exists pre, consumed st st' pre.

End Positions.

(* ================================================================== *)
(** * More sample inputs *)

Module Scenarios.

Import QualityGate Effects PromptSchema Router.
Open Scope float_scope.

(** Two variants with the weights 0.7 and 0.3, and no sample yet. *)
Definition fresh : Experiment :=
  mkExperiment (js "fresh")
    [ mkVariant (js "a") (js "openai") (Some 0.7) None None None;
      mkVariant (js "b") (js "anthropic") (Some 0.3) None None None ]
    [] 0.

(** A schema that wants the five responses the prompt asks for. *)
Definition fiveResponses : Schema :=
  fun output =>
    if Nat.ltb (length output) 5 then
      Some [mkSchemaIssue (js "expected 5 responses") (Some [js "length"])]
    else None.

(** An OpenAI variant validated by [fiveResponses]. *)
Definition strictVariant : PromptVariant :=
  mkVariant (js "strict") (js "openai") (Some 1) None (Some fiveResponses)
    None.

Definition strictExperiment : Experiment :=
  mkExperiment (js "strict") [strictVariant] [] 0.

(** An Anthropic variant with a system prompt of its own. *)
Definition briefVariant : PromptVariant :=
  mkVariant (js "brief") (js "anthropic") (Some 1)
    (Some (mkPromptConfig None None (Some (js "Be brief.")) None))
    None None.

(** The variants of a definition: the weights 7 and 3, and one left out. *)
Definition mixed : list PromptVariant :=
  [ mkVariant (js "a") (js "openai") (Some 7) None None None;
    mkVariant (js "b") (js "anthropic") (Some 3) None None None;
    mkVariant (js "c") (js "openai") None None None None ].

End Scenarios.

(* ================================================================== *)
(** * Numbers as real numbers *)

Module Exact.

Local Open Scope R_scope.

(** The power of two [2^e]. *)
Definition bpow (e : Z) : R := powerRZ 2 e.

Arguments bpow : simpl never.

(** The magnitude and the value of a binary64 datum; an infinity and [NaN]
    read as 0. *)
Definition SFmag (x : spec_float) : R :=
  match x with
  | S754_finite _ m e => IZR (Zpos m) * bpow e
  | _ => 0
  end.

Definition SF2R (x : spec_float) : R :=
  match x with
  | S754_finite s m e => IZR (cond_Zopp s (Zpos m)) * bpow e
  | _ => 0
  end.

(** The real number that a finite Number is. *)
Definition toR (x : float) : R := SF2R (Prim2SF x).

(** [+0] or a positive finite Number. *)
Definition nonneg (x : float) : Prop :=
  Prim2SF x = S754_zero false \/ exists m e, Prim2SF x = S754_finite false m e.

Definition positive_finite (x : float) : Prop :=
  exists m e, Prim2SF x = S754_finite false m e.

(** A Number that is neither [NaN] nor infinite. *)
Definition finite (x : float) : Prop :=
  match Prim2SF x with
  | S754_zero _ | S754_finite _ _ _ => True
  | _ => False
  end.

(** The unit roundoff of binary64, and half its smallest positive Number. *)
Definition u : R := bpow (-53).
Definition eta : R := bpow (-1075).

(** The exact sum of the values of a list of Numbers. *)
Fixpoint sumR (l : list float) : R :=
  match l with
  | [] => 0
  | x :: l' => toR x + sumR l'
  end.

(** Where a real number [t] lies from the integer [shr_m mrs], as the two
    bits of the record say: on it, below the half, on the half, above it. *)
Definition locates (t : R) (mrs : shr_record) : Prop :=
  match shr_r mrs, shr_s mrs with
  | false, false => t = IZR (shr_m mrs)
  | false, true => IZR (shr_m mrs) < t < IZR (shr_m mrs) + / 2
  | true, false => t = IZR (shr_m mrs) + / 2
  | true, true => IZR (shr_m mrs) + / 2 < t < IZR (shr_m mrs) + 1
  end.

End Exact.

(* ================================================================== *)
(** * Facts about binary64 comparison and addition *)

Module FloatFacts.

Open Scope float_scope.

Lemma SFcompare_refl (x : spec_float) :
  x <> S754_nan -> SFcompare x x = Some Eq.
Proof.
  destruct x as [s| s | |s m e]; simpl; intros H; try congruence.
  - destruct s; reflexivity.
  - destruct s; rewrite Z.compare_refl, Pos.compare_cont_refl; reflexivity.
Qed.

Lemma is_nan_spec (x : float) :
  is_nan x = true <-> Prim2SF x = S754_nan.
Proof.
  unfold is_nan. rewrite FloatAxioms.eqb_spec. unfold SFeqb. split.
  - intros H. destruct (Prim2SF x) eqn:E; try reflexivity;
      rewrite SFcompare_refl in H by congruence; discriminate.
  - intros ->. reflexivity.
Qed.

Lemma add_nan_l (x y : float) : is_nan x = true -> is_nan (x + y) = true.
Proof.
  rewrite !is_nan_spec, FloatAxioms.add_spec. intros ->. reflexivity.
Qed.

Lemma add_nan_r (x y : float) : is_nan y = true -> is_nan (x + y) = true.
Proof.
  rewrite !is_nan_spec, FloatAxioms.add_spec. intros ->.
  destruct (Prim2SF x); reflexivity.
Qed.

Lemma ltb_nan_r (x y : float) : is_nan y = true -> (x <? y) = false.
Proof.
  rewrite is_nan_spec, FloatAxioms.ltb_spec. intros ->. unfold SFltb.
  destruct (Prim2SF x); reflexivity.
Qed.

Lemma ltb_irrefl (x : float) : (x <? x) = false.
Proof.
  rewrite FloatAxioms.ltb_spec. unfold SFltb.
  destruct (Prim2SF x) eqn:E; try reflexivity;
    rewrite SFcompare_refl by congruence; reflexivity.
Qed.

Lemma magnitude_lt_trans m1 e1 m2 e2 m3 e3 :
  Num.magnitude_lt m1 e1 m2 e2 -> Num.magnitude_lt m2 e2 m3 e3 ->
  Num.magnitude_lt m1 e1 m3 e3.
Proof. unfold Num.magnitude_lt. lia. Qed.

Lemma compare_magnitude_Lt m1 e1 m2 e2 :
  match Z.compare e1 e2 with
  | Lt => Lt
  | Gt => Gt
  | Eq => Pos.compare_cont Eq m1 m2
  end = Lt <-> Num.magnitude_lt m1 e1 m2 e2.
Proof.
  unfold Num.magnitude_lt.
  destruct (Z.compare_spec e1 e2) as [H|H|H].
  - change (Pos.compare_cont Eq m1 m2) with (Pos.compare m1 m2).
    rewrite Pos.compare_lt_iff. split; [auto | intros [?|[_ ?]]; [lia|auto]].
  - split; [auto | reflexivity].
  - split; [discriminate | lia].
Qed.

Lemma compare_magnitude_Gt m1 e1 m2 e2 :
  match Z.compare e1 e2 with
  | Lt => Gt
  | Gt => Lt
  | Eq => CompOpp (Pos.compare_cont Eq m1 m2)
  end = Lt <-> Num.magnitude_lt m2 e2 m1 e1.
Proof.
  unfold Num.magnitude_lt.
  destruct (Z.compare_spec e1 e2) as [H|H|H].
  - change (Pos.compare_cont Eq m1 m2) with (Pos.compare m1 m2).
    destruct (Pos.compare_spec m1 m2); simpl;
      split; try discriminate; try lia; auto.
  - split; [discriminate | lia].
  - split; [auto | reflexivity].
Qed.

Lemma SFltb_trans (x y z : spec_float) :
  SFltb x y = true -> SFltb y z = true -> SFltb x z = true.
Proof.
  unfold SFltb.
  destruct x as [sx|sx| |sx mx ex], y as [sy|sy| |sy my ey],
           z as [sz|sz| |sz mz ez];
    simpl; try discriminate;
    try (destruct sx; discriminate); try (destruct sy; discriminate);
    try (destruct sz; discriminate);
    try (destruct sx, sy; discriminate); try (destruct sy, sz; discriminate);
    try (destruct sx, sz; try discriminate; reflexivity);
    try (destruct sx, sy, sz; try discriminate; reflexivity).
  destruct sx, sy, sz; try discriminate; try reflexivity.
  - intros H1 H2.
    destruct (match (ex ?= ey)%Z with
              | Lt => Gt | Gt => Lt
              | Eq => CompOpp (Pos.compare_cont Eq mx my) end) eqn:E1;
      try discriminate.
    destruct (match (ey ?= ez)%Z with
              | Lt => Gt | Gt => Lt
              | Eq => CompOpp (Pos.compare_cont Eq my mz) end) eqn:E2;
      try discriminate.
    apply compare_magnitude_Gt in E1, E2.
    pose proof (magnitude_lt_trans _ _ _ _ _ _ E2 E1) as E3.
    apply compare_magnitude_Gt in E3. rewrite E3. reflexivity.
  - intros H1 H2.
    destruct (match (ex ?= ey)%Z with
              | Lt => Lt | Gt => Gt
              | Eq => Pos.compare_cont Eq mx my end) eqn:E1;
      try discriminate.
    destruct (match (ey ?= ez)%Z with
              | Lt => Lt | Gt => Gt
              | Eq => Pos.compare_cont Eq my mz end) eqn:E2;
      try discriminate.
    apply compare_magnitude_Lt in E1, E2.
    pose proof (magnitude_lt_trans _ _ _ _ _ _ E1 E2) as E3.
    apply compare_magnitude_Lt in E3. rewrite E3. reflexivity.
Qed.

Lemma ltb_trans (x y z : float) :
  (x <? y) = true -> (y <? z) = true -> (x <? z) = true.
Proof. rewrite !FloatAxioms.ltb_spec. apply SFltb_trans. Qed.

(** Once a running sum is [NaN] it stays [NaN]; and one [NaN] term makes
    it so. *)
Lemma fold_add_nan {A : Type} (f : A -> float) (l : list A) (a : float) :
  is_nan a = true ->
  is_nan (fold_left (fun sum x => sum + f x) l a) = true.
Proof.
  revert a. induction l as [|x l IH]; simpl; intros a H; [exact H|].
  apply IH, add_nan_l, H.
Qed.

Lemma fold_add_nan_term {A : Type} (f : A -> float) (l : list A) (a : float)
    (x : A) :
  In x l -> is_nan (f x) = true ->
  is_nan (fold_left (fun sum x => sum + f x) l a) = true.
Proof.
  revert a. induction l as [|y l IH]; simpl; intros a Hin Hx;
    [contradiction|].
  destruct Hin as [->|Hin].
  - apply fold_add_nan, add_nan_r, Hx.
  - apply IH; assumption.
Qed.

End FloatFacts.

(* ================================================================== *)
(** * The order of binary64 values that are not NaN *)

Module OrderFacts.

Import FloatFacts.
Open Scope float_scope.

Lemma SFcompare_antisym (x y : spec_float) :
  SFcompare y x = option_map CompOpp (SFcompare x y).
Proof.
  destruct x as [sx|sx| |sx mx ex], y as [sy|sy| |sy my ey]; simpl;
    try reflexivity;
    try (destruct sx; reflexivity); try (destruct sy; reflexivity);
    try (destruct sx, sy; reflexivity).
  destruct sx, sy; try reflexivity;
    rewrite (Z.compare_antisym ex ey);
    change (Pos.compare_cont Eq my mx) with (Pos.compare my mx);
    change (Pos.compare_cont Eq mx my) with (Pos.compare mx my);
    rewrite (Pos.compare_antisym mx my);
    destruct (Z.compare ex ey), (Pos.compare mx my); reflexivity.
Qed.

(** Two Numbers that are not [NaN] are comparable. *)
Lemma leb_negb_ltb (x y : float) :
  is_nan x = false -> is_nan y = false -> (x <=? y) = negb (y <? x).
Proof.
  intros Nx Ny.
  rewrite FloatAxioms.leb_spec, FloatAxioms.ltb_spec.
  unfold SFleb, SFltb. rewrite (SFcompare_antisym (Prim2SF x) (Prim2SF y)).
  assert (Hx : Prim2SF x <> S754_nan)
    by (intros E; apply is_nan_spec in E; congruence).
  assert (Hy : Prim2SF y <> S754_nan)
    by (intros E; apply is_nan_spec in E; congruence).
  destruct (SFcompare (Prim2SF x) (Prim2SF y)) as [[| |]|] eqn:C;
    try reflexivity.
  destruct (Prim2SF x), (Prim2SF y); simpl in C; congruence.
Qed.

Lemma leb_nan_r (x y : float) : is_nan y = true -> (x <=? y) = false.
Proof.
  rewrite is_nan_spec, FloatAxioms.leb_spec. intros ->. unfold SFleb.
  destruct (Prim2SF x); reflexivity.
Qed.

End OrderFacts.

(* ================================================================== *)
(** * Rounding: the error of a sum, a difference and a quotient *)

Module Rounding.

Import Exact.
Local Open Scope R_scope.

Lemma bpow_pos e : 0 < bpow e.
Proof. apply powerRZ_lt. lra. Qed.

Lemma bpow_add a b : bpow (a + b) = bpow a * bpow b.
Proof. apply powerRZ_add. lra. Qed.

Lemma bpow_0 : bpow 0 = 1.
Proof. reflexivity. Qed.

Lemma bpow_1 : bpow 1 = 2.
Proof. unfold bpow. simpl. lra. Qed.

Lemma bpow_succ e : bpow (e + 1) = 2 * bpow e.
Proof. rewrite bpow_add, bpow_1. lra. Qed.

Lemma bpow_opp e : bpow (- e) = / bpow e.
Proof. apply powerRZ_neg'. Qed.

Lemma bpow_le a b : (a <= b)%Z -> bpow a <= bpow b.
Proof.
  intros H. replace b with (a + (b - a))%Z by lia.
  rewrite bpow_add.
  assert (1 <= bpow (b - a)).
  { assert (0 <= b - a)%Z by lia. revert H0. generalize (b - a)%Z.
    intros z Hz. pattern z. apply natlike_ind; [rewrite bpow_0; lra | | exact Hz].
    intros x Hx IH. unfold Z.succ. rewrite bpow_succ. lra. }
  pose proof (bpow_pos a). nra.
Qed.

Lemma bpow_lt a b : (a < b)%Z -> bpow a < bpow b.
Proof.
  intros H. apply Rlt_le_trans with (bpow (a + 1)).
  - rewrite bpow_succ. pose proof (bpow_pos a). lra.
  - apply bpow_le. lia.
Qed.

Lemma bpow_IZR e : (0 <= e)%Z -> bpow e = IZR (2 ^ e).
Proof.
  intros H. pattern e. apply natlike_ind; [reflexivity | | exact H].
  intros x Hx IH. unfold Z.succ. rewrite bpow_succ, IH, Z.pow_add_r by lia.
  rewrite mult_IZR. change (2 ^ 1)%Z with 2%Z. lra.
Qed.

(** ** The number of binary digits *)

Lemma digits2_pos_bounds (m : positive) :
  (2 ^ (Zpos (digits2_pos m) - 1) <= Zpos m < 2 ^ Zpos (digits2_pos m))%Z.
Proof.
  induction m as [m IH|m IH|]; simpl digits2_pos.
  - rewrite Pos2Z.inj_succ. replace (Z.succ (Zpos (digits2_pos m)) - 1)%Z
      with (Zpos (digits2_pos m) - 1 + 1)%Z by lia.
    unfold Z.succ. rewrite !Z.pow_add_r by lia. lia.
  - rewrite Pos2Z.inj_succ. replace (Z.succ (Zpos (digits2_pos m)) - 1)%Z
      with (Zpos (digits2_pos m) - 1 + 1)%Z by lia.
    unfold Z.succ. rewrite !Z.pow_add_r by lia. lia.
  - simpl. lia.
Qed.

Lemma Zdigits2_bounds (m : Z) :
  (0 < m)%Z -> (2 ^ (Zdigits2 m - 1) <= m < 2 ^ Zdigits2 m)%Z.
Proof.
  destruct m as [|p|p]; try lia. intros _. apply digits2_pos_bounds.
Qed.

Lemma Zdigits2_pos (m : Z) : (0 < m)%Z -> (0 < Zdigits2 m)%Z.
Proof. destruct m; simpl; lia. Qed.

Lemma Zdigits2_unique (m k : Z) :
  (2 ^ (k - 1) <= m < 2 ^ k)%Z -> (0 < m)%Z -> Zdigits2 m = k.
Proof.
  intros [L U] P. pose proof (Zdigits2_bounds m P) as [L' U'].
  pose proof (Zdigits2_pos m P) as D.
  assert (0 < k)%Z.
  { destruct (Z_lt_le_dec 0 k); [assumption|].
    assert (2 ^ k <= 1)%Z.
    { destruct (Z.eq_dec k 0) as [->|]; [simpl; lia|].
      rewrite Z.pow_neg_r by lia. lia. }
    lia. }
  destruct (Z_lt_le_dec (Zdigits2 m) k).
  - assert (2 ^ Zdigits2 m <= 2 ^ (k - 1))%Z by (apply Z.pow_le_mono_r; lia). lia.
  - destruct (Z_lt_le_dec k (Zdigits2 m)); [|lia].
    assert (2 ^ k <= 2 ^ (Zdigits2 m - 1))%Z by (apply Z.pow_le_mono_r; lia). lia.
Qed.

(** ** Shifting a mantissa to the right *)

Lemma locates_bounds t mrs :
  locates t mrs -> IZR (shr_m mrs) <= t < IZR (shr_m mrs) + 1.
Proof.
  unfold locates. destruct (shr_r mrs), (shr_s mrs); lra.
Qed.

Lemma IZR_xO p : IZR (Zpos p~0) = 2 * IZR (Zpos p).
Proof. rewrite Pos2Z.inj_xO, mult_IZR. reflexivity. Qed.

Lemma IZR_xI p : IZR (Zpos p~1) = 2 * IZR (Zpos p) + 1.
Proof. rewrite Pos2Z.inj_xI, plus_IZR, mult_IZR. reflexivity. Qed.

(** One shift to the right halves the located value and keeps its place. *)
Lemma shr_1_locates t mrs :
  (0 <= shr_m mrs)%Z -> locates t mrs ->
  locates (t / 2) (shr_1 mrs) /\ shr_m (shr_1 mrs) = (shr_m mrs / 2)%Z.
Proof.
  destruct mrs as [m r s]. cbn [shr_m]. intros P H.
  destruct m as [|[p|p|]|p]; try lia; unfold locates in *;
    cbn [shr_m shr_r shr_s] in *.
  - split.
    + destruct r, s; cbn [shr_1 orb shr_m shr_r shr_s]; lra.
    + destruct r, s; reflexivity.
  - rewrite (IZR_xI p) in H. split.
    + destruct r, s; cbn [shr_1 orb shr_m shr_r shr_s]; lra.
    + destruct r, s; cbn [shr_1 orb shr_m];
        rewrite Pos2Z.inj_xI; apply Z.div_unique with 1%Z; lia.
  - rewrite (IZR_xO p) in H. split.
    + destruct r, s; cbn [shr_1 orb shr_m shr_r shr_s]; lra.
    + destruct r, s; cbn [shr_1 orb shr_m];
        rewrite Pos2Z.inj_xO; apply Z.div_unique with 0%Z; lia.
  - split.
    + destruct r, s; cbn [shr_1 orb shr_m shr_r shr_s]; lra.
    + destruct r, s; reflexivity.
Qed.

(** So do [p] shifts, dividing by [2^p]. *)
Lemma iter_shr_locates (p : positive) :
  forall mrs t,
    (0 <= shr_m mrs)%Z -> locates t mrs ->
    locates (t * bpow (- Zpos p)) (SpecFloat.iter_pos shr_1 p mrs)
    /\ shr_m (SpecFloat.iter_pos shr_1 p mrs) = (shr_m mrs / 2 ^ Zpos p)%Z.
Proof.
  induction p as [p IH|p IH|]; intros mrs t P H; cbn [SpecFloat.iter_pos].
  - destruct (shr_1_locates t mrs P H) as [H1 E1].
    assert (P1 : (0 <= shr_m (shr_1 mrs))%Z)
      by (rewrite E1; apply Z.div_pos; lia).
    destruct (IH _ _ P1 H1) as [H2 E2].
    assert (P2 : (0 <= shr_m (SpecFloat.iter_pos shr_1 p (shr_1 mrs)))%Z)
      by (rewrite E2; apply Z.div_pos; [lia | apply Z.pow_pos_nonneg; lia]).
    destruct (IH _ _ P2 H2) as [H3 E3].
    split.
    + replace (t * bpow (- Zpos p~1))
        with (t / 2 * bpow (- Zpos p) * bpow (- Zpos p)); [exact H3|].
      replace (- Zpos p~1)%Z with (- (1) + (- Zpos p + - Zpos p))%Z by lia.
      rewrite !bpow_add. rewrite (bpow_opp 1), bpow_1. lra.
    + rewrite E3, E2, E1. rewrite !Z.div_div by (try apply Z.pow_pos_nonneg; lia).
      f_equal. replace (Zpos p~1) with (1 + Zpos p + Zpos p)%Z by lia.
      rewrite !Z.pow_add_r by lia. lia.
  - destruct (IH _ _ P H) as [H2 E2].
    assert (P2 : (0 <= shr_m (SpecFloat.iter_pos shr_1 p mrs))%Z)
      by (rewrite E2; apply Z.div_pos; [lia | apply Z.pow_pos_nonneg; lia]).
    destruct (IH _ _ P2 H2) as [H3 E3].
    split.
    + replace (t * bpow (- Zpos p~0))
        with (t * bpow (- Zpos p) * bpow (- Zpos p)); [exact H3|].
      replace (- Zpos p~0)%Z with (- Zpos p + - Zpos p)%Z by lia.
      rewrite !bpow_add. lra.
    + rewrite E3, E2. rewrite !Z.div_div by (try apply Z.pow_pos_nonneg; lia).
      f_equal. replace (Zpos p~0) with (Zpos p + Zpos p)%Z by lia.
      rewrite !Z.pow_add_r by lia. lia.
  - destruct (shr_1_locates t mrs P H) as [H1 E1]. split.
    + replace (t * bpow (- (1))) with (t / 2); [exact H1|].
      rewrite (bpow_opp 1), bpow_1. lra.
    + rewrite E1. reflexivity.
Qed.

Lemma shr_spec mrs e n t :
  (0 <= n)%Z -> (0 <= shr_m mrs)%Z -> locates t mrs ->
  snd (shr mrs e n) = (e + n)%Z
  /\ locates (t * bpow (- n)) (fst (shr mrs e n))
  /\ shr_m (fst (shr mrs e n)) = (shr_m mrs / 2 ^ n)%Z
  /\ (n = 0%Z -> fst (shr mrs e n) = mrs).
Proof.
  intros N P H. destruct n as [|p|p]; try lia; cbn [shr fst snd].
  - split; [lia|]. split; [|split; [|reflexivity]].
    + change (- 0)%Z with 0%Z. rewrite bpow_0, Rmult_1_r. exact H.
    + rewrite Z.pow_0_r, Z.div_1_r. reflexivity.
  - destruct (iter_shr_locates p mrs t P H) as [H1 E1].
    split; [reflexivity|]. split; [exact H1|]. split; [exact E1|]. lia.
Qed.

(** ** Rounding to nearest, ties to even *)

(** Rounding to nearest moves a located value by at most a half, and not at
    all when it is on the integer. *)
Lemma round_spec t mrs :
  (0 <= shr_m mrs)%Z -> locates t mrs ->
  let m'' := round_nearest_even (shr_m mrs) (loc_of_shr_record mrs) in
  (m'' = shr_m mrs \/ m'' = (shr_m mrs + 1)%Z)
  /\ Rabs (IZR m'' - t) <= / 2
  /\ (shr_r mrs = false -> shr_s mrs = false -> IZR m'' = t).
Proof.
  destruct mrs as [m r s]. unfold locates. cbn [shr_m shr_r shr_s].
  intros P H. destruct r, s; cbn [loc_of_shr_record round_nearest_even].
  - split; [now right|]. split; [|discriminate].
    rewrite plus_IZR. apply Rabs_le. lra.
  - destruct (Z.even m).
    + split; [now left|]. split; [|discriminate]. apply Rabs_le. lra.
    + split; [now right|]. split; [|discriminate].
      rewrite plus_IZR. apply Rabs_le. lra.
  - split; [now left|]. split; [|discriminate]. apply Rabs_le. lra.
  - split; [now left|]. split; [|intros _ _; lra]. apply Rabs_le. lra.
Qed.

Lemma fexp64_eq e : fexp prec emax e = Z.max (e - 53) (-1074).
Proof. reflexivity. Qed.

Lemma shr_record_of_loc_m m l : shr_m (shr_record_of_loc m l) = m.
Proof. destruct l as [|[ | | ]]; reflexivity. Qed.

(** Shifted to its exponent [fexp], a mantissa has at most 53 bits, and
    exactly 53 unless the exponent is the smallest one. *)
Lemma shifted_bounds m e :
  (0 <= m)%Z -> (e <= fexp prec emax (Zdigits2 m + e))%Z ->
  let e1 := fexp prec emax (Zdigits2 m + e) in
  (0 <= m / 2 ^ (e1 - e) < 2 ^ 53)%Z
  /\ ((2 ^ 52 <= m / 2 ^ (e1 - e))%Z \/ e1 = (-1074)%Z).
Proof.
  intros P H. cbv zeta. rewrite fexp64_eq in *.
  destruct (Z.eq_dec m 0) as [->|N].
  - simpl Zdigits2 in *. rewrite Z.div_0_l by (apply Z.pow_nonzero; lia).
    split; [lia|]. right. lia.
  - assert (Pm : (0 < m)%Z) by lia.
    pose proof (Zdigits2_bounds m Pm) as [L U].
    pose proof (Zdigits2_pos m Pm) as D.
    set (d := Zdigits2 m) in *.
    set (e1 := Z.max (d + e - 53) (-1074)) in *.
    assert (Hn : (0 <= e1 - e)%Z) by lia.
    assert (Pp : (0 < 2 ^ (e1 - e))%Z) by (apply Z.pow_pos_nonneg; lia).
    split; [split|].
    + apply Z.div_pos; lia.
    + apply Z.div_lt_upper_bound; [exact Pp|].
      rewrite <- Z.pow_add_r by lia.
      assert (2 ^ d <= 2 ^ (e1 - e + 53))%Z by (apply Z.pow_le_mono_r; lia).
      lia.
    + destruct (Z.eq_dec e1 (-1074)) as [E|E]; [now right|]. left.
      assert (E1 : e1 = (d + e - 53)%Z) by lia.
      apply Z.div_le_lower_bound; [exact Pp|].
      rewrite <- Z.pow_add_r by lia.
      replace (e1 - e + 52)%Z with (d - 1)%Z by lia. exact L.
Qed.

(** A rounded mantissa is renormalized without changing its value: [2^53]
    becomes [2^52] one exponent up, any other stays. *)
Lemma renorm m e1 :
  (0 <= m <= 2 ^ 53)%Z -> (-1074 <= e1)%Z ->
  ((m < 2 ^ 52)%Z -> e1 = (-1074)%Z) ->
  let r := shr_fexp prec emax m e1 loc_Exact in
  (m = 0%Z -> shr_m (fst r) = 0%Z)
  /\ ((0 < m)%Z ->
      (0 < shr_m (fst r))%Z
      /\ IZR (shr_m (fst r)) * bpow (snd r) = IZR m * bpow e1
      /\ (e1 <= snd r <= e1 + 1)%Z).
Proof.
  intros [P U] E S. cbv zeta. unfold shr_fexp. cbn [shr_record_of_loc].
  split.
  - intros ->. rewrite S by reflexivity. reflexivity.
  - intros Pm.
    destruct (Z_lt_le_dec m (2 ^ 52)) as [A|A].
    + rewrite (S A) in *. pose proof (Zdigits2_bounds m Pm) as [L' U'].
      pose proof (Zdigits2_pos m Pm) as D.
      assert (Zdigits2 m <= 52)%Z.
      { destruct (Z_lt_le_dec 52 (Zdigits2 m)); [|lia].
        assert (2 ^ 52 <= 2 ^ (Zdigits2 m - 1))%Z
          by (apply Z.pow_le_mono_r; lia). lia. }
      replace (fexp prec emax (Zdigits2 m + -1074) - -1074)%Z with 0%Z
        by (rewrite fexp64_eq; lia).
      cbn [shr fst snd shr_m]. split; [exact Pm|]. split; [reflexivity | lia].
    + destruct (Z.eq_dec m (2 ^ 53)) as [->|B].
      * replace (Zdigits2 (2 ^ 53)) with 54%Z by reflexivity.
        replace (fexp prec emax (54 + e1) - e1)%Z with 1%Z
          by (rewrite fexp64_eq; lia).
        cbn [shr fst snd SpecFloat.iter_pos].
        replace (shr_1 {| shr_m := 2 ^ 53; shr_r := false; shr_s := false |})
          with {| shr_m := 2 ^ 52; shr_r := false; shr_s := false |}
          by (vm_compute; reflexivity).
        cbn [shr_m]. split; [reflexivity|]. split; [|lia].
        rewrite bpow_succ.
        replace (2 ^ 53)%Z with (2 * 2 ^ 52)%Z by reflexivity.
        rewrite mult_IZR. lra.
      * assert (D : Zdigits2 m = 53%Z)
          by (apply Zdigits2_unique; [split; [exact A | lia] | exact Pm]).
        rewrite D.
        replace (fexp prec emax (53 + e1) - e1)%Z with 0%Z
          by (rewrite fexp64_eq; lia).
        cbn [shr fst snd shr_m]. split; [exact Pm|].
        split; [reflexivity | lia].
Qed.

Lemma scaled_error (k : Z) (x : R) (e : Z) (b : R) :
  Rabs (IZR k - x * bpow (- e)) <= b ->
  Rabs (IZR k * bpow e - x) <= b * bpow e.
Proof.
  intros H. pose proof (bpow_pos e) as P.
  replace (IZR k * bpow e - x) with ((IZR k - x * bpow (- e)) * bpow e).
  - rewrite Rabs_mult, (Rabs_pos_eq (bpow e)) by lra.
    apply Rmult_le_compat_r; lra.
  - rewrite bpow_opp. field. lra.
Qed.

(** ** Rounding a located value *)

(** [binary_round_aux] on a value [x] located at [m * 2^e]: the result is an
    infinity only for [x >= 2^1023]; otherwise it is within half a unit of
    the exponent [e1] it is rounded at, a relative error of at most [2^-53]
    unless [e1] is the smallest exponent, and it is [x] itself when [x] is
    the integer [m] at that exponent. *)
Lemma round_aux_spec sx m e l x :
  (0 <= m)%Z ->
  locates (x * bpow (- e)) (shr_record_of_loc m l) ->
  (e <= fexp prec emax (Zdigits2 m + e))%Z ->
  let e1 := fexp prec emax (Zdigits2 m + e) in
  let r := binary_round_aux prec emax sx m e l in
  (r = S754_infinity sx /\ bpow 1023 <= x)
  \/ ((r = S754_zero sx \/ exists mr er, r = S754_finite sx mr er)
      /\ Rabs (SFmag r - x) <= / 2 * bpow e1
      /\ (e1 = (-1074)%Z \/ bpow (e1 + 52) <= x)
      /\ (l = loc_Exact -> e1 = e -> SFmag r = x)).
Proof.
  intros P H E. cbv zeta.
  set (e1 := fexp prec emax (Zdigits2 m + e)) in *.
  assert (Emin : (-1074 <= e1)%Z) by (unfold e1; rewrite fexp64_eq; lia).
  destruct (shr_spec (shr_record_of_loc m l) e (e1 - e) (x * bpow (- e)))
    as [E1 [L1 [M1 X1]]]; [lia | rewrite shr_record_of_loc_m; exact P
                           | exact H |].
  rewrite shr_record_of_loc_m in M1.
  destruct (shifted_bounds m e P E) as [[B0 B1] B2]. fold e1 in B0, B1, B2.
  remember (binary_round_aux prec emax sx m e l) as r eqn:Er.
  unfold binary_round_aux in Er.
  destruct (shr_fexp prec emax m e l) as [mrs' e'] eqn:S1.
  unfold shr_fexp in S1. fold e1 in S1. rewrite S1 in E1, L1, M1, X1.
  cbn [fst snd] in *.
  assert (Ee : e' = e1) by lia. clear E1. subst e'.
  assert (L1' : locates (x * bpow (- e1)) mrs').
  { replace (x * bpow (- e1)) with (x * bpow (- e) * bpow (- (e1 - e)));
      [exact L1|].
    rewrite Rmult_assoc, <- bpow_add. f_equal. f_equal. lia. }
  rewrite <- M1 in B0, B1, B2.
  destruct (round_spec _ _ B0 L1') as [R1 [R2 R3]].
  set (m'' := round_nearest_even (shr_m mrs') (loc_of_shr_record mrs')) in *.
  pose proof (locates_bounds _ _ L1') as [Lo Hi].
  assert (Big : e1 = (-1074)%Z \/ bpow (e1 + 52) <= x).
  { destruct B2 as [B2|B2]; [right | now left].
    apply IZR_le in B2. rewrite <- bpow_IZR in B2 by lia.
    rewrite bpow_add, (Rmult_comm (bpow e1)).
    pose proof (bpow_pos e1) as Pe.
    apply Rmult_le_reg_r with (bpow (- e1)); [apply bpow_pos|].
    rewrite Rmult_assoc, <- bpow_add, Z.add_opp_diag_r, bpow_0. lra. }
  destruct (renorm m'' e1) as [Z0 Z1]; [lia | exact Emin | |].
  { intros Hm. destruct B2 as [B2|B2]; [lia | exact B2]. }
  destruct (shr_fexp prec emax m'' e1 loc_Exact) as [mrs'' e''] eqn:S2.
  cbn [fst snd] in *.
  pose proof (scaled_error m'' x e1 (/ 2) R2) as Err.
  assert (Ex : l = loc_Exact -> e1 = e -> IZR m'' * bpow e1 = x).
  { intros -> Eq1. rewrite X1 in R3 by lia.
    cbn [shr_record_of_loc shr_r shr_s] in R3.
    rewrite R3 by reflexivity. rewrite Rmult_assoc, <- bpow_add.
    rewrite Z.add_opp_diag_l, bpow_0. lra. }
  destruct (Z.eq_dec m'' 0) as [Zm|Nm].
  - rewrite (Z0 Zm) in Er. subst r. right. split; [now left|]. cbn [SFmag].
    rewrite Zm in Err, Ex. rewrite Rmult_0_l in Err, Ex.
    split; [exact Err|]. split; [exact Big | exact Ex].
  - destruct Z1 as [Z1 [Z2 Z3]]; [lia|].
    destruct (shr_m mrs'') as [|mr|mr] eqn:Sm; try lia.
    destruct (Z.leb_spec e'' (emax - prec)) as [Le|Le]; subst r.
    + right. split; [right; exists mr, e''; reflexivity|].
      cbn [SFmag]. rewrite Z2.
      split; [exact Err|]. split; [exact Big | exact Ex].
    + left. split; [reflexivity|].
      change (emax - prec)%Z with 971%Z in Le.
      destruct Big as [Big|Big]; [lia|].
      apply Rle_trans with (bpow (e1 + 52)); [apply bpow_le; lia | exact Big].
Qed.

(** ** Canonical mantissas *)

Lemma valid_finite s m e :
  valid_binary (S754_finite s m e) = true ->
  (-1074 <= e <= 971)%Z
  /\ fexp prec emax (Zpos (digits2_pos m) + e) = e
  /\ (Zpos (digits2_pos m) <= 53)%Z.
Proof.
  unfold valid_binary, bounded, canonical_mantissa. intros H.
  apply andb_true_iff in H. destruct H as [H1 H2].
  apply Z.eqb_eq in H1. apply Z.leb_le in H2.
  change (emax - prec)%Z with 971%Z in H2.
  pose proof H1 as H3. rewrite fexp64_eq in H3. lia.
Qed.

Lemma iter_xO (m d : positive) :
  Zpos (Pos.iter xO m d) = (Zpos m * 2 ^ Zpos d)%Z.
Proof.
  induction d as [|d IH] using Pos.peano_ind.
  - simpl. lia.
  - rewrite Pos.iter_succ, Pos2Z.inj_xO, IH, Pos2Z.inj_succ.
    unfold Z.succ. rewrite Z.pow_add_r by lia. lia.
Qed.

Lemma shl_align_spec mx ex ez :
  (ez <= ex)%Z ->
  snd (shl_align mx ex ez) = ez
  /\ Zpos (fst (shl_align mx ex ez)) = (Zpos mx * 2 ^ (ex - ez))%Z.
Proof.
  intros H. unfold shl_align. destruct (ez - ex)%Z as [|d|d] eqn:E; try lia;
    cbn [fst snd].
  - assert (ex = ez) by lia. subst. rewrite Z.sub_diag. simpl. lia.
  - split; [reflexivity|]. rewrite iter_xO. f_equal. f_equal. lia.
Qed.

Lemma shl_align_keep mx ex ez :
  (ex <= ez)%Z -> shl_align mx ex ez = (mx, ex).
Proof.
  intros H. unfold shl_align. destruct (ez - ex)%Z eqn:E; try lia; reflexivity.
Qed.

Lemma Zdigits2_shift (m k : Z) :
  (0 < m)%Z -> (0 <= k)%Z -> Zdigits2 (m * 2 ^ k) = (Zdigits2 m + k)%Z.
Proof.
  intros P K. pose proof (Zdigits2_bounds m P) as [L U].
  pose proof (Zdigits2_pos m P) as D.
  assert (Pk : (0 < 2 ^ k)%Z) by (apply Z.pow_pos_nonneg; lia).
  apply Zdigits2_unique; [|nia].
  replace (Zdigits2 m + k - 1)%Z with (Zdigits2 m - 1 + k)%Z by lia.
  rewrite !Z.pow_add_r by lia. nia.
Qed.

(** ** Rounding an integer multiple of a power of two *)

(** A positive integer multiple of a power of two no smaller than [2^-1074]
    is rounded to a finite value of the same sign within a relative error
    of [2^-53], or overflows. *)
Lemma binary_round_spec sx (m : positive) (e : Z) :
  (-1074 <= e)%Z ->
  let x := IZR (Zpos m) * bpow e in
  let r := binary_round prec emax sx m e in
  (r = S754_infinity sx /\ bpow 1023 <= x)
  \/ ((exists mr er, r = S754_finite sx mr er)
      /\ Rabs (SFmag r - x) <= bpow (-53) * x).
Proof.
  intros He. cbv zeta. unfold binary_round.
  set (F := fexp prec emax (Zpos (digits2_pos m) + e)).
  assert (HF : (-1074 <= F)%Z) by (unfold F; rewrite fexp64_eq; lia).
  pose proof (bpow_pos e) as Pe.
  assert (Px : 0 < IZR (Zpos m) * bpow e).
  { apply Rmult_lt_0_compat; [apply IZR_lt; lia | exact Pe]. }
  destruct (Z_lt_le_dec F e) as [A|A].
  - destruct (shl_align_spec m e F) as [S1 S2]; [lia|].
    destruct (shl_align m e F) as [mz ez]. cbn [fst snd] in *. subst ez.
    assert (D : Zdigits2 (Zpos mz) = (Zpos (digits2_pos m) + (e - F))%Z).
    { rewrite S2. apply (Zdigits2_shift (Zpos m)); lia. }
    assert (Ef : fexp prec emax (Zdigits2 (Zpos mz) + F) = F).
    { rewrite D. unfold F. f_equal. lia. }
    assert (Ex : IZR (Zpos mz) * bpow F = IZR (Zpos m) * bpow e).
    { rewrite S2, mult_IZR, <- bpow_IZR by lia.
      rewrite Rmult_assoc, <- bpow_add. f_equal. f_equal. lia. }
    destruct (round_aux_spec sx (Zpos mz) F loc_Exact (IZR (Zpos m) * bpow e))
      as [[R1 R2]|[R1 [R2 [R3 R4]]]].
    + lia.
    + unfold locates. cbn [shr_record_of_loc shr_r shr_s shr_m].
      rewrite <- Ex, Rmult_assoc, <- bpow_add, Z.add_opp_diag_r, bpow_0. lra.
    + rewrite Ef. lia.
    + left. split; assumption.
    + right. rewrite Ef in *. pose proof (R4 eq_refl eq_refl) as V.
      split.
      * destruct R1 as [R1|R1]; [|exact R1].
        rewrite R1 in V. cbn [SFmag] in V. exfalso. lra.
      * rewrite V, Rminus_diag, Rabs_R0.
        apply Rmult_le_pos; [apply Rlt_le, bpow_pos | lra].
  - rewrite (shl_align_keep m e F A).
    destruct (round_aux_spec sx (Zpos m) e loc_Exact (IZR (Zpos m) * bpow e))
      as [[R1 R2]|[R1 [R2 [R3 R4]]]].
    + lia.
    + unfold locates. cbn [shr_record_of_loc shr_r shr_s shr_m].
      rewrite Rmult_assoc, <- bpow_add, Z.add_opp_diag_r, bpow_0. lra.
    + exact A.
    + left. split; assumption.
    + right.
      change (fexp prec emax (Zdigits2 (Zpos m) + e)) with F in R2, R3, R4.
      assert (Hx : Rabs (SFmag (binary_round_aux prec emax sx (Zpos m) e
                                  loc_Exact)
                         - IZR (Zpos m) * bpow e)
                   <= bpow (-53) * (IZR (Zpos m) * bpow e)).
      { destruct R3 as [R3|R3].
        - assert (F = e) by lia. rewrite (R4 eq_refl H).
          rewrite Rminus_diag, Rabs_R0.
          apply Rmult_le_pos; [apply Rlt_le, bpow_pos | lra].
        - eapply Rle_trans; [exact R2|].
          replace (/ 2 * bpow F) with (bpow (-53) * bpow (F + 52)).
          + apply Rmult_le_compat_l; [apply Rlt_le, bpow_pos | exact R3].
          + rewrite <- bpow_add. replace (-53 + (F + 52))%Z with (-(1) + F)%Z
              by lia.
            rewrite bpow_add, (bpow_opp 1), bpow_1. reflexivity. }
      split; [|exact Hx].
      destruct R1 as [R1|R1]; [|exact R1].
      rewrite R1 in Hx. cbn [SFmag] in Hx.
      assert (bpow (-53) < 1).
      { change 1 with (bpow 0). apply bpow_lt. lia. }
      rewrite Rabs_left1 in Hx by lra. exfalso. nra.
Qed.

(** ** The sum of two positive values *)

(** The sum of two positive finite values is within a relative error of
    [2^-53] of their exact sum, or overflows. *)
Lemma SFadd_pos mx ex my ey :
  valid_binary (S754_finite false mx ex) = true ->
  valid_binary (S754_finite false my ey) = true ->
  let x := IZR (Zpos mx) * bpow ex + IZR (Zpos my) * bpow ey in
  let r := SFadd prec emax (S754_finite false mx ex) (S754_finite false my ey) in
  (r = S754_infinity false /\ bpow 1023 <= x)
  \/ ((exists mr er, r = S754_finite false mr er)
      /\ Rabs (SFmag r - x) <= bpow (-53) * x).
Proof.
  intros Vx Vy. cbv zeta.
  destruct (valid_finite _ _ _ Vx) as [[Lx _] _].
  destruct (valid_finite _ _ _ Vy) as [[Ly _] _].
  unfold SFadd. cbn [cond_Zopp].
  set (ez := Z.min ex ey).
  destruct (shl_align_spec mx ex ez) as [_ Sx]; [lia|].
  destruct (shl_align_spec my ey ez) as [_ Sy]; [lia|].
  set (ax := fst (shl_align mx ex ez)) in *.
  set (ay := fst (shl_align my ey ez)) in *.
  cbn [Z.add binary_normalize].
  assert (E : IZR (Zpos (ax + ay)) * bpow ez
              = IZR (Zpos mx) * bpow ex + IZR (Zpos my) * bpow ey).
  { rewrite Pos2Z.inj_add, plus_IZR, Sx, Sy, !mult_IZR.
    rewrite <- !bpow_IZR by lia.
    rewrite Rmult_plus_distr_r, !Rmult_assoc, <- !bpow_add.
    f_equal; f_equal; f_equal; lia. }
  rewrite <- E. apply binary_round_spec. lia.
Qed.

(** ** The quotient of two positive values *)

(** The location [SFdiv] computes for a remainder [k] of a division by [n]. *)
Lemma new_location_spec (n k q : Z) :
  (0 < n)%Z -> (0 <= k < n)%Z ->
  locates (IZR q + IZR k / IZR n) (shr_record_of_loc q (new_location n k)).
Proof.
  intros Pn [K0 K1].
  assert (Rn : 0 < IZR n) by (apply IZR_lt; lia).
  set (y := IZR k / IZR n).
  assert (Ey : y * IZR n = IZR k) by (unfold y; field; lra).
  assert (Y0 : (0 < k)%Z -> 0 < y).
  { intros H. apply IZR_lt in H. unfold y. apply Rdiv_lt_0_compat; lra. }
  assert (Y1 : y < 1).
  { apply IZR_lt in K1. nra. }
  unfold new_location. destruct (Z.even n) eqn:Ev.
  - unfold new_location_even. destruct (Z.eqb_spec k 0) as [->|Nk].
    + unfold locates, y. cbn [shr_record_of_loc shr_r shr_s shr_m]. lra.
    + destruct (Z.compare_spec (2 * k) n) as [C|C|C];
        unfold locates; cbn [shr_record_of_loc shr_r shr_s shr_m].
      * rewrite <- C in Ey. rewrite mult_IZR in Ey.
        assert (0 < IZR k) by (apply IZR_lt; lia). nra.
      * apply IZR_lt in C. rewrite mult_IZR in C.
        assert (0 < y) by (apply Y0; lia). split; [lra|].
        assert (y < / 2) by nra. lra.
      * apply IZR_lt in C. rewrite mult_IZR in C.
        assert (/ 2 < y) by nra. lra.
  - unfold new_location_odd. destruct (Z.eqb_spec k 0) as [->|Nk].
    + unfold locates, y. cbn [shr_record_of_loc shr_r shr_s shr_m]. lra.
    + assert (Od : Z.odd n = true) by (rewrite <- Z.negb_even, Ev; reflexivity).
      apply Z.odd_spec in Od. destruct Od as [h Od].
      destruct (Z.compare_spec (2 * k + 1) n) as [C|C|C];
        unfold locates; cbn [shr_record_of_loc shr_r shr_s shr_m].
      * assert (C' : (2 * k < n)%Z) by lia.
        apply IZR_lt in C'. rewrite mult_IZR in C'.
        assert (0 < y) by (apply Y0; lia). split; [lra|].
        assert (y < / 2) by nra. lra.
      * assert (C' : (2 * k < n)%Z) by lia.
        apply IZR_lt in C'. rewrite mult_IZR in C'.
        assert (0 < y) by (apply Y0; lia). split; [lra|].
        assert (y < / 2) by nra. lra.
      * assert (C' : (n < 2 * k)%Z) by lia.
        apply IZR_lt in C'. rewrite mult_IZR in C'.
        assert (/ 2 < y) by nra. lra.
Qed.

Lemma fexp_mono a b : (a <= b)%Z -> (fexp prec emax a <= fexp prec emax b)%Z.
Proof. intros H. rewrite !fexp64_eq. lia. Qed.

(** The quotient of two positive finite values is within a relative error of
    [2^-53], and [2^-1075] where it underflows, of their exact quotient, or
    overflows. *)
Lemma SFdiv_pos mx ex my ey :
  valid_binary (S754_finite false mx ex) = true ->
  valid_binary (S754_finite false my ey) = true ->
  let x := (IZR (Zpos mx) * bpow ex) / (IZR (Zpos my) * bpow ey) in
  let r := SFdiv prec emax (S754_finite false mx ex) (S754_finite false my ey) in
  (r = S754_infinity false /\ bpow 1023 <= x)
  \/ ((r = S754_zero false \/ exists mr er, r = S754_finite false mr er)
      /\ Rabs (SFmag r - x) <= bpow (-53) * x + bpow (-1075)).
Proof.
  intros Vx Vy. cbv zeta.
  unfold SFdiv, SFdiv_core_binary. cbn [xorb Zdigits2].
  set (d1 := Zpos (digits2_pos mx)). set (d2 := Zpos (digits2_pos my)).
  set (e' := Z.min (fexp prec emax (d1 + ex - (d2 + ey))) (ex - ey)).
  remember (ex - ey - e')%Z as s eqn:Es0.
  assert (Hs : (0 <= s)%Z) by (unfold e' in Es0; lia).
  set (m' := match s with
             | Z0 => Zpos mx
             | Zpos _ => Z.shiftl (Zpos mx) s
             | Zneg _ => 0%Z
             end).
  assert (Em : m' = (Zpos mx * 2 ^ s)%Z).
  { unfold m'. clear Es0. destruct s as [|p|p]; try lia.
    rewrite Z.shiftl_mul_pow2 by lia. reflexivity. }
  clearbody m'.
  assert (Pm : (0 < m')%Z).
  { rewrite Em. apply Z.mul_pos_pos; [lia | apply Z.pow_pos_nonneg; lia]. }
  pose proof (Z_div_mod m' (Zpos my) ltac:(lia)) as DM.
  destruct (Z.div_eucl m' (Zpos my)) as [q k].
  destruct DM as [E0 K].
  assert (Pq : (0 <= q)%Z) by nia.
  pose proof (bpow_pos ex) as Pex. pose proof (bpow_pos ey) as Pey.
  pose proof (bpow_pos e') as Pe'.
  assert (Rmx : 0 < IZR (Zpos mx)) by (apply IZR_lt; lia).
  assert (Rmy : 0 < IZR (Zpos my)) by (apply IZR_lt; lia).
  set (x := IZR (Zpos mx) * bpow ex / (IZR (Zpos my) * bpow ey)).
  assert (Px : 0 < x).
  { unfold x. apply Rdiv_lt_0_compat; apply Rmult_lt_0_compat; assumption. }
  assert (Ex : x * bpow (- e') = IZR q + IZR k / IZR (Zpos my)).
  { replace (IZR q + IZR k / IZR (Zpos my))
      with (IZR m' / IZR (Zpos my))
      by (rewrite E0, plus_IZR, mult_IZR; field; lra).
    rewrite Em, mult_IZR, <- bpow_IZR by lia. unfold x.
    replace s with (ex + - ey + - e')%Z by lia.
    rewrite !bpow_add, !bpow_opp. field. lra. }
  pose proof (digits2_pos_bounds mx) as [L1 U1].
  pose proof (digits2_pos_bounds my) as [L2 U2].
  fold d1 in L1, U1. fold d2 in L2, U2.
  assert (Pre : (e' <= fexp prec emax (Zdigits2 q + e'))%Z).
  { destruct (Z.eq_dec q 0) as [->|Nq].
    - simpl Zdigits2. rewrite fexp64_eq.
      assert (Lt : (Zpos mx * 2 ^ s < Zpos my)%Z) by lia.
      assert (e' <= -1074)%Z; [|lia].
      assert (Ps : (0 < 2 ^ s)%Z) by (apply Z.pow_pos_nonneg; lia).
      assert (d1 - 1 + s < d2)%Z.
      { destruct (Z_lt_le_dec (d1 - 1 + s) d2) as [?|Ge]; [assumption|].
        assert (2 ^ d2 <= 2 ^ (d1 - 1 + s))%Z
          by (apply Z.pow_le_mono_r; lia).
        rewrite Z.pow_add_r in H by lia. nia. }
      unfold e' in *. rewrite fexp64_eq in *. lia.
    - assert (Pq' : (0 < q)%Z) by lia.
      apply Z.le_trans with (fexp prec emax (d1 + ex - (d2 + ey)));
        [unfold e'; lia|].
      apply fexp_mono.
      pose proof (Zdigits2_bounds q Pq') as [Lq Uq].
      pose proof (Zdigits2_pos q Pq') as Dq.
      assert (d1 + s - d2 <= Zdigits2 q)%Z; [|lia].
      destruct (Z_lt_le_dec (d1 + s - d2) 1) as [?|Ge]; [lia|].
      assert (Q : (2 ^ (d1 + s - d2 - 1) <= q)%Z).
      { assert (2 ^ (d1 + s - d2 - 1) * Zpos my <= m')%Z.
        { rewrite Em.
          apply Z.le_trans with (2 ^ (d1 + s - d2 - 1) * 2 ^ d2)%Z.
          - apply Z.mul_le_mono_nonneg_l; [apply Z.pow_nonneg; lia | lia].
          - rewrite <- Z.pow_add_r by lia.
            replace (d1 + s - d2 - 1 + d2)%Z with (d1 - 1 + s)%Z by lia.
            rewrite Z.pow_add_r by lia.
            apply Z.mul_le_mono_nonneg_r; [apply Z.pow_nonneg; lia | lia]. }
        assert (0 < 2 ^ (d1 + s - d2 - 1))%Z by (apply Z.pow_pos_nonneg; lia).
        nia. }
      destruct (Z_lt_le_dec (Zdigits2 q) (d1 + s - d2)) as [Lt|?]; [|lia].
      assert (2 ^ Zdigits2 q <= 2 ^ (d1 + s - d2 - 1))%Z
        by (apply Z.pow_le_mono_r; lia).
      lia. }
  destruct (round_aux_spec false q e' (new_location (Zpos my) k) x Pq)
    as [[R1 R2]|[R1 [R2 [R3 _]]]].
  - rewrite Ex. apply new_location_spec; lia.
  - exact Pre.
  - left. split; assumption.
  - right. split; [exact R1|].
    eapply Rle_trans; [exact R2|].
    set (e1 := fexp prec emax (Zdigits2 q + e')) in *.
    pose proof (bpow_pos (-53)) as P53. pose proof (bpow_pos (-1075)) as P75.
    assert (Half : / 2 * bpow e1 = bpow (e1 - 1)).
    { replace (e1 - 1)%Z with (-(1) + e1)%Z by lia.
      rewrite bpow_add, (bpow_opp 1), bpow_1. reflexivity. }
    rewrite Half.
    destruct R3 as [R3|R3].
    + rewrite R3. change (-1074 - 1)%Z with (-1075)%Z.
      assert (0 <= bpow (-53) * x) by (apply Rmult_le_pos; lra). lra.
    + replace (e1 - 1)%Z with (-53 + (e1 + 52))%Z by lia.
      rewrite bpow_add.
      assert (bpow (-53) * bpow (e1 + 52) <= bpow (-53) * x)
        by (apply Rmult_le_compat_l; lra).
      lra.
Qed.

(** ** Numbers as real numbers *)

Lemma u_pos : 0 < u.
Proof. apply bpow_pos. Qed.

Lemma eta_pos : 0 < eta.
Proof. apply bpow_pos. Qed.

Lemma toR_nonneg x : nonneg x -> 0 <= toR x.
Proof.
  unfold toR. intros [->|[m [e ->]]]; simpl; [lra|].
  apply Rmult_le_pos; [apply IZR_le; lia | apply Rlt_le, bpow_pos].
Qed.

Lemma toR_positive x : positive_finite x -> 0 < toR x.
Proof.
  unfold toR. intros [m [e ->]]. simpl.
  apply Rmult_lt_0_compat; [apply IZR_lt; lia | apply bpow_pos].
Qed.

Lemma positive_nonneg x : positive_finite x -> nonneg x.
Proof. intros H. right. exact H. Qed.

Lemma nonneg_positive x : nonneg x -> 0 < toR x -> positive_finite x.
Proof.
  intros [E|H] P; [|exact H]. unfold toR in P. rewrite E in P. simpl in P. lra.
Qed.

(** The two results on Numbers. *)
Lemma add_nonneg (x y : float) :
  nonneg x -> nonneg y ->
  (Prim2SF (x + y) = S754_infinity false /\ bpow 1023 <= toR x + toR y)
  \/ (nonneg (x + y)
      /\ Rabs (toR (x + y) - (toR x + toR y)) <= u * (toR x + toR y)).
Proof.
  intros Hx Hy. pose proof (toR_nonneg _ Hx) as Px.
  pose proof (toR_nonneg _ Hy) as Py.
  pose proof (Prim2SF_valid x) as Vx. pose proof (Prim2SF_valid y) as Vy.
  pose proof u_pos as U.
  unfold nonneg, toR in *. rewrite FloatAxioms.add_spec. unfold SF64add.
  destruct Hx as [Ex|[mx [ex Ex]]], Hy as [Ey|[my [ey Ey]]];
    rewrite Ex, Ey in *.
  - right. split; [now left|]. simpl. rewrite Rplus_0_l, Rminus_diag, Rabs_R0.
    lra.
  - right. split; [right; now exists my, ey|]. cbn [SFadd SF2R cond_Zopp] in *.
    rewrite Rplus_0_l, Rminus_diag, Rabs_R0. nra.
  - right. split; [right; now exists mx, ex|]. cbn [SFadd SF2R cond_Zopp] in *.
    rewrite Rplus_0_r, Rminus_diag, Rabs_R0. nra.
  - destruct (SFadd_pos mx ex my ey Vx Vy) as [[R1 R2]|[[mr [er R1]] R2]].
    + left. split; [exact R1 | exact R2].
    + right. rewrite R1 in *. split; [right; now exists mr, er|].
      exact R2.
Qed.

Lemma add_infinity (x y : float) :
  Prim2SF x = S754_infinity false -> nonneg y ->
  Prim2SF (x + y) = S754_infinity false.
Proof.
  intros Ex Hy. rewrite FloatAxioms.add_spec. unfold SF64add. rewrite Ex.
  destruct Hy as [->|[m [e ->]]]; reflexivity.
Qed.

Lemma div_positive (x y : float) :
  positive_finite x -> positive_finite y ->
  (Prim2SF (x / y) = S754_infinity false /\ bpow 1023 <= toR x / toR y)
  \/ (nonneg (x / y)
      /\ Rabs (toR (x / y) - toR x / toR y) <= u * (toR x / toR y) + eta).
Proof.
  intros [mx [ex Ex]] [my [ey Ey]].
  pose proof (Prim2SF_valid x) as Vx. pose proof (Prim2SF_valid y) as Vy.
  unfold nonneg, toR. rewrite FloatAxioms.div_spec. unfold SF64div.
  rewrite Ex, Ey in *.
  destruct (SFdiv_pos mx ex my ey Vx Vy) as [[R1 R2]|[R1 R2]].
  - left. split; [exact R1 | exact R2].
  - right. split; [exact R1|].
    destruct R1 as [R1|[mr [er R1]]]; rewrite R1 in *; exact R2.
Qed.

Lemma Rabs_bounds (a b : R) : Rabs a <= b -> - b <= a <= b.
Proof. unfold Rabs. destruct (Rcase_abs a); lra. Qed.

(** ** Sums in order *)

Lemma sumR_nonneg l : Forall nonneg l -> 0 <= sumR l.
Proof.
  induction 1 as [|x l Hx _ IH]; simpl; [lra|].
  pose proof (toR_nonneg _ Hx). lra.
Qed.

Lemma fold_add_infinity (l : list float) :
  forall a, Prim2SF a = S754_infinity false -> Forall nonneg l ->
            Prim2SF (fold_left PrimFloat.add l a) = S754_infinity false.
Proof.
  induction l as [|x l IH]; intros a Ha Hl; simpl; [exact Ha|].
  inversion Hl as [|? ? Hx Hl']; subst.
  apply IH; [|exact Hl']. now apply add_infinity.
Qed.

Lemma pow_1pu_ge1 k : 1 <= (1 + u) ^ k.
Proof. apply pow_R1_Rle. pose proof u_pos. lra. Qed.

Lemma u_lt_1 : u < 1.
Proof. change 1 with (bpow 0). apply bpow_lt. lia. Qed.

Lemma pow_1mu_le1 k : 0 < (1 - u) ^ k <= 1.
Proof.
  pose proof u_pos. pose proof u_lt_1. split.
  - apply pow_lt. lra.
  - induction k as [|k IH]; simpl; [lra|].
    assert (0 < (1 - u) ^ k) by (apply pow_lt; lra). nra.
Qed.

(** A sum in order of [k] terms that are not negative: each addition costs a
    factor between [1 - u] and [1 + u]. *)
Lemma fold_add_spec (l : list float) :
  forall a, nonneg a -> Forall nonneg l ->
    let r := fold_left PrimFloat.add l a in
    let k := length l in
    (Prim2SF r = S754_infinity false
     /\ bpow 1023 <= (1 + u) ^ k * (toR a + sumR l))
    \/ (nonneg r
        /\ (1 - u) ^ k * (toR a + sumR l) <= toR r
           <= (1 + u) ^ k * (toR a + sumR l)).
Proof.
  pose proof u_pos as U. pose proof u_lt_1 as U1.
  induction l as [|x l IH]; intros a Ha Hl; cbv zeta.
  - right. simpl. split; [exact Ha|]. lra.
  - inversion Hl as [|? ? Hx Hl']; subst.
    pose proof (toR_nonneg _ Ha) as Pa. pose proof (toR_nonneg _ Hx) as Px.
    pose proof (sumR_nonneg _ Hl') as Ps.
    pose proof (pow_1pu_ge1 (length l)) as G.
    pose proof (pow_1mu_le1 (length l)) as [G0 G1].
    cbn [fold_left length sumR pow].
    destruct (add_nonneg a x Ha Hx) as [[I B]|[N E]].
    + left. split; [apply fold_add_infinity; assumption|].
      eapply Rle_trans; [exact B|].
      assert (C : 1 <= (1 + u) * (1 + u) ^ length l) by nra.
      apply Rle_trans with (1 * (toR a + (toR x + sumR l))); [lra|].
      apply Rmult_le_compat_r; lra.
    + apply Rabs_bounds in E.
      pose proof (toR_nonneg _ N) as Pn.
      destruct (IH (a + x)%float N Hl') as [[I B]|[N' [Lo Hi]]].
      * left. split; [exact I|].
        eapply Rle_trans; [exact B|].
        rewrite (Rmult_comm (1 + u)), Rmult_assoc.
        apply Rmult_le_compat_l; [lra|]. nra.
      * right. split; [exact N'|]. split.
        -- eapply Rle_trans; [|exact Lo].
           rewrite (Rmult_comm (1 - u)), Rmult_assoc.
           apply Rmult_le_compat_l; [lra|]. nra.
        -- eapply Rle_trans; [exact Hi|].
           rewrite (Rmult_comm (1 + u)), Rmult_assoc.
           apply Rmult_le_compat_l; [lra|]. nra.
Qed.

(** ** Positive Numbers *)

Lemma Prim2SF_zero : Prim2SF 0%float = S754_zero false.
Proof. reflexivity. Qed.

Lemma Prim2SF_infinity : Prim2SF infinity = S754_infinity false.
Proof. reflexivity. Qed.

Lemma ltb_0_cases (x : float) :
  (0 <? x)%float = true ->
  positive_finite x \/ Prim2SF x = S754_infinity false.
Proof.
  rewrite FloatAxioms.ltb_spec, Prim2SF_zero. unfold SFltb, SFcompare, positive_finite.
  destruct (Prim2SF x) as [s|s| |s m e]; try destruct s; try discriminate.
  - intros _. now right.
  - intros _. left. now exists m, e.
Qed.

Lemma is_finite_not_infinity (x : float) :
  is_finite x = true -> Prim2SF x <> S754_infinity false.
Proof.
  unfold is_finite, is_infinity. intros H E.
  rewrite FloatAxioms.eqb_spec, FloatAxioms.abs_spec, E, Prim2SF_infinity in H.
  simpl in H. rewrite orb_true_r in H. discriminate.
Qed.

Lemma nonneg_zero : nonneg 0%float.
Proof. left. exact Prim2SF_zero. Qed.

Lemma nonneg_not_infinity x : nonneg x -> Prim2SF x <> S754_infinity false.
Proof. intros [E|[m [e E]]]; rewrite E; discriminate. Qed.

(** A sum in order that is finite had finite terms. *)
Lemma fold_add_finite (l : list float) :
  forall a,
    nonneg a \/ Prim2SF a = S754_infinity false ->
    Forall (fun x => (0 <? x)%float = true) l ->
    Prim2SF (fold_left PrimFloat.add l a) <> S754_infinity false ->
    nonneg a /\ Forall positive_finite l.
Proof.
  induction l as [|x l IH]; intros a Ha Hl Hr; simpl in Hr.
  - destruct Ha as [Ha|Ha]; [|contradiction]. split; [exact Ha | constructor].
  - inversion Hl as [|? ? Hx Hl']; subst.
    assert (Ha' : nonneg (a + x) \/ Prim2SF (a + x) = S754_infinity false).
    { destruct Ha as [Ha|Ha], (ltb_0_cases x Hx) as [Px|Ix].
      - destruct (add_nonneg a x Ha (positive_nonneg _ Px)) as [[I _]|[N _]];
          [now right | now left].
      - right. rewrite FloatAxioms.add_spec. unfold SF64add. rewrite Ix.
        destruct Ha as [->|[m [e ->]]]; reflexivity.
      - right. apply add_infinity; [exact Ha | now apply positive_nonneg].
      - right. rewrite FloatAxioms.add_spec. unfold SF64add. rewrite Ha, Ix. reflexivity. }
    destruct (IH _ Ha' Hl' Hr) as [N F].
    pose proof (nonneg_not_infinity _ N) as NI.
    destruct Ha as [Ha|Ha].
    + split; [exact Ha|]. constructor; [|exact F].
      destruct (ltb_0_cases x Hx) as [Px|Ix]; [exact Px|].
      elim NI. rewrite FloatAxioms.add_spec. unfold SF64add. rewrite Ix.
      destruct Ha as [->|[m [e ->]]]; reflexivity.
    + elim NI. destruct (ltb_0_cases x Hx) as [Px|Ix].
      * apply add_infinity; [exact Ha | now apply positive_nonneg].
      * rewrite FloatAxioms.add_spec. unfold SF64add. rewrite Ha, Ix. reflexivity.
Qed.

(** ** Powers of [1 + u] and [1 - u] *)

(** [(1 + u)^k <= 1 / (1 - k u)] and [(1 - u)^k >= 1 - k u]. *)
Lemma pow_1pu_bound (k : nat) : (1 + u) ^ k * (1 - INR k * u) <= 1.
Proof.
  pose proof u_pos as U.
  induction k as [|k IH].
  - simpl. lra.
  - rewrite S_INR. cbn [pow].
    assert (P : 0 < (1 + u) ^ k) by (apply pow_lt; lra).
    assert (Q : 0 <= INR k) by apply pos_INR.
    apply Rle_trans with ((1 + u) ^ k * (1 - INR k * u)); [|exact IH].
    replace ((1 + u) * (1 + u) ^ k * (1 - (INR k + 1) * u))
      with ((1 + u) ^ k * ((1 + u) * (1 - (INR k + 1) * u))) by ring.
    apply Rmult_le_compat_l; [lra|]. nra.
Qed.

Lemma pow_1mu_bound (k : nat) : 1 - INR k * u <= (1 - u) ^ k.
Proof.
  pose proof u_pos as U. pose proof u_lt_1 as U1.
  induction k as [|k IH].
  - simpl. lra.
  - rewrite S_INR. cbn [pow].
    assert (Q : 0 <= INR k) by apply pos_INR.
    apply Rle_trans with ((1 - u) * (1 - INR k * u)); [nra|].
    apply Rmult_le_compat_l; lra.
Qed.

Lemma bpow_neg (p : positive) : bpow (Zneg p) = / IZR (2 ^ Zpos p).
Proof.
  change (Zneg p) with (- Zpos p)%Z. rewrite bpow_opp, bpow_IZR by lia.
  reflexivity.
Qed.

Lemma u_value : u = / 9007199254740992.
Proof.
  unfold u. rewrite bpow_neg.
  change (2 ^ 53)%Z with 9007199254740992%Z. reflexivity.
Qed.

Lemma eta_small : eta <= / 1152921504606846976 * u.
Proof.
  unfold eta, u. replace (-1075)%Z with (-1022 + -53)%Z by lia.
  rewrite bpow_add. apply Rmult_le_compat_r; [apply Rlt_le, bpow_pos|].
  apply Rle_trans with (bpow (-60)); [apply bpow_le; lia|].
  rewrite bpow_neg.
  change (2 ^ 60)%Z with 1152921504606846976%Z. lra.
Qed.

Section Bounded.

Variable n : nat.
Hypothesis n_small : (Z.of_nat n < 2 ^ 32)%Z.

Lemma INR_small : INR n * u <= / 2097152.
Proof.
  rewrite INR_IZR_INZ, u_value.
  assert (IZR (Z.of_nat n) <= 4294967296).
  { apply IZR_le. change (2 ^ 32)%Z with 4294967296%Z in n_small. lia. }
  lra.
Qed.

Lemma pow_1pu_small : 1 <= (1 + u) ^ n <= 2097152 / 2097151.
Proof.
  split; [apply pow_1pu_ge1|].
  pose proof (pow_1pu_bound n) as B. pose proof INR_small as S.
  pose proof (pow_1pu_ge1 n) as G. nra.
Qed.

Lemma pow_1mu_small : 2097151 / 2097152 <= (1 - u) ^ n <= 1.
Proof.
  split; [|apply pow_1mu_le1].
  pose proof (pow_1mu_bound n) as B. pose proof INR_small as S. lra.
Qed.

End Bounded.

Lemma bpow_1023_big : 8 <= bpow 1023.
Proof.
  apply Rle_trans with (bpow 3); [|apply bpow_le; lia].
  rewrite bpow_IZR by lia. change (2 ^ 3)%Z with 8%Z. lra.
Qed.

Lemma sumR_positive l : l <> [] -> Forall positive_finite l -> 0 < sumR l.
Proof.
  intros N F. destruct l as [|x l]; [congruence|].
  inversion F as [|? ? Hx Hl]; subst. simpl.
  pose proof (toR_positive _ Hx).
  assert (0 <= sumR l).
  { apply sumR_nonneg. eapply Forall_impl; [|exact Hl].
    intros a. apply positive_nonneg. }
  lra.
Qed.

Lemma sumR_ge_member l x : Forall nonneg l -> In x l -> toR x <= sumR l.
Proof.
  induction 1 as [|y l Hy Hl IH]; intros Hin; [contradiction|]. simpl.
  pose proof (toR_nonneg _ Hy). pose proof (sumR_nonneg _ Hl).
  destruct Hin as [->|Hin]; [lra|]. specialize (IH Hin). lra.
Qed.

(** The quotients of the terms by a total [W], and their exact sum. *)
Lemma quotients_spec (W : float) (l : list float) :
  positive_finite W ->
  Forall (fun w => positive_finite w /\ toR w / toR W < 4) l ->
  Forall nonneg (List.map (fun w => (w / W)%float) l)
  /\ (1 - u) * (sumR l / toR W) - INR (length l) * eta
     <= sumR (List.map (fun w => (w / W)%float) l)
     <= (1 + u) * (sumR l / toR W) + INR (length l) * eta.
Proof.
  intros PW. pose proof (toR_positive _ PW) as RW.
  pose proof u_pos as U. pose proof eta_pos as Et.
  induction 1 as [|w l [Pw Bw] Hl [IH1 IH2]].
  - simpl. split; [constructor|]. lra.
  - cbn [List.map sumR length]. rewrite S_INR.
    destruct (div_positive w W Pw PW) as [[I B]|[N E]].
    + pose proof bpow_1023_big. lra.
    + split; [constructor; assumption|].
      apply Rabs_bounds in E.
      replace ((toR w + sumR l) / toR W)
        with (toR w / toR W + sumR l / toR W) by (field; lra).
      lra.
Qed.

(** The sum in order of the quotients of positive Numbers by their sum in
    order, when there are fewer than [2^32] of them and their sum is finite,
    is within [9.6e-7] of 1. *)
Lemma normalized_sum_bounds (ws : list float) :
  ws <> [] ->
  (Z.of_nat (length ws) < 2 ^ 32)%Z ->
  Forall (fun w => (0 <? w)%float = true) ws ->
  let W := fold_left PrimFloat.add ws 0%float in
  let qs := List.map (fun w => (w / W)%float) ws in
  let S := fold_left PrimFloat.add qs 0%float in
  is_finite W = true ->
  Forall positive_finite ws
  /\ positive_finite W
  /\ Forall nonneg qs
  /\ nonneg S
  /\ Rabs (toR S - 1) <= 96 / 100000000.
Proof.
  intros ws_nonempty ws_length ws_positive W qs S W_finite.
  pose proof u_pos as U. pose proof u_value as Uv.
  pose proof eta_pos as Et. pose proof eta_small as Es.
  pose proof (pow_1pu_small _ ws_length) as [P1 P2].
  pose proof (pow_1mu_small _ ws_length) as [M1 M2].
  pose proof (INR_small _ ws_length) as K.
  set (n := length ws) in *.
  destruct (fold_add_finite ws 0%float) as [_ F];
    [left; exact nonneg_zero | exact ws_positive
     | apply is_finite_not_infinity; exact W_finite |].
  assert (Fn : Forall nonneg ws)
    by (eapply Forall_impl; [|exact F]; intros a; apply positive_nonneg).
  pose proof (sumR_positive ws ws_nonempty F) as Sg.
  destruct (fold_add_spec ws 0%float nonneg_zero Fn) as [[I _]|[NW [Lo Hi]]].
  { elim (is_finite_not_infinity _ W_finite). exact I. }
  fold W in NW, Lo, Hi. fold n in Lo, Hi.
  change (toR 0%float) with 0 in Lo, Hi. rewrite Rplus_0_l in Lo, Hi.
  assert (RW : 0 < toR W) by nra.
  pose proof (nonneg_positive _ NW RW) as PW.
  set (R := sumR ws / toR W).
  assert (ER : R * toR W = sumR ws) by (unfold R; field; lra).
  assert (R0 : 0 < R) by (unfold R; apply Rdiv_lt_0_compat; lra).
  assert (Rhi : R <= 2097152 / 2097151).
  { assert ((1 - u) ^ n * R <= 1).
    { apply Rmult_le_reg_r with (toR W); [exact RW|].
      rewrite Rmult_assoc, ER. lra. }
    nra. }
  assert (Rlo : 2097151 / 2097152 <= R).
  { assert (1 <= (1 + u) ^ n * R).
    { apply Rmult_le_reg_r with (toR W); [exact RW|].
      rewrite Rmult_assoc, ER. lra. }
    nra. }
  destruct (quotients_spec W ws PW) as [Fq [Qlo Qhi]].
  { apply Forall_forall. intros w Hw. split.
    - eapply Forall_forall in F; [exact F | exact Hw].
    - pose proof (sumR_ge_member ws w Fn Hw) as Le.
      assert (toR w / toR W <= R).
      { unfold R. apply Rmult_le_compat_r; [|exact Le].
        apply Rlt_le, Rinv_0_lt_compat, RW. }
      lra. }
  fold qs in Fq, Qlo, Qhi. fold n R in Qlo, Qhi.
  assert (Ke : INR n * eta <= / 1152921504606846976 * / 2097152).
  { assert (0 <= INR n) by apply pos_INR. nra. }
  rewrite Uv in Qlo, Qhi.
  assert (Q1 : 2097151 / 2097152 - / 1000000000000 <= sumR qs) by lra.
  assert (Q2 : sumR qs <= 2097152 / 2097151 + / 1000000000000) by lra.
  assert (Q0 : 0 < sumR qs) by lra.
  destruct (fold_add_spec qs 0%float nonneg_zero Fq) as [[I B]|[NS [SLo SHi]]].
  { exfalso. pose proof bpow_1023_big.
    unfold qs in B. rewrite length_map in B. fold qs n in B.
    change (toR 0%float) with 0 in B. rewrite Rplus_0_l in B.
    assert ((1 + u) ^ n * sumR qs <= 2 * 2) by
      (apply Rmult_le_compat; lra).
    lra. }
  fold S in NS, SLo, SHi. unfold qs in SLo, SHi.
  rewrite length_map in SLo, SHi. fold qs n in SLo, SHi.
  change (toR 0%float) with 0 in SLo, SHi. rewrite Rplus_0_l in SLo, SHi.
  split; [exact F|]. split; [exact PW|]. split; [exact Fq|].
  split; [exact NS|].
  apply Rabs_le. split.
  - apply Rle_trans with ((1 - u) ^ n * sumR qs - 1); [|lra].
    assert (2097151 / 2097152 * (2097151 / 2097152 - / 1000000000000)
            <= (1 - u) ^ n * sumR qs)
      by (apply Rmult_le_compat; lra).
    lra.
  - apply Rle_trans with ((1 + u) ^ n * sumR qs - 1); [lra|].
    assert ((1 + u) ^ n * sumR qs
            <= 2097152 / 2097151 * (2097152 / 2097151 + / 1000000000000))
      by (apply Rmult_le_compat; lra).
    lra.
Qed.

(** ** The order of finite Numbers is the order of their values *)

Lemma valid_mantissa s m e :
  valid_binary (S754_finite s m e) = true ->
  (Zpos m < 2 ^ 53)%Z /\ ((-1074 < e)%Z -> (2 ^ 52 <= Zpos m)%Z).
Proof.
  intros V. destruct (valid_finite _ _ _ V) as [[L U] [F D]].
  pose proof (digits2_pos_bounds m) as [Lo Hi].
  rewrite fexp64_eq in F. split.
  - assert (2 ^ Zpos (digits2_pos m) <= 2 ^ 53)%Z
      by (apply Z.pow_le_mono_r; lia). lia.
  - intros H. assert (E : Zpos (digits2_pos m) = 53%Z) by lia.
    rewrite E in Lo. exact Lo.
Qed.

(** Of two positive values in canonical form, the one with the smaller
    exponent is the smaller. *)
Lemma canonical_lt m1 e1 m2 e2 :
  valid_binary (S754_finite false m1 e1) = true ->
  valid_binary (S754_finite false m2 e2) = true ->
  (e1 < e2)%Z ->
  IZR (Zpos m1) * bpow e1 < IZR (Zpos m2) * bpow e2.
Proof.
  intros V1 V2 H.
  destruct (valid_mantissa _ _ _ V1) as [U1 _].
  destruct (valid_mantissa _ _ _ V2) as [_ L2].
  destruct (valid_finite _ _ _ V1) as [[L1 _] _].
  specialize (L2 ltac:(lia)).
  apply IZR_lt in U1. apply IZR_le in L2.
  rewrite <- bpow_IZR in U1, L2 by lia.
  pose proof (bpow_pos e1) as P1. pose proof (bpow_pos e2) as P2.
  apply Rlt_le_trans with (bpow 53 * bpow e1).
  - apply Rmult_lt_compat_r; assumption.
  - apply Rle_trans with (bpow 52 * bpow e2).
    + rewrite <- !bpow_add. apply bpow_le. lia.
    + apply Rmult_le_compat_r; lra.
Qed.

Lemma compare_pos m1 e1 m2 e2 :
  valid_binary (S754_finite false m1 e1) = true ->
  valid_binary (S754_finite false m2 e2) = true ->
  (match Z.compare e1 e2 with
   | Lt => Lt
   | Gt => Gt
   | Eq => Pos.compare_cont Eq m1 m2
   end = Lt
   <-> IZR (Zpos m1) * bpow e1 < IZR (Zpos m2) * bpow e2).
Proof.
  intros V1 V2. destruct (Z.compare_spec e1 e2) as [E|L|G].
  - subst e2. pose proof (bpow_pos e1) as P.
    change (Pos.compare_cont Eq m1 m2) with (Pos.compare m1 m2).
    rewrite Pos.compare_lt_iff. split.
    + intros H. apply Rmult_lt_compat_r; [exact P|]. apply IZR_lt. lia.
    + intros H. apply Rmult_lt_reg_r in H; [|exact P].
      apply lt_IZR in H. lia.
  - split; [intros _; now apply canonical_lt | reflexivity].
  - split; [discriminate|]. intros H.
    pose proof (canonical_lt _ _ _ _ V2 V1 G). lra.
Qed.

Lemma SF2R_neg m e : SF2R (S754_finite true m e) = - (IZR (Zpos m) * bpow e).
Proof. simpl. rewrite <- Pos2Z.opp_pos, opp_IZR. ring. Qed.

Lemma SF2R_pos m e : SF2R (S754_finite false m e) = IZR (Zpos m) * bpow e.
Proof. reflexivity. Qed.

Lemma mag_pos m e : 0 < IZR (Zpos m) * bpow e.
Proof. apply Rmult_lt_0_compat; [apply IZR_lt; lia | apply bpow_pos]. Qed.

Lemma valid_sign s s' m e :
  valid_binary (S754_finite s m e) = valid_binary (S754_finite s' m e).
Proof. reflexivity. Qed.

(** [x < y] on finite Numbers is the order of their values. *)
Lemma ltb_toR (x y : float) :
  finite x -> finite y -> ((x <? y)%float = true <-> toR x < toR y).
Proof.
  unfold finite, toR. rewrite FloatAxioms.ltb_spec.
  pose proof (Prim2SF_valid x) as Vx. pose proof (Prim2SF_valid y) as Vy.
  destruct (Prim2SF x) as [sx|sx| |sx mx ex]; try contradiction;
    destruct (Prim2SF y) as [sy|sy| |sy my ey]; try contradiction;
    intros _ _; unfold SFltb, SFcompare.
  - simpl. split; [discriminate | lra].
  - pose proof (mag_pos my ey). destruct sy;
      rewrite ?SF2R_neg, ?SF2R_pos; simpl SF2R;
      split; try discriminate; try reflexivity; lra.
  - pose proof (mag_pos mx ex). destruct sx;
      rewrite ?SF2R_neg, ?SF2R_pos; simpl SF2R;
      split; try discriminate; try reflexivity; lra.
  - pose proof (mag_pos mx ex). pose proof (mag_pos my ey).
    destruct sx, sy; rewrite ?SF2R_neg, ?SF2R_pos.
    + rewrite (valid_sign true false) in Vx, Vy.
      pose proof (compare_pos my ey mx ex Vy Vx) as C.
      rewrite (Z.compare_antisym ey ex).
      change (Pos.compare_cont Eq mx my) with (Pos.compare mx my).
      change (Pos.compare_cont Eq my mx) with (Pos.compare my mx) in C.
      rewrite (Pos.compare_antisym my mx).
      destruct (ey ?= ex)%Z; simpl in *;
        try destruct (my ?= mx)%positive; simpl in *;
        split; intros; try discriminate; try reflexivity;
        try (apply Ropp_lt_contravar; apply C; reflexivity);
        try (exfalso;
             assert (IZR (Zpos my) * bpow ey < IZR (Zpos mx) * bpow ex)
               by lra;
             apply C in H2; discriminate).
    + split; [intros _; lra | reflexivity].
    + split; [discriminate | lra].
    + pose proof (compare_pos mx ex my ey Vx Vy) as C.
      destruct (match (ex ?= ey)%Z with
                | Eq => Pos.compare_cont Eq mx my
                | Lt => Lt
                | Gt => Gt
                end);
        split; intros; try discriminate; try reflexivity;
        try (apply C; reflexivity);
        try (apply C in H1; discriminate).
Qed.

(** ** The difference of two finite values *)

(** The difference of two finite values is zero exactly when they are equal,
    and otherwise has the sign of the exact difference and is within a
    relative error of [2^-53] of it, or overflows. *)
Lemma SFsub_finite sx mx ex sy my ey :
  valid_binary (S754_finite sx mx ex) = true ->
  valid_binary (S754_finite sy my ey) = true ->
  let D := SF2R (S754_finite sx mx ex) - SF2R (S754_finite sy my ey) in
  let r := SFsub prec emax (S754_finite sx mx ex) (S754_finite sy my ey) in
  (D = 0 /\ r = S754_zero false)
  \/ (0 < D
      /\ ((r = S754_infinity false /\ bpow 1023 <= D)
          \/ ((exists mr er, r = S754_finite false mr er)
              /\ Rabs (SFmag r - D) <= u * D)))
  \/ (D < 0
      /\ ((r = S754_infinity true /\ bpow 1023 <= - D)
          \/ ((exists mr er, r = S754_finite true mr er)
              /\ Rabs (SFmag r - - D) <= u * - D))).
Proof.
  intros Vx Vy. cbv zeta.
  destruct (valid_finite _ _ _ Vx) as [[Lx _] _].
  destruct (valid_finite _ _ _ Vy) as [[Ly _] _].
  unfold SFsub.
  set (ez := Z.min ex ey).
  destruct (shl_align_spec mx ex ez) as [_ Sx]; [lia|].
  destruct (shl_align_spec my ey ez) as [_ Sy]; [lia|].
  set (ax := fst (shl_align mx ex ez)) in *.
  set (ay := fst (shl_align my ey ez)) in *.
  set (M := (cond_Zopp sx (Zpos ax) - cond_Zopp sy (Zpos ay))%Z).
  assert (E : IZR M * bpow ez
              = SF2R (S754_finite sx mx ex) - SF2R (S754_finite sy my ey)).
  { unfold M. rewrite minus_IZR.
    assert (Ax : IZR (cond_Zopp sx (Zpos ax)) * bpow ez
                 = IZR (cond_Zopp sx (Zpos mx)) * bpow ex).
    { destruct sx; cbn [cond_Zopp]; rewrite ?opp_IZR, Sx, mult_IZR,
        <- bpow_IZR by lia.
      - rewrite Ropp_mult_distr_l_reverse, Ropp_mult_distr_l_reverse.
        f_equal. rewrite Rmult_assoc, <- bpow_add. f_equal. f_equal. lia.
      - rewrite Rmult_assoc, <- bpow_add. f_equal. f_equal. lia. }
    assert (Ay : IZR (cond_Zopp sy (Zpos ay)) * bpow ez
                 = IZR (cond_Zopp sy (Zpos my)) * bpow ey).
    { destruct sy; cbn [cond_Zopp]; rewrite ?opp_IZR, Sy, mult_IZR,
        <- bpow_IZR by lia.
      - rewrite Ropp_mult_distr_l_reverse, Ropp_mult_distr_l_reverse.
        f_equal. rewrite Rmult_assoc, <- bpow_add. f_equal. f_equal. lia.
      - rewrite Rmult_assoc, <- bpow_add. f_equal. f_equal. lia. }
    cbn [SF2R]. rewrite <- Ax, <- Ay. ring. }
  rewrite <- E. clearbody M. pose proof (bpow_pos ez) as Pz.
  destruct M as [|p|p]; cbn [binary_normalize].
  - left. split; [simpl; ring | reflexivity].
  - right. left. split; [apply mag_pos|].
    destruct (binary_round_spec false p ez) as [[R1 R2]|[R1 R2]]; [lia| |].
    + left. split; assumption.
    + right. split; assumption.
  - right. right.
    assert (N : - (IZR (Zneg p) * bpow ez) = IZR (Zpos p) * bpow ez).
    { rewrite <- Pos2Z.opp_pos, opp_IZR. ring. }
    rewrite N. split; [pose proof (mag_pos p ez); lra|].
    destruct (binary_round_spec true p ez) as [[R1 R2]|[R1 R2]]; [lia| |].
    + left. split; assumption.
    + right. split; assumption.
Qed.

(** ** [b - a > 0] is [b > a] *)

Lemma SFltb_finite sx mx ex sy my ey :
  valid_binary (S754_finite sx mx ex) = true ->
  valid_binary (S754_finite sy my ey) = true ->
  (SFltb (S754_finite sx mx ex) (S754_finite sy my ey) = true
   <-> SF2R (S754_finite sx mx ex) < SF2R (S754_finite sy my ey)).
Proof.
  intros Vx Vy.
  pose proof (ltb_toR (SF2Prim (S754_finite sx mx ex))
                (SF2Prim (S754_finite sy my ey))) as T.
  unfold finite, toR in T. rewrite FloatAxioms.ltb_spec in T.
  rewrite !Prim2SF_SF2Prim in T by assumption.
  apply T; exact I.
Qed.

Lemma SFsub_sign (x y : spec_float) :
  valid_binary x = true -> valid_binary y = true ->
  x <> S754_nan -> y <> S754_nan ->
  SFltb (S754_zero false) (SFsub prec emax x y) = SFltb y x.
Proof.
  intros Vx Vy Nx Ny.
  destruct x as [sx|sx| |sx mx ex], y as [sy|sy| |sy my ey];
    try congruence;
    try (destruct sx, sy; reflexivity);
    try (destruct sx; reflexivity); try (destruct sy; reflexivity).
  pose proof (SFltb_finite sy my ey sx mx ex Vy Vx) as T.
  destruct (SFsub_finite sx mx ex sy my ey Vx Vy)
    as [[D ->]|[[D [[-> _]|[[mr [er ->]] _]]]|[D [[-> _]|[[mr [er ->]] _]]]]].
  - destruct (SFltb (S754_finite sy my ey) (S754_finite sx mx ex));
      [|reflexivity].
    assert (SF2R (S754_finite sy my ey) < SF2R (S754_finite sx mx ex))
      by (apply T; reflexivity).
    lra.
  - symmetry. apply T. lra.
  - symmetry. apply T. lra.
  - destruct (SFltb (S754_finite sy my ey) (S754_finite sx mx ex));
      [|reflexivity].
    assert (SF2R (S754_finite sy my ey) < SF2R (S754_finite sx mx ex))
      by (apply T; reflexivity).
    lra.
  - destruct (SFltb (S754_finite sy my ey) (S754_finite sx mx ex));
      [|reflexivity].
    assert (SF2R (S754_finite sy my ey) < SF2R (S754_finite sx mx ex))
      by (apply T; reflexivity).
    lra.
Qed.

(** The comparator of a numeric sort: for Numbers that are not [NaN],
    [b - a > 0] exactly when [a < b]. *)
Lemma gt_sub_zero (a b : float) :
  is_nan a = false -> is_nan b = false ->
  (0 <? b - a)%float = (a <? b)%float.
Proof.
  intros Na Nb.
  rewrite !FloatAxioms.ltb_spec, FloatAxioms.sub_spec, Prim2SF_zero.
  apply SFsub_sign; try apply Prim2SF_valid.
  - intros E. unfold is_nan in Nb. rewrite FloatAxioms.eqb_spec, E in Nb.
    discriminate.
  - intros E. unfold is_nan in Na. rewrite FloatAxioms.eqb_spec, E in Na.
    discriminate.
Qed.

Lemma toR_one : toR 1%float = 1.
Proof.
  unfold toR.
  change (Prim2SF 1%float) with (S754_finite false 4503599627370496 (-52)).
  cbn [SF2R cond_Zopp]. rewrite bpow_neg.
  change (2 ^ 52)%Z with 4503599627370496%Z. field.
Qed.

(** The tolerance [1e-6] as the program has it: a little under a millionth. *)
Lemma tolerance_value :
  SF2R (Prim2SF 1e-6%float) = 4722366482869645 / 4722366482869645213696.
Proof.
  change (Prim2SF 1e-6%float)
    with (S754_finite false 4722366482869645 (-72)).
  cbn [SF2R cond_Zopp]. rewrite bpow_neg.
  change (2 ^ 72)%Z with 4722366482869645213696%Z. reflexivity.
Qed.

(** [Math.abs(s - 1) < 1e-6] holds of a Number within [9.6e-7] of 1. *)
Lemma near_one_test (s : float) :
  positive_finite s -> Rabs (toR s - 1) <= 96 / 100000000 ->
  (abs (s - 1) <? 1e-6)%float = true.
Proof.
  intros [ms [es Es]] B. apply Rabs_bounds in B.
  pose proof (Prim2SF_valid s) as Vs. pose proof (Prim2SF_valid 1%float) as V1.
  pose proof (Prim2SF_valid (s - 1)%float) as Vr.
  pose proof (Prim2SF_valid 1e-6%float) as Vt.
  pose proof toR_one as One. pose proof tolerance_value as Tol.
  pose proof u_value as Uv.
  unfold toR in B, One. rewrite Es in B, Vs.
  rewrite FloatAxioms.ltb_spec, FloatAxioms.abs_spec.
  rewrite FloatAxioms.sub_spec in *. unfold SF64sub in *. rewrite Es in *.
  revert One V1 Tol Vt Vr.
  change (Prim2SF 1%float) with (S754_finite false 4503599627370496 (-52)).
  change (Prim2SF 1e-6%float)
    with (S754_finite false 4722366482869645 (-72)).
  intros One V1 Tol Vt.
  pose proof bpow_1023_big as Big.
  destruct (SFsub_finite false ms es false 4503599627370496 (-52) Vs V1)
    as [[D ->]|[[D [[-> X]|[[mr [er ->]] X]]]|[D [[-> X]|[[mr [er ->]] X]]]]];
    rewrite One in *; intros Vr.
  - reflexivity.
  - lra.
  - cbn [SFabs]. apply SFltb_finite; [exact Vr | exact Vt|].
    rewrite Tol. cbn [SF2R cond_Zopp SFmag] in *.
    apply Rabs_bounds in X. rewrite Uv in X. lra.
  - lra.
  - cbn [SFabs]. apply SFltb_finite; [exact Vr | exact Vt|].
    rewrite Tol. cbn [SF2R cond_Zopp SFmag] in *.
    apply Rabs_bounds in X. rewrite Uv in X. lra.
Qed.

End Rounding.

(* ================================================================== *)
(** * The quality gate: structure of the report *)

Module GateFacts.

Import QualityGate.
Open Scope float_scope.

Lemma found_penalize t i p : found (penalize t i p) = found t ++ [i].
Proof. reflexivity. Qed.

(** ** The two branches of [qualityGate] *)

Lemma qualityGate_empty (outputText : jsstring) :
  parseResponses outputText = [] ->
  qualityGate outputText =
    mkReport 0
      (found (checkTags outputText (mkTally 1.0 []))
       ++ [mkIssue cat_xml critical MsgNoValidBlocks])
      [] false QUALITY_THRESHOLD.
Proof. unfold qualityGate. intros ->. reflexivity. Qed.

Lemma qualityGate_nonempty (outputText : jsstring) :
  parseResponses outputText <> [] ->
  qualityGate outputText =
    let responses := parseResponses outputText in
    let t := documentChecks responses (checkTags outputText (mkTally 1.0 [])) in
    let composite := compositeScore (total t) (avgResponseScore responses) in
    mkReport (Num.roundFixed3 composite) (found t) responses
      (Num.ge composite QUALITY_THRESHOLD) QUALITY_THRESHOLD.
Proof.
  unfold qualityGate. intros H.
  destruct (parseResponses outputText) as [|r rs]; [congruence | reflexivity].
Qed.

(** ** The document-level checks *)

Lemma checkTags_total outputText t :
  total (checkTags outputText t) =
    if Spec.tagsMismatched outputText then total t - 0.3 else total t.
Proof.
  unfold checkTags, Spec.tagsMismatched.
  destruct (negb _); reflexivity.
Qed.

Lemma checkTags_found outputText t :
  found (checkTags outputText t) =
    found t ++
    (if Spec.tagsMismatched outputText
     then [mkIssue cat_xml critical
             (MsgMismatchedTags (openTags outputText) (closeTags outputText))]
     else []).
Proof.
  unfold checkTags, Spec.tagsMismatched.
  destruct (negb _); simpl; [reflexivity | now rewrite app_nil_r].
Qed.

Lemma checkCount_total responses t :
  total (checkCount responses t) =
    if Nat.ltb (length responses) 3 then total t - 0.15 else total t.
Proof. unfold checkCount. destruct (Nat.ltb _ _); reflexivity. Qed.

Lemma checkProbabilitySum_fires responses t :
  Num.gt (probSum responses) 1.0 = true ->
  checkProbabilitySum responses t =
    penalize t (mkIssue cat_probability critical
                  (MsgProbabilitySum (probSum responses))) 0.2.
Proof. unfold checkProbabilitySum. intros ->. reflexivity. Qed.

Lemma checkProbabilitySum_silent responses t :
  Num.gt (probSum responses) 1.0 = false ->
  checkProbabilitySum responses t = t.
Proof. unfold checkProbabilitySum. intros ->. reflexivity. Qed.

Lemma checkProbabilitySum_total responses t :
  total (checkProbabilitySum responses t) =
    if Num.gt (probSum responses) 1.0 then total t - 0.2 else total t.
Proof.
  unfold checkProbabilitySum. destruct (Num.gt _ _); reflexivity.
Qed.

Lemma pushIssues_fold (l : list Tally) (t : Tally) :
  fold_left (fun acc rs => mkTally (total acc) (found acc ++ found rs)) l t
  = mkTally (total t) (found t ++ concat (List.map found l)).
Proof.
  revert t. induction l as [|x l IH]; intros t; simpl.
  - rewrite app_nil_r. destruct t; reflexivity.
  - rewrite IH. simpl. now rewrite app_assoc.
Qed.

Lemma pushIssues_total responses t :
  total (pushIssues responses t) = total t.
Proof. unfold pushIssues. now rewrite pushIssues_fold. Qed.

Lemma pushIssues_found responses t :
  found (pushIssues responses t) =
    found t ++ concat (List.map found (responseScores responses)).
Proof. unfold pushIssues. now rewrite pushIssues_fold. Qed.

Lemma forallb_map_id {A : Type} (f : A -> bool) (l : list A) :
  forallb (fun b => b) (List.map f l) = negb (existsb (fun x => negb (f x)) l).
Proof.
  induction l as [|x l IH]; simpl; [reflexivity|].
  rewrite IH. destruct (f x); reflexivity.
Qed.

Lemma existsb_map_id {A : Type} (f : A -> bool) (l : list A) :
  existsb (fun b => b) (List.map f l) = existsb f l.
Proof.
  induction l as [|x l IH]; simpl; [reflexivity|]. now rewrite IH.
Qed.

Lemma checkConsistency_cond responses :
  (negb (forallb (fun b => b)
           (List.map (fun r => Regex.test hasScores_re (text r)) responses))
   && existsb (fun b => b)
        (List.map (fun r => Regex.test hasScores_re (text r)) responses))%bool
  = Spec.inconsistent responses.
Proof.
  unfold Spec.inconsistent.
  rewrite forallb_map_id, existsb_map_id, negb_involutive.
  apply andb_comm.
Qed.

Lemma checkConsistency_total responses t :
  total (checkConsistency responses t) =
    if Spec.inconsistent responses then total t - 0.1 else total t.
Proof.
  unfold checkConsistency. cbv zeta. rewrite checkConsistency_cond.
  destruct (Spec.inconsistent responses); reflexivity.
Qed.

Lemma checkConsistency_found responses t :
  found (checkConsistency responses t) =
    found t ++
    (if Spec.inconsistent responses
     then [mkIssue cat_consistency warning MsgInconsistent] else []).
Proof.
  unfold checkConsistency. cbv zeta. rewrite checkConsistency_cond.
  destruct (Spec.inconsistent responses); simpl;
    [reflexivity | now rewrite app_nil_r].
Qed.

Lemma structure_total outputText responses :
  total (checkCount responses (checkTags outputText (mkTally 1.0 [])))
  = Spec.structureScore outputText responses.
Proof.
  rewrite checkCount_total, checkTags_total. reflexivity.
Qed.

(** The [totalScore] of the source once every document-level check has run
    is the document score of the specification. *)
Lemma documentChecks_total outputText responses :
  total (documentChecks responses (checkTags outputText (mkTally 1.0 [])))
  = Spec.documentScore outputText responses.
Proof.
  unfold documentChecks, Spec.documentScore.
  rewrite checkConsistency_total, pushIssues_total,
    checkProbabilitySum_total, structure_total. reflexivity.
Qed.

(** ** The mean of the per-unit scores *)

Lemma mapi_from_length {A B : Type} (f : A -> nat -> B) (l : list A) i :
  length (mapi_from i f l) = length l.
Proof.
  revert i. induction l as [|x l IH]; intros i; simpl; [reflexivity|].
  now rewrite IH.
Qed.

Lemma mapi_from_nth {A B : Type} (f : A -> nat -> B) (l : list A) i k x :
  nth_error l k = Some x ->
  nth_error (mapi_from i f l) k = Some (f x (i + k)%nat).
Proof.
  revert i k. induction l as [|y l IH]; intros i k; destruct k; simpl;
    try discriminate.
  - intros [= ->]. now rewrite Nat.add_0_r.
  - intros H. rewrite (IH (S i) k H). f_equal. f_equal. lia.
Qed.

Lemma fold_add_map {A : Type} (f : A -> float) (l : list A) (a : float) :
  fold_left (fun sum r => sum + f r) l a
  = fold_left (fun x y => x + y) (List.map f l) a.
Proof.
  revert a. induction l as [|x l IH]; intros a; simpl; [reflexivity|].
  apply IH.
Qed.

Lemma avgResponseScore_mean responses :
  avgResponseScore responses = Spec.avgUnitScore responses.
Proof.
  unfold avgResponseScore, Spec.avgUnitScore, responseScores, mapi.
  now rewrite fold_add_map, mapi_from_length.
Qed.

End GateFacts.

(* ================================================================== *)
(** * The unit scorer: what each check appends and takes off *)

Module ScorerFacts.

Import QualityGate GateFacts.
Open Scope float_scope.

Lemma plain_intro c s m :
  c <> cat_injection -> (forall p, m <> MsgProbabilitySum p) ->
  plain (mkIssue c s m).
Proof. intros; split; assumption. Qed.

#[local] Hint Resolve plain_intro : core.

Ltac one_issue :=
  eexists; split;
  [ apply found_penalize
  | constructor; [apply plain_intro; [discriminate | intros; discriminate]
                 | constructor] ].

Ltac no_issue :=
  exists []; split; [now rewrite app_nil_r | constructor].

Lemma checkProbability_found r k t :
  exists extra, found (checkProbability r k t) = found t ++ extra
                /\ Forall plain extra.
Proof.
  unfold checkProbability. cbv zeta.
  destruct (is_nan _ || _ || _)%bool; [one_issue | no_issue].
Qed.

Lemma checkRubric_found r k t :
  exists extra, found (checkRubric r k t) = found t ++ extra
                /\ Forall plain extra.
Proof.
  unfold checkRubric.
  destruct (_ && _)%bool; [one_issue|].
  destruct (_ && _)%bool; [one_issue | no_issue].
Qed.

Lemma checkTotal_found r k t :
  exists extra, found (checkTotal r k t) = found t ++ extra
                /\ Forall plain extra.
Proof.
  unfold checkTotal.
  destruct (_ && _)%bool; [one_issue|].
  destruct (_ && _)%bool; [one_issue | no_issue].
Qed.

Lemma checkPivot_found r k t :
  exists extra, found (checkPivot r k t) = found t ++ extra
                /\ Forall plain extra.
Proof.
  unfold checkPivot. cbv zeta.
  destruct (_ && _)%bool; [one_issue | no_issue].
Qed.

Lemma checkLength_found r k t :
  exists extra, found (checkLength r k t) = found t ++ extra
                /\ Forall plain extra.
Proof.
  unfold checkLength. cbv zeta.
  destruct (Nat.ltb (length (text r)) 100), (Nat.ltb 10000 (length (text r)));
    try one_issue; try no_issue.
  eexists; split.
  - rewrite !found_penalize, <- app_assoc. reflexivity.
  - repeat constructor; try discriminate; intros; discriminate.
Qed.

(** The loop over the patterns appends one injection issue when a pattern
    matches, and nothing otherwise. *)
Lemma checkInjection_match patterns r k t :
  existsb (fun p => Regex.test (snd p) (text r)) patterns = true ->
  exists source,
    In source (List.map fst patterns)
    /\ checkInjection patterns r k t
       = penalize t (mkIssue cat_injection critical (MsgInjection k source))
                  0.4.
Proof.
  induction patterns as [|[source pattern] rest IH]; simpl; [discriminate|].
  destruct (Regex.test pattern (text r)); simpl.
  - intros _. exists source. split; [now left | reflexivity].
  - intros H. destruct (IH H) as [s [Hin Heq]].
    exists s. split; [now right | exact Heq].
Qed.

Lemma checkInjection_none patterns r k t :
  existsb (fun p => Regex.test (snd p) (text r)) patterns = false ->
  checkInjection patterns r k t = t.
Proof.
  induction patterns as [|[source pattern] rest IH]; simpl; [reflexivity|].
  destruct (Regex.test pattern (text r)); simpl; [discriminate | exact IH].
Qed.

Lemma beforeInjection_found r k :
  Forall plain (found (beforeInjection r k)).
Proof.
  unfold beforeInjection.
  destruct (checkProbability_found r k (mkTally 1.0 [])) as [e1 [E1 P1]].
  destruct (checkRubric_found r k (checkProbability r k (mkTally 1.0 [])))
    as [e2 [E2 P2]].
  destruct (checkTotal_found r k
              (checkRubric r k (checkProbability r k (mkTally 1.0 []))))
    as [e3 [E3 P3]].
  destruct (checkPivot_found r k
              (checkTotal r k
                 (checkRubric r k (checkProbability r k (mkTally 1.0 [])))))
    as [e4 [E4 P4]].
  rewrite E4, E3, E2, E1. simpl.
  repeat (apply Forall_app; split); assumption.
Qed.

(** The issues of a unit: plain ones, except the one injection issue. *)
Lemma unclamped_found r k :
  exists extra,
    found (unclamped r k)
    = found (checkInjection injectionPatterns r k (beforeInjection r k))
      ++ extra
    /\ Forall plain extra.
Proof. unfold unclamped. apply checkLength_found. Qed.

Lemma scoreResponse_found r k :
  found (scoreResponse r k) = found (unclamped r k).
Proof. reflexivity. Qed.

(** Every issue of a unit is plain or an injection issue; none is the
    probability-sum issue. *)
Lemma scoreResponse_no_sum r k i :
  In i (found (scoreResponse r k)) ->
  forall p, message i <> MsgProbabilitySum p.
Proof.
  rewrite scoreResponse_found.
  destruct (unclamped_found r k) as [extra [E P]]. rewrite E.
  intros H. apply in_app_or in H. destruct H as [H|H].
  - destruct (existsb (fun p => Regex.test (snd p) (text r)) injectionPatterns)
      eqn:M.
    + destruct (checkInjection_match _ r k (beforeInjection r k) M)
        as [s [_ Heq]].
      rewrite Heq, found_penalize in H. apply in_app_or in H.
      destruct H as [H|[<-|[]]].
      * pose proof (beforeInjection_found r k) as B.
        rewrite Forall_forall in B. apply (B i H).
      * intros; discriminate.
    + rewrite (checkInjection_none _ r k _ M) in H.
      pose proof (beforeInjection_found r k) as B.
      rewrite Forall_forall in B. apply (B i H).
  - rewrite Forall_forall in P. apply (P i H).
Qed.

(** A [NaN] probability is flagged by the first check, and the later checks
    keep the issue. *)
Lemma scoreResponse_nan r k :
  is_nan (probability r) = true ->
  In (mkIssue cat_probability critical
        (MsgProbabilityOutOfRange k (probability r)))
     (found (scoreResponse r k)).
Proof.
  intros H. rewrite scoreResponse_found.
  destruct (unclamped_found r k) as [extra [E _]]. rewrite E.
  apply in_or_app. left.
  assert (B : In (mkIssue cat_probability critical
                    (MsgProbabilityOutOfRange k (probability r)))
                 (found (beforeInjection r k))).
  { unfold beforeInjection.
    destruct (checkRubric_found r k (checkProbability r k (mkTally 1.0 [])))
      as [e2 [E2 _]].
    destruct (checkTotal_found r k
                (checkRubric r k (checkProbability r k (mkTally 1.0 []))))
      as [e3 [E3 _]].
    destruct (checkPivot_found r k
                (checkTotal r k
                   (checkRubric r k (checkProbability r k (mkTally 1.0 [])))))
      as [e4 [E4 _]].
    rewrite E4, E3, E2. unfold checkProbability. cbv zeta. rewrite H.
    simpl. now left. }
  destruct (existsb (fun p => Regex.test (snd p) (text r)) injectionPatterns)
    eqn:M.
  - destruct (checkInjection_match _ r k (beforeInjection r k) M)
      as [s [_ Heq]].
    rewrite Heq, found_penalize. apply in_or_app. now left.
  - now rewrite (checkInjection_none _ r k _ M).
Qed.

End ScorerFacts.

(* ================================================================== *)
(** * The unit scorer: the values the running score takes *)

Module ScoreValues.

Import QualityGate GateFacts ScorerFacts.
Open Scope float_scope.

Lemma checkProbability_steps r k t :
  total (checkProbability r k t) = total t
  \/ total (checkProbability r k t) = total t - 0.3.
Proof.
  unfold checkProbability. cbv zeta.
  destruct (is_nan _ || _ || _)%bool; [right | left]; reflexivity.
Qed.

(** The partial-rubric penalty is taken with between one and nine numbered
    lines found. *)
Lemma checkRubric_steps r k t :
  total (checkRubric r k t) = total t
  \/ total (checkRubric r k t) = total t - 0.05
  \/ exists n, (1 <= n <= 9)%nat
       /\ total (checkRubric r k t)
          = total t - 0.1 * Num.ofZ (10 - Z.of_nat n) / 10.
Proof.
  unfold checkRubric.
  destruct (_ && _)%bool; [right; left; reflexivity|].
  destruct (Nat.ltb (bestScoreCount r) 10 && Nat.ltb 0 (formatA r))%bool
    eqn:E; [|left; reflexivity].
  right; right. exists (formatA r). split; [|reflexivity].
  apply andb_true_iff in E. destruct E as [E1 E2].
  apply Nat.ltb_lt in E1, E2. unfold bestScoreCount in E1. lia.
Qed.

Lemma checkTotal_steps r k t :
  total (checkTotal r k t) = total t
  \/ total (checkTotal r k t) = total t - 0.03
  \/ total (checkTotal r k t) = total t - 0.1.
Proof.
  unfold checkTotal.
  destruct (_ && _)%bool; [right; left; reflexivity|].
  destruct (_ && _)%bool; [right; right | left]; reflexivity.
Qed.

Lemma checkPivot_steps r k t :
  total (checkPivot r k t) = total t
  \/ total (checkPivot r k t) = total t - 0.1.
Proof.
  unfold checkPivot. cbv zeta.
  destruct (_ && _)%bool; [right | left]; reflexivity.
Qed.

Lemma checkLength_steps r k t :
  total (checkLength r k t) = total t
  \/ total (checkLength r k t) = total t - 0.2
  \/ total (checkLength r k t) = total t - 0.05
  \/ total (checkLength r k t) = total t - 0.2 - 0.05.
Proof.
  unfold checkLength. cbv zeta.
  destruct (Nat.ltb (length (text r)) 100), (Nat.ltb 10000 (length (text r)));
    auto.
Qed.

(** Whatever the first four checks left, taking 0.4 off and then running the
    length check gives no more than taking 0.4 off. *)
Lemma length_check_lowers r k t :
  total t = total (beforeInjection r k) - 0.4 ->
  (total (checkLength r k t) <=? total (beforeInjection r k) - 0.4) = true.
Proof.
  intros Ht.
  pose proof (checkLength_steps r k t) as HL. rewrite Ht in HL.
  unfold beforeInjection in *.
  set (t1 := checkProbability r k (mkTally 1.0 [])) in *.
  set (t2 := checkRubric r k t1) in *.
  set (t3 := checkTotal r k t2) in *.
  pose proof (checkPivot_steps r k t3) as H4.
  pose proof (checkTotal_steps r k t2) as H3. fold t3 in H3.
  pose proof (checkRubric_steps r k t1) as H2. fold t2 in H2.
  pose proof (checkProbability_steps r k (mkTally 1.0 [])) as H1.
  fold t1 in H1. cbn [total] in H1.
  assert (H2' :
    total t2 = total t1 \/ total t2 = total t1 - 0.05
    \/ total t2 = total t1 - 0.1 * Num.ofZ (10 - 1) / 10
    \/ total t2 = total t1 - 0.1 * Num.ofZ (10 - 2) / 10
    \/ total t2 = total t1 - 0.1 * Num.ofZ (10 - 3) / 10
    \/ total t2 = total t1 - 0.1 * Num.ofZ (10 - 4) / 10
    \/ total t2 = total t1 - 0.1 * Num.ofZ (10 - 5) / 10
    \/ total t2 = total t1 - 0.1 * Num.ofZ (10 - 6) / 10
    \/ total t2 = total t1 - 0.1 * Num.ofZ (10 - 7) / 10
    \/ total t2 = total t1 - 0.1 * Num.ofZ (10 - 8) / 10
    \/ total t2 = total t1 - 0.1 * Num.ofZ (10 - 9) / 10).
  { destruct H2 as [H2|[H2|[n [Hn H2]]]];
      [left; exact H2 | right; left; exact H2 |].
    right; right.
    assert (Hc : (n = 1 \/ n = 2 \/ n = 3 \/ n = 4 \/ n = 5 \/ n = 6
                  \/ n = 7 \/ n = 8 \/ n = 9)%nat) by lia.
    repeat (destruct Hc as [Hc|Hc]; [subst n; rewrite H2; tauto|]).
    subst n; rewrite H2; tauto. }
  clear H2.
  repeat match goal with
         | H : _ \/ _ |- _ => destruct H as [H|H]
         end;
    rewrite HL, H4, H3, H2', H1; vm_compute; reflexivity.
Qed.

End ScoreValues.

(* ================================================================== *)
(** * The quality gate: the properties of the specification *)

Module GateClaims.

Import QualityGate GateFacts ScorerFacts ScoreValues.
Open Scope float_scope.

Lemma Category_eqb_eq a b : Category_eqb a b = true <-> a = b.
Proof. destruct a, b; simpl; split; congruence. Qed.

Lemma filter_plain (l : list Issue) :
  Forall plain l ->
  filter (fun i => Category_eqb (category i) cat_injection) l = [].
Proof.
  induction 1 as [|i l [Hc _] _ IH]; simpl; [reflexivity|].
  destruct (Category_eqb (category i) cat_injection) eqn:E; [|exact IH].
  apply Category_eqb_eq in E. contradiction.
Qed.

Lemma checkCount_found responses t :
  found (checkCount responses t) =
    found t ++
    (if Nat.ltb (length responses) 3
     then [mkIssue cat_completeness warning
             (MsgOnlyResponses (length responses))]
     else []).
Proof.
  unfold checkCount. destruct (Nat.ltb _ _); simpl;
    [reflexivity | now rewrite app_nil_r].
Qed.

Lemma mapi_from_In {A B : Type} (f : A -> nat -> B) (l : list A) i y :
  In y (mapi_from i f l) -> exists x j, In x l /\ y = f x j.
Proof.
  revert i. induction l as [|x l IH]; intros i; simpl; [contradiction|].
  intros [<-|H].
  - exists x, i. split; [now left | reflexivity].
  - destruct (IH _ H) as [x' [j [Hin Hy]]].
    exists x', j. split; [now right | exact Hy].
Qed.

Lemma probSum_nil_low : Num.gt (probSum []) 1.0 = false.
Proof. vm_compute. reflexivity. Qed.

(** A [NaN] among the declared probabilities makes their sum [NaN], which is
    not above 1.0. *)
Lemma probSum_nan responses u :
  In u responses -> is_nan (probability u) = true ->
  Num.gt (probSum responses) 1.0 = false.
Proof.
  intros Hin Hnan. unfold Num.gt, probSum.
  apply FloatFacts.ltb_nan_r.
  apply (FloatFacts.fold_add_nan_term probability responses 0 u Hin Hnan).
Qed.

(** The issues of a report with units, in the order the gate appends them. *)
Lemma report_issues outputText :
  parseResponses outputText <> [] ->
  issues (qualityGate outputText) =
    let responses := parseResponses outputText in
    found (checkProbabilitySum responses
             (checkCount responses (checkTags outputText (mkTally 1.0 []))))
    ++ concat (List.map found (responseScores responses))
    ++ (if Spec.inconsistent responses
        then [mkIssue cat_consistency warning MsgInconsistent] else []).
Proof.
  intros H. rewrite (qualityGate_nonempty _ H). cbv zeta. cbn [issues].
  unfold documentChecks.
  now rewrite checkConsistency_found, pushIssues_found, app_assoc.
Qed.

(** The score and the verdict of a report with units, from the composite of
    the specification. *)
Lemma report_score outputText :
  parseResponses outputText <> [] ->
  score (qualityGate outputText) = Num.roundFixed3 (Spec.composite outputText)
  /\ passesGate (qualityGate outputText)
     = Num.ge (Spec.composite outputText) QUALITY_THRESHOLD
  /\ threshold (qualityGate outputText) = QUALITY_THRESHOLD.
Proof.
  intros H. rewrite (qualityGate_nonempty _ H). cbv zeta.
  cbn [score passesGate threshold].
  unfold Spec.composite, compositeScore, Spec.clamp01.
  rewrite documentChecks_total, avgResponseScore_mean. auto.
Qed.

(** C2 (as amended).  When no unit is parsed the gate returns at once: the
    score is 0, the verdict is a failure, the list of responses is empty, and
    the issues are the tag-balance issue, if the tags are unbalanced,
    followed by exactly one critical [xml] issue; no later check
    contributes.  [qualityGate] is a total function of its input string. *)
Theorem no_units_short_circuit (outputText : jsstring) :
  parseResponses outputText = [] ->
  let report := qualityGate outputText in
  score report = 0
  /\ passesGate report = false
  /\ responses report = []
  /\ issues report =
       (if Spec.tagsMismatched outputText
        then [mkIssue cat_xml critical
                (MsgMismatchedTags (openTags outputText)
                                   (closeTags outputText))]
        else [])
       ++ [mkIssue cat_xml critical MsgNoValidBlocks].
Proof.
  intros H. cbv zeta. rewrite (qualityGate_empty _ H).
  cbn [score passesGate responses issues].
  rewrite checkTags_found. cbn [found app]. auto.
Qed.

Lemma no_units_short_circuit_witness :
  parseResponses (js "") = []
  /\ (let report := qualityGate (js "") in
      score report = 0
      /\ passesGate report = false
      /\ responses report = []
      /\ issues report =
           (if Spec.tagsMismatched (js "")
            then [mkIssue cat_xml critical
                    (MsgMismatchedTags (openTags (js "")) (closeTags (js "")))]
            else [])
           ++ [mkIssue cat_xml critical MsgNoValidBlocks]).
Proof.
  split; [reflexivity | apply (no_units_short_circuit (js "")); reflexivity].
Defined.

(** C2, as stated, fails on the input ["<response>"]: no unit is parsed and
    the report carries two critical issues, not one. *)
Lemma unbalanced_empty_has_two_issues :
  parseResponses (js "<response>") = []
  /\ List.map severity (issues (qualityGate (js "<response>")))
     = [critical; critical].
Proof. split; vm_compute; reflexivity. Qed.

(** The composite of the gate.  With at least one parsed unit, the composite
    is [clamp01 (documentScore * 0.4 + avgUnitScore * 0.6)], the mean taken
    over the per-unit scores; the report's score is the composite rounded to
    three decimals, its verdict is [composite >= 0.70] and its threshold is
    0.70: [qualityGate] itself has no threshold parameter. *)
Theorem composite_and_threshold (outputText : jsstring) :
  parseResponses outputText <> [] ->
  let responses := parseResponses outputText in
  let composite :=
    Spec.clamp01 (Spec.documentScore outputText responses * 0.4
                  + Spec.avgUnitScore responses * 0.6) in
  score (qualityGate outputText) = Num.roundFixed3 composite
  /\ passesGate (qualityGate outputText) = Num.ge composite 0.70
  /\ threshold (qualityGate outputText) = 0.70.
Proof. intros H. apply (report_score _ H). Qed.

Lemma composite_and_threshold_witness :
  parseResponses Samples.orphan <> []
  /\ (let responses := parseResponses Samples.orphan in
      let composite :=
        Spec.clamp01 (Spec.documentScore Samples.orphan responses * 0.4
                      + Spec.avgUnitScore responses * 0.6) in
      score (qualityGate Samples.orphan) = Num.roundFixed3 composite
      /\ passesGate (qualityGate Samples.orphan) = Num.ge composite 0.70
      /\ threshold (qualityGate Samples.orphan) = 0.70).
Proof.
  assert (H : parseResponses Samples.orphan <> [])
    by (vm_compute; discriminate).
  split; [exact H | apply (composite_and_threshold Samples.orphan H)].
Defined.

(** C5.  When the text of a unit matches one of the injection patterns, the
    scorer appends exactly one issue of category [injection], a critical
    one; the loop takes 0.4 off the running score once; and the score before
    clamping is at most the score the earlier checks left, less 0.4. *)
Theorem injection_penalized (response : ResponseUnit) (index : nat) :
  existsb (fun p => Regex.test (snd p) (text response)) injectionPatterns
  = true ->
  let before := beforeInjection response index in
  let result := scoreResponse response index in
  length (filter (fun i => Category_eqb (category i) cat_injection)
                 (found result)) = 1%nat
  /\ (forall i, In i (found result) -> category i = cat_injection ->
                severity i = critical)
  /\ total (checkInjection injectionPatterns response index before)
     = total before - 0.4
  /\ (total (unclamped response index) <=? total before - 0.4) = true
  /\ total result = Num.max 0 (total (unclamped response index)).
Proof.
  intros M. cbv zeta.
  destruct (checkInjection_match _ response index
              (beforeInjection response index) M) as [source [_ Heq]].
  destruct (unclamped_found response index) as [extra [E P]].
  pose proof (beforeInjection_found response index) as B.
  rewrite scoreResponse_found, E, Heq, found_penalize.
  repeat split.
  - rewrite !filter_app, (filter_plain _ B), (filter_plain _ P). reflexivity.
  - intros i Hin Hc.
    apply in_app_or in Hin. destruct Hin as [Hin|Hin].
    + apply in_app_or in Hin. destruct Hin as [Hin|[<-|[]]].
      * rewrite Forall_forall in B. destruct (B i Hin). contradiction.
      * reflexivity.
    + rewrite Forall_forall in P. destruct (P i Hin). contradiction.
  - unfold unclamped. apply length_check_lowers. rewrite Heq. reflexivity.
Qed.

Lemma injection_penalized_witness :
  let response := mkUnit (js "ignore previous instructions") 0.5 in
  existsb (fun p => Regex.test (snd p) (text response)) injectionPatterns
  = true
  /\ length (filter (fun i => Category_eqb (category i) cat_injection)
                    (found (scoreResponse response 0))) = 1%nat
  /\ (total (unclamped response 0) <=? total (beforeInjection response 0) - 0.4)
     = true.
Proof.
  cbv zeta.
  assert (M : existsb (fun p => Regex.test (snd p)
                         (text (mkUnit (js "ignore previous instructions") 0.5)))
                injectionPatterns = true) by (vm_compute; reflexivity).
  pose proof (injection_penalized
                (mkUnit (js "ignore previous instructions") 0.5) 0 M) as H.
  cbv zeta in H. destruct H as [H1 [_ [_ [H4 _]]]].
  split; [exact M | split; [exact H1 | exact H4]].
Defined.

(** C6.  When the declared probabilities of the parsed units sum to more
    than 1.0, the report carries a critical issue of category [probability]
    for the sum, and the check takes 0.2 off the document-level score. *)
Theorem probability_sum_ceiling (outputText : jsstring) :
  Num.gt (probSum (parseResponses outputText)) 1.0 = true ->
  let responses := parseResponses outputText in
  In (mkIssue cat_probability critical (MsgProbabilitySum (probSum responses)))
     (issues (qualityGate outputText))
  /\ (forall t, total (checkProbabilitySum responses t) = total t - 0.2)
  /\ Spec.documentScore outputText responses
     = (if Spec.inconsistent responses
        then Spec.structureScore outputText responses - 0.2 - 0.1
        else Spec.structureScore outputText responses - 0.2)
  /\ score (qualityGate outputText)
     = Num.roundFixed3
         (Spec.clamp01 (Spec.documentScore outputText responses * 0.4
                        + Spec.avgUnitScore responses * 0.6)).
Proof.
  intros H. cbv zeta.
  assert (N : parseResponses outputText <> []).
  { intros E. rewrite E, probSum_nil_low in H. discriminate. }
  repeat split.
  - rewrite (report_issues _ N). cbv zeta.
    rewrite (checkProbabilitySum_fires _ _ H), found_penalize.
    apply in_or_app. left. apply in_or_app. right. now left.
  - intros t. now rewrite (checkProbabilitySum_fires _ _ H).
  - unfold Spec.documentScore. cbv zeta. rewrite H. reflexivity.
  - apply (report_score _ N).
Qed.

Lemma probability_sum_ceiling_witness :
  Num.gt (probSum (parseResponses Samples.overconfident)) 1.0 = true
  /\ In (mkIssue cat_probability critical
           (MsgProbabilitySum (probSum (parseResponses Samples.overconfident))))
        (issues (qualityGate Samples.overconfident)).
Proof.
  assert (H : Num.gt (probSum (parseResponses Samples.overconfident)) 1.0
              = true) by (vm_compute; reflexivity).
  split; [exact H | apply (probability_sum_ceiling Samples.overconfident H)].
Defined.

(** C10.  When the declared probability of a parsed unit is [NaN], the
    probability-sum check does not fire, whatever the other units declare:
    the report carries no probability-sum issue, the document-level score
    loses no 0.2, and the unit's own probability issue is in the report. *)
Theorem nan_probability_hides_sum (outputText : jsstring) (k : nat)
    (u : ResponseUnit) :
  nth_error (parseResponses outputText) k = Some u ->
  is_nan (probability u) = true ->
  let responses := parseResponses outputText in
  (forall t, checkProbabilitySum responses t = t)
  /\ (forall i p, In i (issues (qualityGate outputText)) ->
                  message i <> MsgProbabilitySum p)
  /\ Spec.documentScore outputText responses
     = (if Spec.inconsistent responses
        then Spec.structureScore outputText responses - 0.1
        else Spec.structureScore outputText responses)
  /\ In (mkIssue cat_probability critical
           (MsgProbabilityOutOfRange k (probability u)))
        (issues (qualityGate outputText)).
Proof.
  intros Hk Hnan. cbv zeta.
  assert (Hin : In u (parseResponses outputText))
    by (eapply nth_error_In; exact Hk).
  assert (N : parseResponses outputText <> [])
    by (intros E; rewrite E in Hin; contradiction).
  pose proof (probSum_nan _ u Hin Hnan) as S.
  repeat split.
  - intros t. apply checkProbabilitySum_silent, S.
  - intros i p. rewrite (report_issues _ N). cbv zeta.
    rewrite (checkProbabilitySum_silent _ _ S), checkCount_found,
      checkTags_found. cbn [found app].
    intros H. repeat (apply in_app_or in H; destruct H as [H|H]).
    + destruct (Spec.tagsMismatched outputText); [|contradiction].
      destruct H as [<-|[]]. discriminate.
    + destruct (Nat.ltb _ _); [|contradiction].
      destruct H as [<-|[]]. discriminate.
    + apply in_concat in H. destruct H as [l [Hl Hi]].
      apply in_map_iff in Hl. destruct Hl as [t [<- Ht]].
      apply mapi_from_In in Ht. destruct Ht as [r [j [_ ->]]].
      apply (scoreResponse_no_sum r j i Hi).
    + destruct (Spec.inconsistent _); [|contradiction].
      destruct H as [<-|[]]. discriminate.
  - unfold Spec.documentScore. cbv zeta. rewrite S. reflexivity.
  - rewrite (report_issues _ N). cbv zeta.
    apply in_or_app. right. apply in_or_app. left.
    apply in_concat. exists (found (scoreResponse u k)). split.
    + apply in_map. unfold responseScores, mapi.
      apply nth_error_In with (n := k).
      apply (mapi_from_nth scoreResponse _ 0 k u Hk).
    + apply scoreResponse_nan, Hnan.
Qed.

Lemma nan_probability_hides_sum_witness :
  nth_error (parseResponses Samples.notANumber) 1
  = Some (mkUnit (js "second") nan)
  /\ is_nan nan = true
  /\ Num.gt (0.8 + 0.7) 1.0 = true
  /\ (forall i p, In i (issues (qualityGate Samples.notANumber)) ->
                  message i <> MsgProbabilitySum p)
  /\ In (mkIssue cat_probability critical (MsgProbabilityOutOfRange 1 nan))
        (issues (qualityGate Samples.notANumber)).
Proof.
  assert (Hk : nth_error (parseResponses Samples.notANumber) 1
               = Some (mkUnit (js "second") nan))
    by (vm_compute; reflexivity).
  assert (Hn : is_nan (probability (mkUnit (js "second") nan)) = true)
    by reflexivity.
  pose proof (nan_probability_hides_sum Samples.notANumber 1
                (mkUnit (js "second") nan) Hk Hn) as H.
  cbv zeta in H. destruct H as [_ [H2 [_ H4]]].
  split; [exact Hk|]. split; [reflexivity|].
  split; [vm_compute; reflexivity|]. split; [exact H2 | exact H4].
Defined.

End GateClaims.

(* ================================================================== *)
(** * The router: the tiers of [evaluate] *)

Module RouterFacts.

Import QualityGate Effects PromptSchema Router.
Open Scope float_scope.

(** Symbolic execution of the monadic code. *)
Ltac run :=
  cbv beta iota zeta delta
    [evaluateWithExperiment tierMiniMax tierOpenAI callOpenAI openaiCall
     callAnthropic anthropicCall callMiniMax timedGate tryCatch bind ret
     throw warn external dateNow mathRandom setTiming setUsageLog getTiming
     getUsageLog initial reads draws calls warnings timingNow usageLog
     fst snd negb].

Lemma last_call (l : list Call) (c : Call) :
  pred (length (l ++ [c])) = length l.
Proof. rewrite length_app. simpl. lia. Qed.

Lemma not_in_snoc (l : list Call) (c : Call) :
  ~ In CallAnthropic l -> c <> CallAnthropic -> ~ In CallAnthropic (l ++ [c]).
Proof.
  intros H1 H2 H. apply in_app_or in H. destruct H as [H|[H|[]]]; auto.
Qed.

(** Tier 1 never throws and never calls Anthropic; what it returns from
    inside the [try] is a MiniMax result. *)
Lemma tierMiniMax_outcome env config idea totalStart w :
  ~ In CallAnthropic (calls w) ->
  exists early,
    fst (tierMiniMax env config idea totalStart w) = Ok early
    /\ ~ In CallAnthropic
           (calls (snd (tierMiniMax env config idea totalStart w)))
    /\ (forall r, early = Some r -> provider r = js "minimax").
Proof.
  intros Hw. run.
  destruct (truthyStr (minimaxKey config)); run.
  2:{ exists None. repeat split; [exact Hw | discriminate]. }
  destruct (fetchMiniMax env _ _) as [response|e]; run.
  2:{ exists None. repeat split; [|discriminate].
      apply not_in_snoc; [exact Hw | discriminate]. }
  destruct (ok response); run.
  2:{ exists None. repeat split; [|discriminate].
      apply not_in_snoc; [exact Hw | discriminate]. }
  destruct (bodyJson response) as [data|e]; run.
  2:{ exists None. repeat split; [|discriminate].
      apply not_in_snoc; [exact Hw | discriminate]. }
  destruct (passesGate _ || _)%bool; run.
  - eexists. repeat split.
    + apply not_in_snoc; [exact Hw | discriminate].
    + intros r [= <-]. reflexivity.
  - exists None. repeat split; [|discriminate].
    apply not_in_snoc; [exact Hw | discriminate].
Qed.

(** An error of the OpenAI call is not caught: tier 2 throws it, and
    Anthropic is not called. *)
Lemma tierOpenAI_error env config idea totalStart w e :
  openaiCreate env (length (calls w)) (openaiRequest config idea) = Throw e ->
  fst (tierOpenAI env config idea totalStart w) = Throw e
  /\ calls (snd (tierOpenAI env config idea totalStart w))
     = calls w ++ [CallOpenAI].
Proof.
  unfold openaiRequest. intros F.
  destruct w as [rd dr cs ws tm ul]. cbn [calls] in *.
  run. rewrite F. run. split; reflexivity.
Qed.

(** When tier 2 goes on to call Anthropic and the call returns a message,
    the result is built from that message, whatever its own gate says. *)
Lemma tierOpenAI_terminal env config idea totalStart w message :
  ~ In CallAnthropic (calls w) ->
  In CallAnthropic (calls (snd (tierOpenAI env config idea totalStart w))) ->
  anthropicCreate env
    (pred (length (calls (snd (tierOpenAI env config idea totalStart w)))))
    (anthropicRequest config idea) = Ok message ->
  exists r,
    fst (tierOpenAI env config idea totalStart w) = Ok r
    /\ provider r = js "anthropic"
    /\ escalated r = true
    /\ quality r = score (qualityGate (messageText message))
    /\ responses r = QualityGate.responses (qualityGate (messageText message))
    /\ issues r = QualityGate.issues (qualityGate (messageText message)).
Proof.
  intros Hw. run.
  destruct (openaiCreate env _ _) as [a|e]; run.
  2:{ intros H. elim (not_in_snoc _ CallOpenAI Hw); [discriminate | exact H]. }
  destruct (passesGate _ || _)%bool; run.
  { intros H. elim (not_in_snoc _ CallOpenAI Hw); [discriminate | exact H]. }
  destruct (truthyStr (anthropicKey config)); run.
  2:{ intros H. elim (not_in_snoc _ CallOpenAI Hw); [discriminate | exact H]. }
  destruct (anthropicCreate env _ _) as [m|e] eqn:E; run;
    rewrite last_call; unfold anthropicRequest; rewrite E; intros _ [= <-].
  eexists. split; [reflexivity|]. cbn. auto.
Qed.

(** [evaluate] is tier 1 followed, unless tier 1 returned, by tier 2. *)
Lemma evaluate_tiers env config idea :
  evaluate env config idea initial =
    let w0 := mkWorld 1 0 [] [] (mkTiming 0 0 0 0) [] in
    match tierMiniMax env config idea (now env 0) w0 with
    | (Ok (Some r), w) => (Ok r, w)
    | (Ok None, w) => tierOpenAI env config idea (now env 0) w
    | (Throw e, w) => (Throw e, w)
    end.
Proof.
  unfold evaluate.
  cbv beta iota zeta delta
    [bind ret setTiming dateNow setUsageLog initial
     reads draws calls warnings timingNow usageLog].
  destruct (tierMiniMax env config idea (now env 0) _) as [[[r|]|e] w];
    reflexivity.
Qed.

(** When the OpenAI call fails whenever it is made, [evaluate] returns what
    MiniMax gave or throws the error; it never goes on to Anthropic. *)
Lemma openai_error_propagates env config idea e :
  (forall n, openaiCreate env n (openaiRequest config idea) = Throw e) ->
  (fst (evaluate env config idea initial) = Throw e
   \/ exists r, fst (evaluate env config idea initial) = Ok r
                /\ provider r = js "minimax")
  /\ ~ In CallAnthropic (calls (snd (evaluate env config idea initial))).
Proof.
  intros F. rewrite evaluate_tiers. cbv zeta.
  destruct (tierMiniMax_outcome env config idea (now env 0)
              (mkWorld 1 0 [] [] (mkTiming 0 0 0 0) []))
    as [early [E [C P]]]; [intros []|].
  destruct (tierMiniMax env config idea (now env 0) _) as [res w].
  cbn [fst snd] in *. subst res. destruct early as [r|].
  - split; [right; exists r; split; [reflexivity | now apply P] | exact C].
  - destruct (tierOpenAI_error env config idea (now env 0) w e (F _))
      as [T L].
    split; [left; exact T|]. rewrite L.
    apply not_in_snoc; [exact C | discriminate].
Qed.

(** When the MiniMax call fails, [evaluate] goes on to OpenAI. *)
Lemma minimax_error_escalates env config idea e :
  truthyStr (minimaxKey config) = true ->
  fetchMiniMax env 0
    (mkChatRequest (minimaxKey config) (js "MiniMax-Text-01")
       defaultSystemPrompt (userContent idea)) = Throw e ->
  evaluate env config idea initial
  = tierOpenAI env config idea (now env 0)
      (mkWorld 2 0 [CallMiniMax] [WarnMiniMaxError e] (mkTiming 0 0 0 0) []).
Proof.
  intros K F. rewrite evaluate_tiers. cbv zeta. run. rewrite K. run.
  destruct (minimaxKey config) as [[|c key]|]; try discriminate.
  cbn [orStr length] in *. rewrite F. reflexivity.
Qed.

(** ** The decision of [evaluateWithExperiment] *)

(** When the reported score of the variant's reply is at least the variant's
    threshold, or escalation is off, the reply is returned unescalated and no
    further provider is called. *)
Lemma experiment_returns_variant env config idea experiment variant primary w :
  selectVariant (random env 0) experiment = Some variant ->
  callVariant env config idea variant
    (mkWorld 1 1 [] [] (mkTiming 0 0 0 0) []) = (Ok primary, w) ->
  (Num.ge (score (qualityGate (outputText primary)))
          (thresholdOf config variant)
   || negb (allowEscalationOf config))%bool = true ->
  exists r e w',
    evaluateWithExperiment env config idea experiment initial
    = (Ok (r, e), w')
    /\ escalated r = false
    /\ provider r = PromptSchema.provider variant
    /\ quality r = score (qualityGate (outputText primary))
    /\ calls w' = calls w.
Proof.
  intros S C D. run. rewrite S. run. rewrite C. run.
  unfold negb in D. rewrite D. run.
  eexists _, _, _. split; [reflexivity|]. cbn. auto.
Qed.

(** Otherwise Anthropic is called, and its reply is the result. *)
Lemma experiment_escalates env config idea experiment variant primary w
    message :
  selectVariant (random env 0) experiment = Some variant ->
  callVariant env config idea variant
    (mkWorld 1 1 [] [] (mkTiming 0 0 0 0) []) = (Ok primary, w) ->
  (Num.ge (score (qualityGate (outputText primary)))
          (thresholdOf config variant)
   || negb (allowEscalationOf config))%bool = false ->
  truthyStr (anthropicKey config) = true ->
  anthropicCreate env (length (calls w)) (anthropicRequest config idea)
  = Ok message ->
  exists r e w',
    evaluateWithExperiment env config idea experiment initial
    = (Ok (r, e), w')
    /\ escalated r = true
    /\ provider r = js "anthropic"
    /\ quality r = score (qualityGate (messageText message)).
Proof.
  intros S C D K A. run. rewrite S. run. rewrite C. run.
  unfold negb in D. rewrite D. run. rewrite K. run.
  destruct w as [rd dr cs ws tm ul]. cbn [calls] in A.
  unfold anthropicRequest in A. run. rewrite A. run.
  eexists _, _, _. split; [reflexivity|]. cbn. auto.
Qed.

End RouterFacts.

(* ================================================================== *)
(** * The router: the properties of the specification *)

Module RouterClaims.

Import QualityGate Effects PromptSchema Router RouterFacts.
Open Scope float_scope.

(** C1 (the code departs from it).  With all three tiers configured,
    MiniMax unreachable and OpenAI answering with an authentication error,
    [evaluate] throws the error of the OpenAI call: the error of the
    cheapest tier was caught and escalated, the error of the middle tier is
    not, and Anthropic is never called. *)
Theorem openai_error_aborts :
  fst (evaluate (Samples.openaiDown Samples.fullUnit) Samples.threeTiers
         (js "idea") initial)
  = Throw (External (js "401 Unauthorized"))
  /\ calls (snd (evaluate (Samples.openaiDown Samples.fullUnit)
                   Samples.threeTiers (js "idea") initial))
     = [CallMiniMax; CallOpenAI].
Proof. split; vm_compute; reflexivity. Qed.

(** C4.  When a call of [evaluate] goes as far as calling Anthropic and the
    call returns a message, [evaluate] returns the result built from that
    message, with [escalated] true, without consulting the verdict of the
    gate on it. *)
Theorem terminal_tier_unconditional (env : Env) (config : RouterConfig)
    (idea : jsstring) (message : AnthropicMessage) :
  In CallAnthropic (calls (snd (evaluate env config idea initial))) ->
  anthropicCreate env
    (pred (length (calls (snd (evaluate env config idea initial)))))
    (anthropicRequest config idea) = Ok message ->
  exists r,
    fst (evaluate env config idea initial) = Ok r
    /\ provider r = js "anthropic"
    /\ escalated r = true
    /\ quality r = score (qualityGate (messageText message))
    /\ responses r = QualityGate.responses (qualityGate (messageText message))
    /\ issues r = QualityGate.issues (qualityGate (messageText message)).
Proof.
  rewrite evaluate_tiers. cbv zeta.
  destruct (tierMiniMax_outcome env config idea (now env 0)
              (mkWorld 1 0 [] [] (mkTiming 0 0 0 0) []))
    as [early [E [C _]]]; [intros []|].
  destruct (tierMiniMax env config idea (now env 0) _) as [res w].
  cbn [fst snd] in *. subst res. destruct early as [r|].
  - cbn [fst snd]. intros H. contradiction.
  - apply tierOpenAI_terminal. exact C.
Qed.

Lemma terminal_tier_unconditional_witness :
  let env := Samples.world Samples.orphan Samples.orphan in
  let run := evaluate env Samples.twoTiers (js "idea") initial in
  In CallAnthropic (calls (snd run))
  /\ passesGate (qualityGate Samples.orphan) = false
  /\ exists r, fst run = Ok r
               /\ provider r = js "anthropic"
               /\ escalated r = true
               /\ quality r = score (qualityGate Samples.orphan).
Proof.
  cbv zeta.
  assert (C : In CallAnthropic
                (calls (snd (evaluate (Samples.world Samples.orphan Samples.orphan)
                               Samples.twoTiers (js "idea") initial))))
    by (vm_compute; auto).
  destruct (terminal_tier_unconditional
              (Samples.world Samples.orphan Samples.orphan)
              Samples.twoTiers (js "idea")
              (mkMessage [mkBlock (js "text") Samples.orphan]
                 (js "claude-opus-4-20250514") 100 200) C eq_refl)
    as [r [R [P [X [Q _]]]]].
  split; [exact C|]. split; [vm_compute; reflexivity|].
  exists r. split; [exact R|]. split; [exact P|]. split; [exact X|].
  exact Q.
Defined.

(** C3 (the code departs from it).  A caller lowers the threshold to 0.5, as
    [RouterConfig] documents ("override the default 0.70"), and OpenAI replies
    with a text whose composite, [clamp01 (documentScore * 0.4 + avgUnitScore
    * 0.6)], is 0.55.  The composite reaches the caller's threshold, yet the
    verdict of the gate is a failure against its constant 0.70, and
    [evaluate], which reads the verdict, warns that the reply scored 0.55
    under 0.5 and escalates to Anthropic.  [evaluateWithExperiment], under
    the same configuration and with a variant that has no threshold of its
    own, compares the score with the caller's threshold and returns the
    reply of OpenAI unescalated. *)
Theorem caller_threshold_not_applied :
  qualityThresholdOf Samples.lenient = 0.5
  /\ Spec.composite Samples.orphan = 0.55
  /\ score (qualityGate Samples.orphan) = 0.55
  /\ Num.ge (Spec.composite Samples.orphan)
            (qualityThresholdOf Samples.lenient) = true
  /\ passesGate (qualityGate Samples.orphan) = false
  /\ threshold (qualityGate Samples.orphan) = 0.70
  /\ match fst (evaluate (Samples.world Samples.orphan Samples.fullUnit)
                  Samples.lenient (js "idea") initial) with
     | Ok r => provider r = js "anthropic" /\ escalated r = true
     | Throw _ => False
     end
  /\ warnings (snd (evaluate (Samples.world Samples.orphan Samples.fullUnit)
                      Samples.lenient (js "idea") initial))
     = [WarnOpenAIScored 0.55 0.5]
  /\ match fst (evaluateWithExperiment
                  (Samples.world Samples.orphan Samples.fullUnit)
                  Samples.lenient (js "idea") Samples.soloExperiment
                  initial) with
     | Ok (r, _) => provider r = js "openai" /\ escalated r = false
                    /\ quality r = 0.55
     | Throw _ => False
     end.
Proof.
  repeat match goal with |- _ /\ _ => split end;
    vm_compute; repeat split.
Qed.

(** C9.  There is a text whose report has the score 0.70, the threshold, and
    a failing verdict: its composite is below 0.70 and rounds to 0.700.  On
    that text as the reply of OpenAI, [evaluate] escalates to Anthropic
    while [evaluateWithExperiment], which compares the rounded score with the
    threshold, returns the OpenAI reply unescalated. *)
Theorem rounded_score_disagrees :
  exists outputText anthropicText,
    score (qualityGate outputText) = 0.70
    /\ threshold (qualityGate outputText) = 0.70
    /\ passesGate (qualityGate outputText) = false
    /\ (Spec.composite outputText <? 0.70) = true
    /\ match fst (evaluate (Samples.world outputText anthropicText)
                    Samples.twoTiers (js "idea") initial) with
       | Ok r => provider r = js "anthropic" /\ escalated r = true
       | Throw _ => False
       end
    /\ match fst (evaluateWithExperiment
                    (Samples.world outputText anthropicText)
                    Samples.twoTiers (js "idea") Samples.soloExperiment
                    initial) with
       | Ok (r, _) => provider r = js "openai" /\ escalated r = false
                      /\ quality r = 0.70
       | Throw _ => False
       end.
Proof.
  exists Samples.borderline, Samples.fullUnit.
  repeat match goal with |- _ /\ _ => split end;
    vm_compute; repeat split.
Qed.

End RouterClaims.

(* ================================================================== *)
(** * The experiment engine: weight normalization *)

Module WeightFacts.

Import Effects PromptSchema FloatFacts Exact Rounding.
Open Scope float_scope.

Lemma truthy_positive (w : float) : (0 <? w) = true -> Num.truthy w = true.
Proof.
  intros H. unfold Num.truthy, is_zero.
  assert (N : is_nan w = false).
  { destruct (is_nan w) eqn:E; [|reflexivity].
    rewrite (ltb_nan_r 0 w E) in H. discriminate. }
  rewrite N, FloatAxioms.eqb_spec. simpl.
  destruct (ltb_0_cases w H) as [[m [e ->]]| ->]; reflexivity.
Qed.

(** [v.weight || 1] is positive when the weight is positive or missing. *)
Lemma weightOr1_positive (v : PromptVariant) :
  Spec.positiveWeight v = true -> (0 <? weightOr1 v) = true.
Proof.
  unfold Spec.positiveWeight, weightOr1. destruct (weight v) as [w|];
    [|reflexivity].
  intros H. now rewrite (truthy_positive w H).
Qed.

Lemma fold_weights_map {A : Type} (f : A -> float) (l : list A) (a : float) :
  fold_left (fun sum x => sum + f x) l a
  = fold_left PrimFloat.add (List.map f l) a.
Proof.
  revert a. induction l as [|x l IH]; intros a; simpl; [reflexivity|].
  apply IH.
Qed.

Lemma defineExperiment_variants now name vs e :
  defineExperiment now name vs = Ok e ->
  variants e
  = List.map (fun v => mkVariant (id v) (provider v)
                         (Some (weightOr1 v / totalWeight vs))
                         (promptConfig v) (outputSchema v)
                         (qualityThreshold v)) vs.
Proof.
  unfold defineExperiment. destruct vs as [|v vs]; [discriminate|].
  intros [= <-]. reflexivity.
Qed.

(** [defineExperiment] gives each variant its weight, 1 for a missing one,
    divided by the sum of all of them. *)
Lemma defineExperiment_weights now name vs e :
  defineExperiment now name vs = Ok e ->
  List.map weight (variants e)
  = List.map (fun v => Some (weightOr1 v / totalWeight vs)) vs.
Proof.
  intros D. rewrite (defineExperiment_variants _ _ _ _ D), List.map_map.
  reflexivity.
Qed.

(** The sum of the weights of the experiment is the sum in order of the
    quotients. *)
Lemma weightSum_quotients now name vs e :
  defineExperiment now name vs = Ok e ->
  let ws := List.map weightOr1 vs in
  totalWeight vs = fold_left PrimFloat.add ws 0
  /\ Spec.weightSum e
     = fold_left PrimFloat.add
         (List.map (fun w => w / fold_left PrimFloat.add ws 0) ws) 0.
Proof.
  intros D. cbv zeta.
  assert (EW : totalWeight vs
               = fold_left PrimFloat.add (List.map weightOr1 vs) 0)
    by (unfold totalWeight; apply fold_weights_map).
  split; [exact EW|].
  unfold Spec.weightSum. rewrite (defineExperiment_variants _ _ _ _ D).
  rewrite fold_weights_map. f_equal. rewrite <- EW.
  rewrite !List.map_map. reflexivity.
Qed.

End WeightFacts.

(* ================================================================== *)
(** * The experiment engine: the weights of an experiment *)

Module WeightClaims.

Import Effects PromptSchema FloatFacts Exact Rounding WeightFacts.
Open Scope float_scope.

(** C7 (as amended).  For a non-empty list of fewer than [2^32] variants
    (an array holds no more) whose weights, where given, are positive, and
    whose sum in binary64 is finite, [defineExperiment] produces an
    experiment whose normalized weights sum to 1 within [1e-6]: added in
    order in binary64, as [selectVariant] accumulates them, they give a
    Number [s] for which [Math.abs(s - 1) < 1e-6] holds, and whose exact
    value is within a millionth of 1. *)
Theorem normalized_weights_sum_to_one (now : Z) (name : jsstring)
    (variants : list PromptVariant) :
  variants <> [] ->
  (Z.of_nat (length variants) < 2 ^ 32)%Z ->
  forallb Spec.positiveWeight variants = true ->
  is_finite (totalWeight variants) = true ->
  exists experiment,
    defineExperiment now name variants = Ok experiment
    /\ (abs (Spec.weightSum experiment - 1) <? 1e-6) = true
    /\ (Rabs (toR (Spec.weightSum experiment) - 1) <= 1 / 1000000)%R.
Proof.
  intros N L P F.
  destruct (defineExperiment now name variants) as [e|x] eqn:D.
  2:{ unfold defineExperiment in D. destruct variants; [congruence|].
      discriminate. }
  exists e. split; [reflexivity|].
  destruct (weightSum_quotients _ _ _ _ D) as [EW ES]. rewrite ES.
  set (ws := List.map weightOr1 variants) in *.
  destruct (normalized_sum_bounds ws) as [_ [_ [_ [NS B]]]].
  - unfold ws. destruct variants; [congruence | discriminate].
  - unfold ws. rewrite length_map. exact L.
  - unfold ws. apply Forall_forall. intros w Hw.
    apply in_map_iff in Hw. destruct Hw as [v [<- Hv]].
    apply weightOr1_positive.
    rewrite forallb_forall in P. now apply P.
  - rewrite <- EW. exact F.
  - split.
    + apply near_one_test; [|exact B].
      apply nonneg_positive; [exact NS|].
      apply Rabs_bounds in B. lra.
    + eapply Rle_trans; [exact B|]. lra.
Qed.

Lemma normalized_weights_sum_to_one_witness :
  Scenarios.mixed <> []
  /\ (Z.of_nat (length Scenarios.mixed) < 2 ^ 32)%Z
  /\ forallb Spec.positiveWeight Scenarios.mixed = true
  /\ is_finite (totalWeight Scenarios.mixed) = true
  /\ exists experiment,
       defineExperiment 0 (js "mixed") Scenarios.mixed = Ok experiment
       /\ (abs (Spec.weightSum experiment - 1) <? 1e-6) = true
       /\ (Rabs (toR (Spec.weightSum experiment) - 1) <= 1 / 1000000)%R.
Proof.
  split; [discriminate|]. split; [reflexivity|]. split; [reflexivity|].
  split; [reflexivity|].
  apply (normalized_weights_sum_to_one 0 (js "mixed") Scenarios.mixed);
    [discriminate | reflexivity | reflexivity | reflexivity].
Defined.

(** C7, as stated, fails in binary64: the weights 1e308 and 1e308 are
    positive, their sum overflows to [Infinity], both normalized weights
    are 0, and their sum is 0, further than 1e-6 from 1. *)
Lemma overflowing_weights_sum_to_zero :
  forallb Spec.positiveWeight Samples.heavyVariants = true
  /\ totalWeight Samples.heavyVariants = infinity
  /\ match defineExperiment 0 (js "heavy") Samples.heavyVariants with
     | Ok e =>
         List.map weight (variants e) = [Some 0; Some 0]
         /\ Spec.weightSum e = 0
         /\ (1e-6 <? abs (Spec.weightSum e - 1)) = true
     | Throw _ => False
     end.
Proof.
  repeat match goal with |- _ /\ _ => split end;
    vm_compute; repeat split.
Qed.

End WeightClaims.

(* ================================================================== *)
(** * The experiment engine: objects, statistics and the winner loop *)

Module ExperimentFacts.

Import Effects PromptSchema.
Open Scope float_scope.

Lemma jsstring_eqb_eq (a b : jsstring) : jsstring_eqb a b = true <-> a = b.
Proof.
  revert b. induction a as [|x a IH]; destruct b as [|y b]; simpl;
    split; try congruence.
  - intros H. apply andb_true_iff in H. destruct H as [H1 H2].
    apply N.eqb_eq in H1. apply IH in H2. congruence.
  - intros [= -> ->]. rewrite N.eqb_refl. simpl. now apply IH.
Qed.

Lemma jsstring_eqb_refl (a : jsstring) : jsstring_eqb a a = true.
Proof. now apply jsstring_eqb_eq. Qed.

Lemma jsstring_eqb_neq (a b : jsstring) : jsstring_eqb a b = false <-> a <> b.
Proof.
  rewrite <- jsstring_eqb_eq. destruct (jsstring_eqb a b); split; congruence.
Qed.

(** ** Objects *)

Section Objects.

Context {V : Type}.

Lemma objSet_In (k : jsstring) (v : V) (o : obj V) (p : jsstring * V) :
  In p (objSet k v o) -> p = (k, v) \/ In p o.
Proof.
  induction o as [|[k' v'] o IH]; simpl.
  - intros [<-|[]]. now left.
  - destruct (jsstring_eqb k' k).
    + intros [<-|H]; [now left | right; now right].
    + intros [<-|H]; [right; now left|].
      destruct (IH H) as [E|E]; [now left | right; now right].
Qed.

Lemma objSet_keys (k : jsstring) (v : V) (o : obj V) (x : jsstring) :
  In x (List.map fst (objSet k v o)) -> x = k \/ In x (List.map fst o).
Proof.
  intros H. apply in_map_iff in H. destruct H as [p [<- Hp]].
  apply objSet_In in Hp. destruct Hp as [->|Hp]; [now left|].
  right. now apply in_map.
Qed.

Lemma objSet_NoDup (k : jsstring) (v : V) (o : obj V) :
  NoDup (List.map fst o) -> NoDup (List.map fst (objSet k v o)).
Proof.
  induction o as [|[k' v'] o IH]; simpl; intros H.
  - constructor; [intros [] | constructor].
  - inversion H as [|? ? Hn Hd]; subst.
    destruct (jsstring_eqb k' k) eqn:E; simpl.
    + apply jsstring_eqb_eq in E. subst k'. now constructor.
    + constructor; [|now apply IH].
      intros Hin. apply objSet_keys in Hin. destruct Hin as [->|Hin].
      * rewrite jsstring_eqb_refl in E. discriminate.
      * contradiction.
Qed.

Lemma objAssign_In (k : jsstring) (v : V) (o : obj V) (p : jsstring * V) :
  In p (objAssign k v o) -> p = (k, v) /\ k <> js "__proto__" \/ In p o.
Proof.
  unfold objAssign. destruct (jsstring_eqb k (js "__proto__")) eqn:E.
  - now right.
  - apply jsstring_eqb_neq in E. intros H. apply objSet_In in H. tauto.
Qed.

Lemma objAssign_NoDup (k : jsstring) (v : V) (o : obj V) :
  NoDup (List.map fst o) -> NoDup (List.map fst (objAssign k v o)).
Proof.
  unfold objAssign. destruct (jsstring_eqb k (js "__proto__")).
  - auto.
  - apply objSet_NoDup.
Qed.

Lemma objGet_In (k : jsstring) (v : V) (o : obj V) :
  NoDup (List.map fst o) -> In (k, v) o -> objGet k o = Some v.
Proof.
  induction o as [|[k' v'] o IH]; simpl; intros H Hin; [contradiction|].
  inversion H as [|? ? Hn Hd]; subst.
  destruct Hin as [[= -> ->]|Hin].
  - now rewrite jsstring_eqb_refl.
  - destruct (jsstring_eqb k' k) eqn:E; [|now apply IH].
    apply jsstring_eqb_eq in E. subst k'.
    elim Hn. apply in_map_iff. exists (k, v). split; [reflexivity | exact Hin].
Qed.

Lemma insertBy_perm (after : jsstring * V -> jsstring * V -> bool) x l :
  Permutation (insertBy after x l) (x :: l).
Proof.
  induction l as [|y l IH]; simpl; [reflexivity|].
  destruct (after x y); [|reflexivity].
  rewrite IH. apply perm_swap.
Qed.

Lemma sortBy_perm (after : jsstring * V -> jsstring * V -> bool) l :
  Permutation (sortBy after l) l.
Proof.
  induction l as [|x l IH]; simpl; [reflexivity|].
  rewrite insertBy_perm. now constructor.
Qed.

Lemma partition_perm (f : jsstring * V -> bool) l :
  Permutation (filter f l ++ filter (fun p => negb (f p)) l) l.
Proof.
  induction l as [|x l IH]; simpl; [reflexivity|].
  destruct (f x); simpl.
  - now constructor.
  - rewrite <- Permutation_middle. now constructor.
Qed.

(** [Object.entries] lists every property once. *)
Lemma objEntries_perm (o : obj V) : Permutation (objEntries o) o.
Proof.
  unfold objEntries. cbv zeta. rewrite sortBy_perm. apply partition_perm.
Qed.

Lemma filter_keys_NoDup (f : jsstring * V -> bool) (l : obj V) :
  NoDup (List.map fst l) -> NoDup (List.map fst (filter f l)).
Proof.
  induction l as [|x l IH]; simpl; intros H; [constructor|].
  inversion H as [|? ? Hn Hd]; subst.
  destruct (f x); simpl; [|now apply IH].
  constructor; [|now apply IH].
  intros Hin. apply Hn. apply in_map_iff in Hin.
  destruct Hin as [p [E Hp]]. apply filter_In in Hp.
  apply in_map_iff. exists p. tauto.
Qed.

End Objects.

(** ** Statistics *)

Lemma statsOf_samples v ms : samples (statsOf v ms) = length ms.
Proof. destruct ms; reflexivity. Qed.

Lemma statsOf_detail v ms : ms <> [] -> detail (statsOf v ms) <> None.
Proof. destruct ms; [congruence | discriminate]. Qed.

Lemma stats_fold experiment (vs : list PromptVariant) (acc : obj VariantStats) :
  let stats :=
    fold_left (fun stats variant =>
                 objAssign (id variant)
                   (statsOf variant (recorded experiment (id variant)))
                   stats)
              vs acc in
  (NoDup (List.map fst acc) -> NoDup (List.map fst stats))
  /\ (forall p, In p stats ->
        In p acc
        \/ exists v, In v vs /\ fst p = id v
                     /\ snd p = statsOf v (recorded experiment (id v))).
Proof.
  revert acc. induction vs as [|v vs IH]; intros acc; simpl.
  - split; [auto | intros p H; now left].
  - destruct (IH (objAssign (id v) (statsOf v (recorded experiment (id v)))
                    acc))
      as [N E].
    split.
    + intros H. apply N. now apply objAssign_NoDup.
    + intros p H. destruct (E p H) as [Hp|[v' [Hv Hp]]].
      * apply objAssign_In in Hp. destruct Hp as [[-> _]|Hp]; [|now left].
        right. exists v. split; [now left | split; reflexivity].
      * right. exists v'. split; [now right | exact Hp].
Qed.

(** Every entry of the statistics belongs to a variant of the experiment,
    and no two entries have the same key. *)
Lemma stats_entries experiment p :
  In p (variantStats (getExperimentStats experiment)) ->
  exists v, In v (variants experiment) /\ fst p = id v
            /\ snd p = statsOf v (recorded experiment (id v)).
Proof.
  intros H. unfold getExperimentStats in H. cbn [variantStats] in H.
  destruct (stats_fold experiment (variants experiment) []) as [_ E].
  destruct (E p H) as [[]|Hv]. exact Hv.
Qed.

Lemma stats_NoDup experiment :
  NoDup (List.map fst (variantStats (getExperimentStats experiment))).
Proof.
  unfold getExperimentStats. cbn [variantStats].
  destruct (stats_fold experiment (variants experiment) []) as [N _].
  apply N. constructor.
Qed.

End ExperimentFacts.

(* ================================================================== *)
(** * The experiment engine: the winner *)

Module WinnerFacts.

Import Effects PromptSchema ExperimentFacts FloatFacts OrderFacts.
Open Scope float_scope.

Lemma ltb_asym (x y : float) : (x <? y) = true -> (y <? x) = false.
Proof.
  intros H. destruct (y <? x) eqn:E; [|reflexivity].
  pose proof (FloatFacts.ltb_trans _ _ _ H E) as T.
  rewrite FloatFacts.ltb_irrefl in T. discriminate.
Qed.

(** A count that is at least a positive threshold is not zero. *)
Lemma ge_ofNat_pos (n : nat) (m : float) :
  (0 <? m) = true -> Num.ge (Num.ofNat n) m = true -> n <> 0%nat.
Proof.
  intros H1 H2 ->. unfold Num.ge in H2.
  change (Num.ofNat 0) with 0 in H2.
  rewrite FloatAxioms.ltb_spec in H1. rewrite FloatAxioms.leb_spec in H2.
  change (Prim2SF 0) with (S754_zero false) in *.
  unfold SFltb, SFleb in *.
  destruct (Prim2SF m) as [s|s| |s mm e]; simpl in *;
    try destruct s; discriminate.
Qed.

Section Loop.

Variable mode : jsstring.

(** The loop ends with the entry whose score no other entry exceeds, when it
    takes one at all. *)
Lemma bestLoop_spec (l : list (jsstring * VariantStats))
    (bestId : option jsstring) (bestScore : float) :
  (forall p, In p l -> detail (snd p) <> None) ->
  exists bid bs,
    bestLoop mode l bestId bestScore = Ok (bid, bs)
    /\ ((bid = bestId /\ bs = bestScore
         /\ forall p d, In p l -> detail (snd p) = Some d ->
                        Num.gt (scoreFor mode d) bestScore = false)
        \/ (exists p d, In p l /\ detail (snd p) = Some d
                        /\ bid = Some (fst p) /\ bs = scoreFor mode d
                        /\ Num.gt bs bestScore = true
                        /\ forall q d', In q l -> detail (snd q) = Some d' ->
                                        Num.gt (scoreFor mode d') bs = false)).
Proof.
  revert bestId bestScore.
  induction l as [|[k s] l IH]; intros bestId bestScore D; simpl.
  - exists bestId, bestScore. split; [reflexivity|].
    left. repeat split. intros p d [].
  - destruct (detail s) as [d|] eqn:Ed.
    2:{ elim (D (k, s)); [now left | exact Ed]. }
    assert (D' : forall p, In p l -> detail (snd p) <> None)
      by (intros p Hp; apply D; now right).
    destruct (Num.gt (scoreFor mode d) bestScore) eqn:G.
    + destruct (IH (Some k) (scoreFor mode d) D')
        as [bid [bs [E [[-> [-> U]]|[p [d' [Hp [Hd [-> [-> [G' U]]]]]]]]]]].
      * exists (Some k), (scoreFor mode d). split; [exact E|].
        right. exists (k, s), d.
        repeat split; try assumption; [now left|].
        intros q d' [<-|Hq] Hq'.
        -- cbn [snd] in Hq'. rewrite Ed in Hq'. injection Hq' as <-.
           apply FloatFacts.ltb_irrefl.
        -- now apply (U q d').
      * exists (Some (fst p)), (scoreFor mode d'). split; [exact E|].
        right. exists p, d'.
        repeat split; try assumption; [now right | |].
        -- unfold Num.gt in *. eapply FloatFacts.ltb_trans; eassumption.
        -- intros q d'' [<-|Hq] Hq'.
           ++ cbn [snd] in Hq'. rewrite Ed in Hq'. injection Hq' as <-.
              unfold Num.gt in *. now apply ltb_asym.
           ++ now apply (U q d'').
    + destruct (IH bestId bestScore D')
        as [bid [bs [E [[-> [-> U]]|[p [d' [Hp [Hd [-> [-> [G' U]]]]]]]]]]].
      * exists bestId, bestScore. split; [exact E|].
        left. repeat split.
        intros q d' [<-|Hq] Hq'.
        -- cbn [snd] in Hq'. rewrite Ed in Hq'. now injection Hq' as <-.
        -- now apply (U q d').
      * exists (Some (fst p)), (scoreFor mode d'). split; [exact E|].
        right. exists p, d'.
        repeat split; try assumption; [now right|].
        intros q d'' [<-|Hq] Hq'.
        -- cbn [snd] in Hq'. rewrite Ed in Hq'. injection Hq' as <-.
           unfold Num.gt in *.
           destruct (scoreFor mode d' <? scoreFor mode d) eqn:C;
             [|reflexivity].
           rewrite (FloatFacts.ltb_trans _ _ _ G' C) in G. discriminate.
        -- now apply (U q d'').
Qed.

End Loop.

Lemma find_first {A : Type} (f : A -> bool) (l : list A) (x : A) :
  In x l -> f x = true ->
  exists y, find f l = Some y /\ In y l /\ f y = true.
Proof.
  induction l as [|a l IH]; simpl; intros Hin Hf; [contradiction|].
  destruct (f a) eqn:E.
  - exists a. repeat split; [now left | exact E].
  - destruct Hin as [->|Hin]; [congruence|].
    destruct (IH Hin Hf) as [y [F [I T]]].
    exists y. repeat split; [exact F | now right | exact T].
Qed.

(** Among two or more entries with distinct keys, one has another key than
    a given one. *)
Lemma another_key {V : Type} (l : obj V) (k : jsstring) :
  NoDup (List.map fst l) -> (2 <= length l)%nat ->
  exists q, In q l /\ fst q <> k.
Proof.
  destruct l as [|a [|b l]]; simpl; intros N L; try lia.
  inversion N as [|? ? Hn _]; subst.
  destruct (jsstring_eqb (fst a) k) eqn:E.
  - apply jsstring_eqb_eq in E. exists b. split; [right; now left|].
    intros Hb. apply Hn. left. congruence.
  - apply jsstring_eqb_neq in E. exists a. split; [now left | exact E].
Qed.

Lemma eligible_In minSamples stats p :
  In p (eligibleOf minSamples stats)
  <-> In p (variantStats stats)
      /\ Num.ge (Num.ofNat (samples (snd p))) minSamples = true.
Proof.
  unfold eligibleOf. rewrite filter_In. split; intros [H1 H2]; split;
    try assumption.
  - eapply Permutation_in; [apply objEntries_perm | exact H1].
  - eapply Permutation_in; [symmetry; apply objEntries_perm | exact H1].
Qed.

Lemma eligible_NoDup minSamples experiment :
  NoDup (List.map fst
           (eligibleOf minSamples (getExperimentStats experiment))).
Proof.
  unfold eligibleOf. apply filter_keys_NoDup.
  eapply Permutation_NoDup.
  - apply Permutation_map. symmetry. apply objEntries_perm.
  - apply stats_NoDup.
Qed.

(** The runner-up exists when another entry than the best is eligible; it is
    eligible and is not the best. *)
Lemma runnerUp_exists (eligible : obj VariantStats) (k : jsstring) :
  (exists q, In q eligible /\ fst q <> k) ->
  exists ru, runnerUpOf eligible (Some k) = Some ru
             /\ In ru eligible /\ fst ru <> k.
Proof.
  intros [q [Hq Hk]]. unfold runnerUpOf.
  set (others := filter (fun p => negb (isBest (Some k) (fst p))) eligible).
  set (sorted := sortBy _ others).
  assert (P : Permutation sorted others) by apply sortBy_perm.
  assert (Hin : In q others).
  { apply filter_In. split; [exact Hq|]. simpl.
    apply negb_true_iff. now apply jsstring_eqb_neq. }
  destruct sorted as [|ru rest] eqn:S.
  - apply Permutation_nil in P. rewrite P in Hin.
    contradiction.
  - exists ru. split; [reflexivity|].
    assert (Hru : In ru others)
      by (eapply Permutation_in; [exact P | now left]).
    apply filter_In in Hru. destruct Hru as [H1 H2]. split; [exact H1|].
    simpl in H2. apply negb_true_iff in H2. now apply jsstring_eqb_neq.
Qed.

Lemma confidenceOf_spec (n : nat) (gap : float) :
  (confidenceOf n gap = high
   <-> (30 <= n)%nat /\ Num.gt gap 0.1 = true)
  /\ (confidenceOf n gap = medium
      <-> ~ ((30 <= n)%nat /\ Num.gt gap 0.1 = true)
          /\ (10 <= n)%nat /\ Num.gt gap 0.05 = true)
  /\ (confidenceOf n gap = low
      <-> ~ ((30 <= n)%nat /\ Num.gt gap 0.1 = true)
          /\ ~ ((10 <= n)%nat /\ Num.gt gap 0.05 = true)).
Proof.
  unfold confidenceOf.
  destruct (Nat.leb_spec 30 n), (Nat.leb_spec 10 n);
    destruct (Num.gt gap 0.1), (Num.gt gap 0.05); simpl;
    intuition (try congruence; try lia).
Qed.

(** ** The runner-up *)

Lemma SFcompare_Eq_l (h x q : spec_float) :
  SFcompare h x = Some Eq -> SFcompare h q = SFcompare x q.
Proof.
  destruct h as [sh|sh| |sh mh eh], x as [sx|sx| |sx mx ex]; simpl;
    try discriminate;
    try (destruct sh; discriminate); try (destruct sx; discriminate).
  - intros _. destruct q; reflexivity.
  - destruct sh, sx; try discriminate; reflexivity.
  - destruct sh, sx; try discriminate;
      destruct (Z.compare_spec eh ex) as [E|E|E]; try discriminate;
      change (Pos.compare_cont Eq mh mx) with (Pos.compare mh mx);
      destruct (Pos.compare_spec mh mx) as [F|F|F]; try discriminate;
      intros _; subst; reflexivity.
Qed.

(** The order of the Numbers that are not [NaN] is total: a Number that is
    not below another is above whatever that one is above. *)
Lemma ltb_cotrans (x h q : float) :
  is_nan h = false -> (x <? q) = true ->
  (x <? h) = true \/ (h <? q) = true.
Proof.
  intros Nh L. destruct (x <? h) eqn:C; [now left | right].
  assert (Nx : is_nan x = false).
  { destruct (is_nan x) eqn:E; [|reflexivity].
    apply is_nan_spec in E. rewrite FloatAxioms.ltb_spec, E in L.
    discriminate. }
  pose proof (leb_negb_ltb h x Nh Nx) as T. rewrite C in T. simpl in T.
  rewrite FloatAxioms.leb_spec in T. rewrite FloatAxioms.ltb_spec in L |- *.
  unfold SFleb, SFltb in *.
  destruct (SFcompare (Prim2SF h) (Prim2SF x)) as [[| |]|] eqn:E;
    try discriminate.
  - rewrite (SFcompare_Eq_l _ _ (Prim2SF q) E). exact L.
  - apply (SFltb_trans (Prim2SF h) (Prim2SF x) (Prim2SF q)); unfold SFltb.
    + rewrite E. reflexivity.
    + exact L.
Qed.

Lemma sortBy_nil {A : Type} (after : A -> A -> bool) (l : list A) :
  sortBy after l = [] -> l = [].
Proof.
  destruct l as [|x l]; [reflexivity|]. simpl.
  destruct (sortBy after l) as [|y s]; simpl; [discriminate|].
  destruct (after x y); discriminate.
Qed.

Section Sorted.

Context {A : Type}.
Variable key : A -> float.

(** A difference is positive exactly when its first term is the larger. *)
Lemma after_ltb (a b : A) :
  is_nan (key a) = false -> is_nan (key b) = false ->
  Num.gt (key b - key a) 0 = (key a <? key b).
Proof. intros Na Nb. unfold Num.gt. now apply Rounding.gt_sub_zero. Qed.

(** When no key is [NaN], the first element of the array sorted by
    [(a, b) => key(b) - key(a)] has a key that no other key exceeds. *)
Lemma sortBy_head_max (l : list A) (r : A) :
  (forall x, In x l -> is_nan (key x) = false) ->
  hd_error (sortBy (fun a b => Num.gt (key b - key a) 0) l) = Some r ->
  In r l /\ forall q, In q l -> Num.gt (key q) (key r) = false.
Proof.
  set (after := fun a b : A => Num.gt (key b - key a) 0).
  revert r. induction l as [|x l IH]; intros r N; simpl; [discriminate|].
  assert (Nl : forall y, In y l -> is_nan (key y) = false)
    by (intros y Hy; apply N; now right).
  assert (Nx : is_nan (key x) = false) by (apply N; now left).
  destruct (sortBy after l) as [|h s] eqn:S.
  - simpl. intros [= <-]. split; [now left|].
    apply sortBy_nil in S. subst l. intros q [<-|[]]. apply ltb_irrefl.
  - destruct (IH h Nl eq_refl) as [Hh Mh].
    assert (Nh : is_nan (key h) = false) by (apply Nl; exact Hh).
    simpl. unfold after at 1. rewrite (after_ltb x h Nx Nh).
    destruct (key x <? key h) eqn:C; simpl; intros [= <-].
    + split; [now right|]. intros q [<-|Hq].
      * unfold Num.gt. destruct (key h <? key x) eqn:D; [|reflexivity].
        pose proof (ltb_trans _ _ _ C D) as T.
        rewrite ltb_irrefl in T. discriminate.
      * now apply Mh.
    + split; [now left|]. intros q [<-|Hq]; [apply ltb_irrefl|].
      unfold Num.gt. destruct (key x <? key q) eqn:D; [|reflexivity].
      destruct (ltb_cotrans _ (key h) _ Nh D) as [T|T]; [congruence|].
      specialize (Mh q Hq). unfold Num.gt in Mh. congruence.
Qed.

End Sorted.

(** The runner-up has a quality mean that no other eligible entry than the
    best exceeds, when no eligible quality mean is [NaN]. *)
Lemma runnerUp_max (eligible : obj VariantStats) (k : jsstring)
    (ru : jsstring * VariantStats) :
  forallb (fun p => negb (is_nan (meanOf (snd p)))) eligible = true ->
  runnerUpOf eligible (Some k) = Some ru ->
  forall q, In q eligible -> fst q <> k ->
            Num.gt (meanOf (snd q)) (meanOf (snd ru)) = false.
Proof.
  intros N R q Hq Nq. unfold runnerUpOf in R.
  rewrite forallb_forall in N.
  destruct (sortBy_head_max (fun p : jsstring * VariantStats => meanOf (snd p))
              (filter (fun p => negb (isBest (Some k) (fst p))) eligible) ru)
    as [_ M].
  - intros x Hx. apply filter_In in Hx. destruct Hx as [Hx _].
    specialize (N x Hx). now apply negb_true_iff in N.
  - exact R.
  - apply M. apply filter_In. split; [exact Hq|]. simpl.
    apply negb_true_iff. now apply jsstring_eqb_neq.
Qed.

End WinnerFacts.

(* ================================================================== *)
(** * The experiment engine: the property of the specification *)

Module WinnerClaims.

Import Effects PromptSchema ExperimentFacts WinnerFacts.
Open Scope float_scope.

Lemma scoreFor_quality (d : Detail) :
  scoreFor (js "quality") d
  = mean (quality d) * (1 - escalationRate d * 0.5).
Proof. reflexivity. Qed.

Lemma stats_samples experiment p :
  In p (variantStats (getExperimentStats experiment)) ->
  samples (snd p) = length (recorded experiment (fst p)).
Proof.
  intros H. destruct (stats_entries _ _ H) as [v [_ [Ek Es]]].
  now rewrite Es, statsOf_samples, Ek.
Qed.

Lemma eligible_detail experiment minSamples p :
  (0 <? minSamples) = true ->
  In p (eligibleOf minSamples (getExperimentStats experiment)) ->
  detail (snd p) <> None.
Proof.
  intros M H. apply eligible_In in H. destruct H as [H G].
  pose proof (ge_ofNat_pos _ _ M G) as N.
  destruct (stats_entries _ _ H) as [v [_ [_ Es]]].
  rewrite Es in *. apply statsOf_detail.
  rewrite statsOf_samples in N. destruct (recorded experiment (id v));
    [contradiction | discriminate].
Qed.

(** C8 (as amended).  [pickWinner] considers the variants with at least
    [minSamples] (5 by default) recorded samples.  With fewer than two of
    them it returns no winner and the confidence [insufficient_data].
    Otherwise, in [quality] mode, when [minSamples] is positive, no eligible
    quality mean is [NaN] and some eligible score is above [-Infinity], the
    winner is an eligible variant whose
    [qualityMean * (1 - escalationRate * 0.5)] no eligible variant exceeds;
    the runner-up is an eligible variant other than the winner whose quality
    mean no eligible variant other than the winner exceeds, whatever its
    escalation rate; and the confidence is [high] exactly when the winner
    has at least 30 samples and its quality mean leads the runner-up's by
    more than 0.10, [medium] when it is not [high] and the winner has at
    least 10 samples and leads by more than 0.05, and [low] otherwise. *)
Theorem winner_selection (experiment : Experiment) (options : Options) :
  let stats := getExperimentStats experiment in
  let eligible := eligibleOf (minSamplesOf options) stats in
  (forall p, In p eligible
             <-> In p (variantStats stats)
                 /\ Num.ge (Num.ofNat (length (recorded experiment (fst p))))
                           (minSamplesOf options) = true)
  /\ (minSamples options = None -> minSamplesOf options = 5)
  /\ ((length eligible < 2)%nat ->
      pickWinner experiment options
      = Ok (mkPick None insufficient_data stats))
  /\ ((2 <= length eligible)%nat ->
      optimizeForOf options = js "quality" ->
      (0 <? minSamplesOf options) = true ->
      forallb (fun p => negb (is_nan (meanOf (snd p)))) eligible = true ->
      existsb (fun p => match detail (snd p) with
                        | Some d => neg_infinity <? scoreFor (js "quality") d
                        | None => false
                        end) eligible = true ->
      exists w ws d ru,
        pickWinner experiment options
        = Ok (mkPick (Some w)
                (confidenceOf (samples ws)
                   (mean (quality d) - meanOf (snd ru)))
                stats)
        /\ In w (variants experiment)
        /\ In (id w, ws) eligible
        /\ detail ws = Some d
        /\ samples ws = length (recorded experiment (id w))
        /\ (forall p d', In p eligible -> detail (snd p) = Some d' ->
              Num.gt (mean (quality d') * (1 - escalationRate d' * 0.5))
                     (mean (quality d) * (1 - escalationRate d * 0.5))
              = false)
        /\ runnerUpOf eligible (Some (id w)) = Some ru
        /\ In ru eligible
        /\ fst ru <> id w
        /\ (forall q, In q eligible -> fst q <> id w ->
              Num.gt (meanOf (snd q)) (meanOf (snd ru)) = false))
  /\ (forall n gap,
        (confidenceOf n gap = high
         <-> (30 <= n)%nat /\ Num.gt gap 0.1 = true)
        /\ (confidenceOf n gap = medium
            <-> ~ ((30 <= n)%nat /\ Num.gt gap 0.1 = true)
                /\ (10 <= n)%nat /\ Num.gt gap 0.05 = true)
        /\ (confidenceOf n gap = low
            <-> ~ ((30 <= n)%nat /\ Num.gt gap 0.1 = true)
                /\ ~ ((10 <= n)%nat /\ Num.gt gap 0.05 = true))).
Proof.
  cbv zeta.
  set (stats := getExperimentStats experiment).
  set (eligible := eligibleOf (minSamplesOf options) stats).
  split; [|split; [|split; [|split]]].
  - intros p. unfold eligible. rewrite eligible_In.
    split; intros [H G]; split; try exact H;
      rewrite (stats_samples experiment p H) in *; exact G.
  - unfold minSamplesOf. intros ->. reflexivity.
  - intros L. unfold pickWinner. cbv zeta. fold stats. fold eligible.
    apply Nat.ltb_lt in L. rewrite L. reflexivity.
  - intros L Q M NN X.
    assert (D : forall p, In p eligible -> detail (snd p) <> None)
      by (intros p; apply eligible_detail; exact M).
    destruct (bestLoop_spec (js "quality") eligible None neg_infinity D)
      as [bid [bs [E [[_ [_ U]]|[[k s] [d [Hp [Hd [-> [-> [_ U]]]]]]]]]]].
    { apply existsb_exists in X. destruct X as [p [Hp Hx]].
      destruct (detail (snd p)) as [d|] eqn:Ed; [|discriminate].
      pose proof (U p d Hp Ed) as C. unfold Num.gt in C. congruence. }
    cbn [fst snd] in *.
    assert (Hs : In (k, s) (variantStats stats))
      by (apply (eligible_In (minSamplesOf options) stats (k, s)); exact Hp).
    destruct (stats_entries experiment (k, s) Hs) as [v [Hv [Ek _]]].
    cbn [fst] in Ek.
    destruct (find_first (fun v => isBest (Some k) (id v))
                (variants experiment) v Hv)
      as [w [F [Hw Bw]]].
    { simpl. rewrite <- Ek. apply jsstring_eqb_refl. }
    simpl in Bw. apply jsstring_eqb_eq in Bw.
    destruct (runnerUp_exists eligible k) as [ru [R [Hru Nru]]].
    { apply another_key; [apply eligible_NoDup | exact L]. }
    exists w, s, d, ru. rewrite Bw.
    split.
    { unfold pickWinner. cbv zeta. fold stats. fold eligible.
      apply Nat.ltb_ge in L. rewrite L, Q, E.
      rewrite (objGet_In k s (variantStats stats) (stats_NoDup experiment) Hs).
      rewrite F, R, Hd. reflexivity. }
    split; [exact Hw|]. split; [exact Hp|]. split; [exact Hd|].
    split; [apply (stats_samples experiment (k, s) Hs)|].
    split; [|split; [exact R | split; [exact Hru | split; [exact Nru|]]]].
    + intros p d' Hp' Hd'. rewrite <- !scoreFor_quality.
      now apply (U p d').
    + apply (runnerUp_max eligible k ru NN R).
  - apply confidenceOf_spec.
Qed.

Lemma winner_selection_witness :
  let options := mkOptions None None in
  let stats := getExperimentStats Samples.rivals in
  let eligible := eligibleOf (minSamplesOf options) stats in
  (2 <= length eligible)%nat
  /\ optimizeForOf options = js "quality"
  /\ (0 <? minSamplesOf options) = true
  /\ forallb (fun p => negb (is_nan (meanOf (snd p)))) eligible = true
  /\ existsb (fun p => match detail (snd p) with
                       | Some d => neg_infinity <? scoreFor (js "quality") d
                       | None => false
                       end) eligible = true
  /\ exists w ws d (ru : jsstring * VariantStats),
       pickWinner Samples.rivals options
       = Ok (mkPick (Some w)
               (confidenceOf (samples ws)
                  (mean (quality d) - meanOf (snd ru)))
               stats)
       /\ In (id w, ws) eligible
       /\ detail ws = Some d
       /\ In ru eligible
       /\ fst ru <> id w
       /\ (forall q, In q eligible -> fst q <> id w ->
             Num.gt (meanOf (snd q)) (meanOf (snd ru)) = false).
Proof.
  cbv zeta.
  assert (L : (2 <= length (eligibleOf (minSamplesOf (mkOptions None None))
                              (getExperimentStats Samples.rivals)))%nat)
    by (vm_compute; repeat constructor).
  assert (NN : forallb (fun p => negb (is_nan (meanOf (snd p))))
                 (eligibleOf (minSamplesOf (mkOptions None None))
                    (getExperimentStats Samples.rivals)) = true)
    by (vm_compute; reflexivity).
  assert (X : existsb
                (fun p => match detail (snd p) with
                          | Some d => neg_infinity <? scoreFor (js "quality") d
                          | None => false
                          end)
                (eligibleOf (minSamplesOf (mkOptions None None))
                   (getExperimentStats Samples.rivals)) = true)
    by (vm_compute; reflexivity).
  destruct (winner_selection Samples.rivals (mkOptions None None))
    as [_ [_ [_ [W _]]]].
  destruct (W L eq_refl eq_refl NN X)
    as [w [ws [d [ru [P [_ [I [Dd [_ [_ [_ [Hru [Nru Mru]]]]]]]]]]]]].
  split; [exact L|]. split; [reflexivity|]. split; [reflexivity|].
  split; [exact NN|]. split; [exact X|]. exists w, ws, d, ru.
  repeat split; assumption.
Defined.

(** C8, as stated, fails on three variants with thirty samples each:
    [steady] scores 0.9 and never escalates, [plain] scores 0.7 and never
    escalates, [shaky] scores 0.95 and always escalates.  [steady] wins,
    [plain] comes second in the ranking by [qualityMean * (1 -
    escalationRate * 0.5)], and [steady] leads its quality mean by more than
    0.10; yet the confidence is [low], because the runner-up the source
    compares with is [shaky], whose quality mean is the highest.  And with
    [minSamples] 0 a variant without samples is eligible, and no winner is
    returned at all. *)
Lemma runner_up_is_by_quality_mean :
  let stats := variantStats (getExperimentStats Samples.rivals) in
  let objective (k : jsstring) :=
    match objGet k stats with
    | Some s => match detail s with
                | Some d => scoreFor (js "quality") d
                | None => nan
                end
    | None => nan
    end in
  let qualityMean (k : jsstring) :=
    match objGet k stats with
    | Some s => meanOf s
    | None => nan
    end in
  match pickWinner Samples.rivals (mkOptions None None) with
  | Ok pick => option_map id (winner pick) = Some (js "steady")
               /\ confidence pick = low
  | Throw _ => False
  end
  /\ List.map (fun p => (fst p, samples (snd p)))
              (eligibleOf 5 (getExperimentStats Samples.rivals))
     = [(js "steady", 30%nat); (js "plain", 30%nat); (js "shaky", 30%nat)]
  /\ Num.gt (objective (js "steady")) (objective (js "plain")) = true
  /\ Num.gt (objective (js "plain")) (objective (js "shaky")) = true
  /\ Num.gt (qualityMean (js "steady") - qualityMean (js "plain")) 0.1 = true
  /\ Num.gt (qualityMean (js "shaky")) (qualityMean (js "steady")) = true
  /\ length (eligibleOf 0 (getExperimentStats Scenarios.fresh)) = 2%nat
  /\ pickWinner Scenarios.fresh (mkOptions (Some 0) None)
     = Throw (TypeError "mean").
Proof.
  cbv zeta.
  repeat match goal with |- _ /\ _ => split end;
    vm_compute; repeat split.
Qed.

(** On the sample experiment of the tests the winner is the variant scoring
    0.92, with high confidence. *)
Lemma trial_winner :
  match pickWinner Samples.trial (mkOptions None None) with
  | Ok pick => option_map id (winner pick) = Some (js "good")
               /\ confidence pick = high
  | Throw _ => False
  end.
Proof. vm_compute. split; reflexivity. Qed.

End WinnerClaims.

(* ================================================================== *)
(** * The matcher: where a match leads, and counting matches *)

Module RegexFacts.

Import Regex Positions.

Lemma reaches_refl st : reaches st st.
Proof. exists []. split; [reflexivity | simpl; lia]. Qed.

Lemma reaches_trans st1 st2 st3 :
  reaches st1 st2 -> reaches st2 st3 -> reaches st1 st3.
Proof.
  intros [p [A1 H1]] [q [A2 H2]]. exists (p ++ q). split.
  - rewrite A1, A2. now rewrite app_assoc.
  - rewrite H2, H1, length_app. lia.
Qed.

(** Whatever a pattern matches, the continuation is run at a position
    further in the subject. *)
Lemma rmatch_reaches (r : regex) :
  forall (A : Type) (st : mstate) (k : mstate -> option A) (a : A),
    rmatch r st k = Some a ->
    exists st', reaches st st' /\ k st' = Some a.
Proof.
  induction r as [|p|r1 IH1 r2 IH2|r1 IH1 r2 IH2|g r1 IH1|n r1 IH1| |];
    intros A st k a; simpl.
  - intros H. exists st. split; [apply reaches_refl | exact H].
  - destruct (ahead st) as [|c rest] eqn:E; [discriminate|].
    destruct (p c); [|discriminate]. intros H.
    eexists. split; [|exact H]. exists [c]. split; simpl; [exact E | lia].
  - intros H. apply IH1 in H. destruct H as [st1 [R1 H]].
    apply IH2 in H. destruct H as [st2 [R2 H]].
    exists st2. split; [eapply reaches_trans; eassumption | exact H].
  - destruct (rmatch r1 st k) eqn:E.
    + intros [= <-]. apply IH1 in E. exact E.
    + apply IH2.
  - generalize (length (ahead st)). intros fuel. revert st a.
    induction fuel as [|fuel IHf]; intros st a.
    + intros H. exists st. split; [apply reaches_refl | exact H].
    + set (again := rmatch r1 st _).
      assert (G : forall b, again = Some b ->
                  exists st', reaches st st' /\ k st' = Some b).
      { intros b Hb. unfold again in Hb. apply IH1 in Hb.
        destruct Hb as [st1 [R1 Hb]].
        destruct (Nat.eqb (here st1) (here st)); [discriminate|].
        apply IHf in Hb. destruct Hb as [st2 [R2 Hb]].
        exists st2. split; [eapply reaches_trans; eassumption | exact Hb]. }
      destruct g.
      * destruct again as [b|] eqn:E.
        -- intros [= <-]. apply G. reflexivity.
        -- intros H. exists st. split; [apply reaches_refl | exact H].
      * destruct (k st) as [b|] eqn:E.
        -- intros [= <-]. exists st. split; [apply reaches_refl | exact E].
        -- intros H. apply G. exact H.
  - intros H. apply IH1 in H. destruct H as [st1 [[pre [A1 H1]] H]].
    eexists. split; [|exact H]. exists pre. split; simpl; assumption.
  - destruct (before st) as [c|].
    + destruct (isLineTerminator c); [|discriminate].
      intros H. exists st. split; [apply reaches_refl | exact H].
    + intros H. exists st. split; [apply reaches_refl | exact H].
  - destruct (xorb _ _); [|discriminate].
    intros H. exists st. split; [apply reaches_refl | exact H].
Qed.

(** ** Literal patterns *)

(** A literal matches exactly where the subject continues with its code
    units. *)
Lemma lit_sound (cs : jsstring) :
  forall (A : Type) (st : mstate) (k : mstate -> option A) (a : A),
    rmatch (seqs (List.map chr cs)) st k = Some a ->
    exists st', consumed st st' cs /\ k st' = Some a.
Proof.
  induction cs as [|c cs IH]; intros A st k a.
  - simpl. intros H. exists st. split; [|exact H].
    split; [reflexivity | simpl; lia].
  - destruct cs as [|c' cs].
    + simpl. destruct (ahead st) as [|x rest] eqn:E; [discriminate|].
      destruct (N.eqb c x) eqn:C; [|discriminate].
      apply N.eqb_eq in C. subst x. intros H.
      eexists. split; [|exact H]. split; simpl; [exact E | lia].
    + change (seqs (List.map chr (c :: c' :: cs)))
        with (Seq (chr c) (seqs (List.map chr (c' :: cs)))).
      simpl rmatch. destruct (ahead st) as [|x rest] eqn:E; [discriminate|].
      destruct (N.eqb c x) eqn:C; [|discriminate].
      apply N.eqb_eq in C. subst x. intros H.
      apply IH in H. destruct H as [st' [[A1 H1] H]].
      exists st'. split; [|exact H]. split.
      * rewrite E. simpl in A1. rewrite A1. reflexivity.
      * rewrite H1. simpl. lia.
Qed.

Lemma lit_complete (cs : jsstring) :
  forall (A : Type) (st : mstate) (k : mstate -> option A) (rest : jsstring),
    ahead st = cs ++ rest ->
    exists st', rmatch (seqs (List.map chr cs)) st k = k st'
                /\ ahead st' = rest.
Proof.
  induction cs as [|c cs IH]; intros A st k rest E.
  - exists st. split; [reflexivity | exact E].
  - destruct cs as [|c' cs].
    + simpl. rewrite E. simpl. rewrite N.eqb_refl.
      eexists. split; reflexivity.
    + change (seqs (List.map chr (c :: c' :: cs)))
        with (Seq (chr c) (seqs (List.map chr (c' :: cs)))).
      simpl rmatch. rewrite E. simpl app. cbv iota. rewrite N.eqb_refl.
      apply IH. reflexivity.
Qed.

(** ** Searching *)

Lemma search_sound (r : regex) (fuel : nat) :
  forall st b e,
    search_fuel fuel r st = Some (b, e) ->
    reaches st b /\ rmatch r b Some = Some e.
Proof.
  induction fuel as [|fuel IH]; intros st b e; simpl;
    destruct (rmatch r st Some) as [e0|] eqn:M.
  - intros [= <- <-]. split; [apply reaches_refl | exact M].
  - discriminate.
  - intros [= <- <-]. split; [apply reaches_refl | exact M].
  - unfold advance. destruct (ahead st) as [|c rest] eqn:E; [discriminate|].
    intros H. apply IH in H. destruct H as [[pre [A1 H1]] H].
    split; [|exact H]. exists (c :: pre). split; simpl in *.
    + rewrite E, A1. reflexivity.
    + rewrite H1. lia.
Qed.

(** The search for a literal stops at or before any place where the
    literal stands. *)
Lemma search_lit_finds (cs : jsstring) (pre : jsstring) :
  forall (st : mstate) (rest : jsstring) (fuel : nat),
    ahead st = pre ++ cs ++ rest ->
    (length pre <= fuel)%nat ->
    exists b e pre1,
      search_fuel fuel (seqs (List.map chr cs)) st = Some (b, e)
      /\ consumed st b pre1
      /\ (length pre1 <= length pre)%nat
      /\ consumed b e cs.
Proof.
  induction pre as [|c pre IH]; intros st rest fuel E L.
  - destruct (lit_complete cs _ st Some rest E) as [st' [M _]].
    exists st, st', []. 
    assert (S0 : search_fuel fuel (seqs (List.map chr cs)) st = Some (st, st'))
      by (destruct fuel; simpl; rewrite M; reflexivity).
    split; [exact S0|].
    split; [split; [reflexivity | simpl; lia]|].
    split; [simpl; lia|].
    destruct (lit_sound cs _ st Some st' M) as [st2 [C [= ->]]]. exact C.
  - destruct (rmatch (seqs (List.map chr cs)) st Some) as [e|] eqn:M.
    + exists st, e, [].
      assert (S0 : search_fuel fuel (seqs (List.map chr cs)) st = Some (st, e))
        by (destruct fuel; simpl; rewrite M; reflexivity).
      split; [exact S0|].
      split; [split; [reflexivity | simpl; lia]|].
      split; [simpl; lia|].
      destruct (lit_sound cs _ st Some e M) as [st2 [C [= ->]]]. exact C.
    + destruct fuel as [|fuel]; [simpl in L; lia|].
      simpl. rewrite M. unfold advance. rewrite E. simpl app. cbv iota.
      destruct (IH (MState (Some c) (S (here st)) (pre ++ cs ++ rest) [])
                   rest fuel eq_refl) as [b [e [pre1 [S1 [[A1 H1] [L1 C]]]]]].
      { simpl in L. lia. }
      exists b, e, (c :: pre1).
      split; [exact S1|].
      split; [split; simpl in *; [rewrite E, A1; reflexivity | rewrite H1; lia]|].
      split; [simpl; lia | exact C].
Qed.

(** Of two ways to cut a string, the one with the shorter head has the
    longer tail. *)
Lemma suffix_of_longer {A : Type} (a b s1 s2 : list A) :
  a ++ s1 = b ++ s2 -> (length a <= length b)%nat ->
  exists x, s1 = x ++ s2.
Proof.
  revert b. induction a as [|y a IH]; intros b E L.
  - exists b. exact E.
  - destruct b as [|z b]; [simpl in L; lia|].
    simpl in E. injection E as _ E. apply (IH b E). simpl in L. lia.
Qed.

(** ** Counting *)

Section Counting.

Variables (big : regex) (cs : jsstring).

Hypothesis cs_nonempty : cs <> [].

(** Every match of [big] goes through an occurrence of the literal. *)
Hypothesis big_contains :
  forall b e, rmatch big b Some = Some e ->
    exists pre mid,
      ahead b = pre ++ cs ++ mid ++ ahead e
      /\ here e = (here b + length pre + length cs + length mid)%nat.

Lemma matches_fuel_le (f2 : nat) :
  forall (f1 : nat) (st st' : mstate),
    (exists x, ahead st = x ++ ahead st') ->
    (length (ahead st) < f1)%nat ->
    (length (matches_fuel f2 big st')
     <= length (matches_fuel f1 (seqs (List.map chr cs)) st))%nat.
Proof.
  assert (N : (0 < length cs)%nat)
    by (destruct cs; [congruence | simpl; lia]).
  induction f2 as [|f2 IH]; intros f1 st st' [x X] F; simpl; [lia|].
  destruct (search big st') as [[b e]|] eqn:S2; [|simpl; lia].
  apply search_sound in S2. destruct S2 as [[y [Y _]] M].
  destruct (big_contains b e M) as [pre [mid [B Hb]]].
  assert (Q : Nat.eqb (here e) (here b) = false)
    by (apply Nat.eqb_neq; lia).
  rewrite Q.
  destruct f1 as [|f1]; [lia|]. simpl.
  assert (E : ahead st = (x ++ y ++ pre) ++ cs ++ (mid ++ ahead e)).
  { rewrite X, Y, B. now rewrite <- !app_assoc. }
  destruct (search_lit_finds cs (x ++ y ++ pre) st (mid ++ ahead e)
              (length (ahead st)) E)
    as [b1 [e1 [pre1 [S1 [[A1 _] [L1 [C1 H1]]]]]]].
  { rewrite E, !length_app. lia. }
  unfold search. rewrite S1.
  assert (Q1 : Nat.eqb (here e1) (here b1) = false)
    by (apply Nat.eqb_neq; lia).
  rewrite Q1. simpl.
  apply le_n_S. apply IH.
  - simpl. apply (suffix_of_longer (pre1 ++ cs) ((x ++ y ++ pre) ++ cs ++ mid)).
    + rewrite <- !app_assoc. rewrite <- !app_assoc in E.
      rewrite <- C1, <- A1. exact E.
    + rewrite !length_app. rewrite !length_app in L1. lia.
  - simpl. rewrite A1, C1, !length_app in F. lia.
Qed.

(** The pattern matches no more often than the literal occurs. *)
Lemma count_le (s : jsstring) :
  (count big s <= count (seqs (List.map chr cs)) s)%nat.
Proof.
  unfold count, matches. apply matches_fuel_le.
  - exists []. reflexivity.
  - simpl. lia.
Qed.

End Counting.

End RegexFacts.

(* ================================================================== *)
(** * The parser: a unit lies between its two tags *)

Module ParserFacts.

Import Regex Positions RegexFacts QualityGate.

Lemma seq_reaches (r1 r2 : regex) (st e : mstate) :
  rmatch (Seq r1 r2) st Some = Some e ->
  exists st1, reaches st st1 /\ rmatch r2 st1 Some = Some e.
Proof. cbn [rmatch]. apply rmatch_reaches. Qed.

Lemma seq_lit (s : string) (r2 : regex) (st e : mstate) :
  rmatch (Seq (lit s) r2) st Some = Some e ->
  exists st1, consumed st st1 (js s) /\ rmatch r2 st1 Some = Some e.
Proof.
  change (rmatch (Seq (lit s) r2) st Some)
    with (rmatch (seqs (List.map chr (js s))) st
            (fun st1 => rmatch r2 st1 Some)).
  apply lit_sound.
Qed.

Lemma responseRegex_seq :
  responseRegex
  = Seq (lit "<response>")
     (Seq (star space)
      (Seq (lit "<text>")
       (Seq (Group 1 (lazy_star any))
        (Seq (lit "</text>")
         (Seq (star space)
          (Seq (lit "<probability>")
           (Seq (Group 2 (lazy_star any))
            (Seq (lit "</probability>")
             (Seq (star space) (lit "</response>")))))))))).
Proof. reflexivity. Qed.

(** A unit starts with the opening tag. *)
Lemma response_opens (b e : mstate) :
  rmatch responseRegex b Some = Some e ->
  exists pre mid,
    ahead b = pre ++ js "<response>" ++ mid ++ ahead e
    /\ here e
       = (here b + length pre + length (js "<response>") + length mid)%nat.
Proof.
  rewrite responseRegex_seq. intros H.
  apply seq_lit in H. destruct H as [st1 [[A1 H1] H]].
  apply rmatch_reaches in H. destruct H as [st2 [[mid [A2 H2]] [= ->]]].
  exists [], mid. split.
  - rewrite A1, A2. reflexivity.
  - rewrite H2, H1. cbn [length]. lia.
Qed.

(** A unit ends with the closing tag. *)
Lemma response_closes (b e : mstate) :
  rmatch responseRegex b Some = Some e ->
  exists pre mid,
    ahead b = pre ++ js "</response>" ++ mid ++ ahead e
    /\ here e
       = (here b + length pre + length (js "</response>") + length mid)%nat.
Proof.
  rewrite responseRegex_seq. intros H.
  pose proof (reaches_refl b) as R. revert R H. generalize b at 2 3.
  do 10 (intros st R H; apply seq_reaches in H;
         destruct H as [st1 [R1 H]];
         pose proof (reaches_trans _ _ _ R R1) as R2; clear R R1;
         revert st1 R2 H; clear st).
  intros st R H.
  apply (lit_sound (js "</response>")) in H.
  destruct H as [e' [[A1 H1] [= ->]]].
  destruct R as [pre [A0 H0]].
  exists pre, []. split.
  - rewrite A0, A1. reflexivity.
  - rewrite H1, H0. cbn [length app]. lia.
Qed.

End ParserFacts.

(* ================================================================== *)
(** * The unit scorer: the outcome of each check *)

Module UnitOutcomes.

Import QualityGate GateFacts ScorerFacts ScoreValues.
Open Scope float_scope.

(** ** What each check of the unit scorer does to the tally *)

Lemma checkProbability_outcome r k t :
  checkProbability r k t = t
  \/ checkProbability r k t
     = penalize t (mkIssue cat_probability critical
                     (MsgProbabilityOutOfRange k (probability r))) 0.3.
Proof.
  unfold checkProbability. cbv zeta.
  destruct (is_nan _ || _ || _)%bool; auto.
Qed.

Lemma checkRubric_outcome r k t :
  checkRubric r k t = t
  \/ checkRubric r k t
     = penalize t (mkIssue cat_rubric info
                     (MsgNonStandardFormat k (bestScoreCount r))) 0.05
  \/ exists n, (1 <= n <= 9)%nat
       /\ checkRubric r k t
          = penalize t (mkIssue cat_rubric warning (MsgRubricFound k n))
              (0.1 * Num.ofZ (10 - Z.of_nat n) / 10).
Proof.
  unfold checkRubric.
  destruct (_ && _)%bool; [right; left; reflexivity|].
  destruct (Nat.ltb (bestScoreCount r) 10 && Nat.ltb 0 (formatA r))%bool
    eqn:E; [|left; reflexivity].
  right; right. exists (formatA r). split; [|reflexivity].
  apply andb_true_iff in E. destruct E as [E1 E2].
  apply Nat.ltb_lt in E1, E2. unfold bestScoreCount in E1. lia.
Qed.

Lemma checkTotal_outcome r k t :
  checkTotal r k t = t
  \/ checkTotal r k t
     = penalize t (mkIssue cat_rubric info (MsgMissingTotalVariant k)) 0.03
  \/ checkTotal r k t
     = penalize t (mkIssue cat_rubric warning (MsgMissingTotal k)) 0.1.
Proof.
  unfold checkTotal.
  destruct (_ && _)%bool; [right; left; reflexivity|].
  destruct (_ && _)%bool; [right; right | left]; reflexivity.
Qed.

Lemma checkPivot_outcome r k t :
  checkPivot r k t = t
  \/ checkPivot r k t
     = penalize t (mkIssue cat_structure warning (MsgNoPivot k)) 0.1.
Proof.
  unfold checkPivot. cbv zeta.
  destruct (_ && _)%bool; [right | left]; reflexivity.
Qed.

Lemma checkInjection_outcome patterns r k t :
  checkInjection patterns r k t = t
  \/ exists source,
       checkInjection patterns r k t
       = penalize t (mkIssue cat_injection critical (MsgInjection k source))
           0.4.
Proof.
  destruct (existsb (fun p => Regex.test (snd p) (text r)) patterns) eqn:M.
  - right. destruct (checkInjection_match _ r k t M) as [s [_ H]].
    exists s. exact H.
  - left. apply checkInjection_none, M.
Qed.

Lemma checkLength_outcome r k t :
  checkLength r k t = t
  \/ checkLength r k t
     = penalize t (mkIssue cat_formatting warning
                     (MsgShort k (length (text r)))) 0.2
  \/ checkLength r k t
     = penalize t (mkIssue cat_formatting warning
                     (MsgLong k (length (text r)))) 0.05.
Proof.
  unfold checkLength. cbv zeta.
  destruct (Nat.ltb (length (text r)) 100) eqn:Hs,
           (Nat.ltb 10000 (length (text r))) eqn:Hl.
  - assert (E : 10000%nat = (100 * 100)%nat) by (vm_compute; reflexivity).
    rewrite E in Hl. apply Nat.ltb_lt in Hs, Hl. lia.
  - right; left; reflexivity.
  - right; right; reflexivity.
  - left; reflexivity.
Qed.

(** The score of a unit is between 0 and 1, and it is 1 exactly when the
    unit raised no issue. *)
Lemma scoreResponse_outcome r k :
  (0 <=? total (scoreResponse r k)) = true
  /\ (total (scoreResponse r k) <=? 1) = true
  /\ ((found (scoreResponse r k) = [] /\ total (scoreResponse r k) = 1)
      \/ (found (scoreResponse r k) <> []
          /\ (total (scoreResponse r k) <? 1) = true)).
Proof.
  unfold scoreResponse, unclamped, beforeInjection. cbv zeta.
  set (t1 := checkProbability r k (mkTally 1.0 [])).
  set (t2 := checkRubric r k t1).
  set (t3 := checkTotal r k t2).
  set (t4 := checkPivot r k t3).
  set (t5 := checkInjection injectionPatterns r k t4).
  set (t6 := checkLength r k t5).
  pose proof (checkLength_outcome r k t5) as H6. fold t6 in H6.
  pose proof (checkInjection_outcome injectionPatterns r k t4) as H5.
  fold t5 in H5.
  pose proof (checkPivot_outcome r k t3) as H4. fold t4 in H4.
  pose proof (checkTotal_outcome r k t2) as H3. fold t3 in H3.
  pose proof (checkRubric_outcome r k t1) as H2. fold t2 in H2.
  pose proof (checkProbability_outcome r k (mkTally 1.0 [])) as H1.
  fold t1 in H1.
  assert (H2' :
    t2 = t1
    \/ (exists i, t2 = penalize t1 i 0.05)
    \/ (exists i, t2 = penalize t1 i (0.1 * Num.ofZ (10 - 1) / 10))
    \/ (exists i, t2 = penalize t1 i (0.1 * Num.ofZ (10 - 2) / 10))
    \/ (exists i, t2 = penalize t1 i (0.1 * Num.ofZ (10 - 3) / 10))
    \/ (exists i, t2 = penalize t1 i (0.1 * Num.ofZ (10 - 4) / 10))
    \/ (exists i, t2 = penalize t1 i (0.1 * Num.ofZ (10 - 5) / 10))
    \/ (exists i, t2 = penalize t1 i (0.1 * Num.ofZ (10 - 6) / 10))
    \/ (exists i, t2 = penalize t1 i (0.1 * Num.ofZ (10 - 7) / 10))
    \/ (exists i, t2 = penalize t1 i (0.1 * Num.ofZ (10 - 8) / 10))
    \/ (exists i, t2 = penalize t1 i (0.1 * Num.ofZ (10 - 9) / 10))).
  { destruct H2 as [H2|[H2|[n [Hn H2]]]];
      [left; exact H2 | right; left; eexists; exact H2 |].
    right; right.
    assert (Hc : (n = 1 \/ n = 2 \/ n = 3 \/ n = 4 \/ n = 5 \/ n = 6
                  \/ n = 7 \/ n = 8 \/ n = 9)%nat) by lia.
    repeat (destruct Hc as [Hc|Hc];
            [subst n; rewrite H2; eauto 12|]).
    subst n; rewrite H2; eauto 12. }
  clear H2.
  clearbody t1 t2 t3 t4 t5 t6.
  repeat match goal with
         | H : _ \/ _ |- _ => destruct H as [H|H]
         | H : exists _, _ |- _ => destruct H as [? H]
         end;
    subst t6 t5 t4 t3 t2 t1;
    cbn [penalize total found app];
    (split; [vm_compute; reflexivity|]);
    (split; [vm_compute; reflexivity|]);
    first [ left; split; [reflexivity | vm_compute; reflexivity]
          | right; split; [discriminate | vm_compute; reflexivity] ].
Qed.

End UnitOutcomes.

(* ================================================================== *)
(** * The quality gate: the templates of its issues *)

Module IssueFacts.

Import QualityGate GateFacts ScorerFacts UnitOutcomes.
Open Scope float_scope.

(** ** The templates of the issues *)

Section Templates.

Variable P : Issue -> Prop.

Hypothesis P_range : forall k p,
  P (mkIssue cat_probability critical (MsgProbabilityOutOfRange k p)).
Hypothesis P_format : forall k n,
  P (mkIssue cat_rubric info (MsgNonStandardFormat k n)).
Hypothesis P_rubric : forall k n,
  P (mkIssue cat_rubric warning (MsgRubricFound k n)).
Hypothesis P_variant : forall k,
  P (mkIssue cat_rubric info (MsgMissingTotalVariant k)).
Hypothesis P_total : forall k,
  P (mkIssue cat_rubric warning (MsgMissingTotal k)).
Hypothesis P_pivot : forall k,
  P (mkIssue cat_structure warning (MsgNoPivot k)).
Hypothesis P_injection : forall k source,
  P (mkIssue cat_injection critical (MsgInjection k source)).
Hypothesis P_short : forall k n,
  P (mkIssue cat_formatting warning (MsgShort k n)).
Hypothesis P_long : forall k n,
  P (mkIssue cat_formatting warning (MsgLong k n)).
Hypothesis P_tags : forall a b,
  P (mkIssue cat_xml critical (MsgMismatchedTags a b)).
Hypothesis P_blocks : P (mkIssue cat_xml critical MsgNoValidBlocks).
Hypothesis P_count : forall n,
  P (mkIssue cat_completeness warning (MsgOnlyResponses n)).
Hypothesis P_sum : forall p,
  P (mkIssue cat_probability critical (MsgProbabilitySum p)).
Hypothesis P_consistency : P (mkIssue cat_consistency warning MsgInconsistent).

Lemma penalize_all t i p :
  Forall P (found t) -> P i -> Forall P (found (penalize t i p)).
Proof.
  intros H Hi. rewrite found_penalize. apply Forall_app. split; [exact H|].
  constructor; [exact Hi | constructor].
Qed.

(** Every issue of a unit is an instance of one of the nine templates of
    the unit scorer. *)
Lemma unit_issues_all r k : Forall P (found (scoreResponse r k)).
Proof.
  rewrite scoreResponse_found. unfold unclamped, beforeInjection.
  set (t0 := mkTally 1.0 []).
  assert (H0 : Forall P (found t0)) by constructor.
  assert (H1 : Forall P (found (checkProbability r k t0))).
  { destruct (checkProbability_outcome r k t0) as [->| ->];
      [exact H0 | apply penalize_all; auto]. }
  set (t1 := checkProbability r k t0) in *.
  assert (H2 : Forall P (found (checkRubric r k t1))).
  { destruct (checkRubric_outcome r k t1) as [->|[->|[n [_ ->]]]];
      [exact H1 | apply penalize_all; auto | apply penalize_all; auto]. }
  set (t2 := checkRubric r k t1) in *.
  assert (H3 : Forall P (found (checkTotal r k t2))).
  { destruct (checkTotal_outcome r k t2) as [->|[->| ->]];
      [exact H2 | apply penalize_all; auto | apply penalize_all; auto]. }
  set (t3 := checkTotal r k t2) in *.
  assert (H4 : Forall P (found (checkPivot r k t3))).
  { destruct (checkPivot_outcome r k t3) as [->| ->];
      [exact H3 | apply penalize_all; auto]. }
  set (t4 := checkPivot r k t3) in *.
  assert (H5 : Forall P (found (checkInjection injectionPatterns r k t4))).
  { destruct (checkInjection_outcome injectionPatterns r k t4) as [->|[s ->]];
      [exact H4 | apply penalize_all; auto]. }
  set (t5 := checkInjection injectionPatterns r k t4) in *.
  destruct (checkLength_outcome r k t5) as [->|[->| ->]];
    [exact H5 | apply penalize_all; auto | apply penalize_all; auto].
Qed.

Lemma mapi_from_all {A : Type} (f : A -> nat -> Tally) (l : list A) i :
  (forall x j, Forall P (found (f x j))) ->
  Forall P (concat (List.map found (mapi_from i f l))).
Proof.
  intros H. revert i. induction l as [|x l IH]; intros i; simpl.
  - constructor.
  - apply Forall_app. split; [apply H | apply IH].
Qed.

(** Every issue of a report is an instance of one of the fourteen templates
    of the source. *)
Lemma report_issues_all (outputText : jsstring) :
  Forall P (issues (qualityGate outputText)).
Proof.
  assert (T : Forall P (found (checkTags outputText (mkTally 1.0 [])))).
  { rewrite checkTags_found. cbn [found app].
    destruct (Spec.tagsMismatched outputText); repeat constructor; auto. }
  destruct (parseResponses outputText) as [|u us] eqn:E.
  - rewrite (qualityGate_empty _ E). cbn [issues].
    apply Forall_app. split; [exact T | repeat constructor; auto].
  - assert (N : parseResponses outputText <> []) by congruence.
    rewrite (qualityGate_nonempty _ N). cbv zeta. cbn [issues].
    unfold documentChecks.
    rewrite checkConsistency_found, pushIssues_found.
    repeat (apply Forall_app; split).
    + unfold checkProbabilitySum, checkCount.
      destruct (Num.gt _ _); destruct (Nat.ltb _ _);
        repeat (apply penalize_all; auto); exact T.
    + unfold responseScores, mapi. apply mapi_from_all.
      intros x j. apply unit_issues_all.
    + destruct (Spec.inconsistent _); repeat constructor; auto.
Qed.

End Templates.

End IssueFacts.

(* ================================================================== *)
(** * Trimming *)

Module TrimFacts.

Lemma trimStart_head (s : jsstring) :
  forall c rest, trimStart s = c :: rest -> isSpace c = false.
Proof.
  induction s as [|x s IH]; simpl; intros c rest; [discriminate|].
  destruct (isSpace x) eqn:E; [apply IH|].
  intros [= <- _]. exact E.
Qed.

Lemma trimStart_fixed (s : jsstring) :
  (forall c rest, s = c :: rest -> isSpace c = false) -> trimStart s = s.
Proof.
  destruct s as [|x s]; simpl; intros H; [reflexivity|].
  now rewrite (H x s eq_refl).
Qed.

(** What [trimStart] removes is white space. *)
Lemma trimStart_split (s : jsstring) :
  exists sp, s = sp ++ trimStart s /\ forallb isSpace sp = true.
Proof.
  induction s as [|x s [sp [E F]]]; simpl.
  - exists []. split; reflexivity.
  - destruct (isSpace x) eqn:X.
    + exists (x :: sp). split; simpl; [now rewrite <- E | now rewrite X, F].
    + exists []. split; reflexivity.
Qed.

Lemma trimEnd_last (s : jsstring) :
  forall c front, trimEnd s = front ++ [c] -> isSpace c = false.
Proof.
  unfold trimEnd. intros c front H.
  apply (f_equal (@rev _)) in H. rewrite rev_involutive, rev_app_distr in H.
  simpl in H. eapply trimStart_head, H.
Qed.

(** [trimEnd] keeps a first code unit that is not white space. *)
Lemma trimEnd_head (s : jsstring) :
  (forall c rest, s = c :: rest -> isSpace c = false) ->
  forall c rest, trimEnd s = c :: rest -> isSpace c = false.
Proof.
  intros H c rest E.
  destruct (trimStart_split (rev s)) as [sp [R F]].
  apply (f_equal (@rev _)) in R. rewrite rev_involutive, rev_app_distr in R.
  fold (trimEnd s) in R. rewrite E in R. simpl in R.
  apply (H c _ R).
Qed.

Lemma trim_clean (s : jsstring) :
  (forall c rest, trim s = c :: rest -> isSpace c = false)
  /\ (forall c front, trim s = front ++ [c] -> isSpace c = false).
Proof.
  unfold trim. split.
  - apply trimEnd_head. apply trimStart_head.
  - apply trimEnd_last.
Qed.

Lemma trim_fixed (s : jsstring) :
  (forall c rest, s = c :: rest -> isSpace c = false) ->
  (forall c front, s = front ++ [c] -> isSpace c = false) ->
  trim s = s.
Proof.
  intros H L. unfold trim. rewrite (trimStart_fixed s H).
  unfold trimEnd. rewrite trimStart_fixed; [apply rev_involutive|].
  intros c rest E. apply (L c (rev rest)).
  apply (f_equal (@rev _)) in E. rewrite rev_involutive in E.
  exact E.
Qed.

End TrimFacts.

(* ================================================================== *)
(** * The injection patterns: where they are sure to match *)

Module DetectionFacts.

Import Regex Positions RegexFacts QualityGate.

(** ** Patterns that are sure to match *)

Lemma alt_matches {A : Type} (r1 r2 : regex) (st : mstate)
    (k : mstate -> option A) :
  rmatch r1 st k <> None \/ rmatch r2 st k <> None ->
  rmatch (Alt r1 r2) st k <> None.
Proof.
  simpl. destruct (rmatch r1 st k); [discriminate | tauto].
Qed.

(** A literal under the [i] flag matches the same code units in any
    letter case. *)
Lemma liti_complete (cs : jsstring) :
  forall (A : Type) (xs : jsstring) (st : mstate) (k : mstate -> option A)
         (rest : jsstring),
    List.map upper xs = List.map upper cs ->
    ahead st = xs ++ rest ->
    exists st', rmatch (seqs (List.map chri cs)) st k = k st'
                /\ ahead st' = rest.
Proof.
  induction cs as [|c cs IH]; intros A xs st k rest U E.
  - destruct xs; [|discriminate]. exists st. split; [reflexivity | exact E].
  - destruct xs as [|x xs]; [discriminate|].
    simpl in U. injection U as Ux U.
    destruct cs as [|c' cs].
    + destruct xs; [|discriminate].
      simpl. rewrite E. simpl. rewrite Ux, N.eqb_refl.
      eexists. split; reflexivity.
    + change (seqs (List.map chri (c :: c' :: cs)))
        with (Seq (chri c) (seqs (List.map chri (c' :: cs)))).
      simpl rmatch. rewrite E. simpl app. cbv iota.
      rewrite Ux, N.eqb_refl.
      apply (IH _ xs); [exact U | reflexivity].
Qed.

(** The search for a pattern succeeds when the pattern matches at some
    place of the subject, whatever stands before that place. *)
Lemma search_hits (r : regex) (rest : jsstring) :
  (forall b, ahead b = rest -> rmatch r b Some <> None) ->
  forall (pre : jsstring) (st : mstate) (fuel : nat),
    ahead st = pre ++ rest ->
    (length pre <= fuel)%nat ->
    search_fuel fuel r st <> None.
Proof.
  intros H. induction pre as [|c pre IH]; intros st fuel E L.
  - specialize (H st E).
    destruct fuel; simpl; destruct (rmatch r st Some); congruence.
  - destruct fuel as [|fuel]; [simpl in L; lia|].
    simpl. destruct (rmatch r st Some); [discriminate|].
    unfold advance. rewrite E. simpl.
    apply IH; [reflexivity | simpl in L; lia].
Qed.

Lemma test_hits (r : regex) (pre rest : jsstring) :
  (forall b, ahead b = rest -> rmatch r b Some <> None) ->
  test r (pre ++ rest) = true.
Proof.
  intros H. unfold test, search.
  pose proof (search_hits r rest H pre (start_of (pre ++ rest))
                (length (ahead (start_of (pre ++ rest)))) eq_refl) as S.
  destruct (search_fuel _ r _); [reflexivity|].
  elim S; [|reflexivity]. simpl. rewrite length_app. lia.
Qed.

(** [/<\/?(?:system|instruction|prompt)>/i] *)
Lemma tag_pattern :
  nth_error injectionPatterns 5
  = Some ("/<\/?(?:system|instruction|prompt)>/i"%string,
          Seq (lit "<")
            (Seq (opt (lit "/"))
               (Seq (Alt (liti "system")
                       (Alt (liti "instruction") (liti "prompt")))
                    (lit ">")))).
Proof. reflexivity. Qed.

Lemma seq_matches {A : Type} (r1 r2 : regex) (st : mstate)
    (k : mstate -> option A) :
  rmatch r1 st (fun st1 => rmatch r2 st1 k) <> None ->
  rmatch (Seq r1 r2) st k <> None.
Proof. intros H. exact H. Qed.

Lemma lit_matches {A : Type} (s : string) (rest : jsstring) (st : mstate)
    (k : mstate -> option A) :
  ahead st = js s ++ rest ->
  (forall st', ahead st' = rest -> k st' <> None) ->
  rmatch (lit s) st k <> None.
Proof.
  intros E H. destruct (lit_complete (js s) _ st k rest E) as [st' [R E']].
  unfold lit. rewrite R. apply H, E'.
Qed.

Lemma liti_matches {A : Type} (s : string) (xs rest : jsstring) (st : mstate)
    (k : mstate -> option A) :
  List.map upper xs = List.map upper (js s) ->
  ahead st = xs ++ rest ->
  (forall st', ahead st' = rest -> k st' <> None) ->
  rmatch (liti s) st k <> None.
Proof.
  intros U E H.
  destruct (liti_complete (js s) _ xs st k rest U E) as [st' [R E']].
  unfold liti. rewrite R. apply H, E'.
Qed.

(** The last injection pattern matches at a markup tag named system,
    instruction or prompt, opening or closing, in any letter case. *)
Lemma tag_matches (slash name post : jsstring) (b : mstate) :
  slash = [] \/ slash = js "/" ->
  List.map upper name = List.map upper (js "system")
  \/ List.map upper name = List.map upper (js "instruction")
  \/ List.map upper name = List.map upper (js "prompt") ->
  ahead b = js "<" ++ slash ++ name ++ js ">" ++ post ->
  rmatch (Seq (lit "<")
            (Seq (opt (lit "/"))
               (Seq (Alt (liti "system")
                       (Alt (liti "instruction") (liti "prompt")))
                    (lit ">")))) b Some <> None.
Proof.
  intros S N E.
  assert (Close : forall st3, ahead st3 = js ">" ++ post ->
            rmatch (lit ">") st3 Some <> None).
  { intros st3 E3. apply (lit_matches ">" post _ _ E3). discriminate. }
  assert (Name : forall st2, ahead st2 = name ++ js ">" ++ post ->
            rmatch (Seq (Alt (liti "system")
                           (Alt (liti "instruction") (liti "prompt")))
                      (lit ">")) st2 Some <> None).
  { intros st2 E2. apply seq_matches.
    destruct N as [N|[N|N]].
    - apply alt_matches. left.
      apply (liti_matches "system" name _ _ _ N E2 Close).
    - apply alt_matches. right. apply alt_matches. left.
      apply (liti_matches "instruction" name _ _ _ N E2 Close).
    - apply alt_matches. right. apply alt_matches. right.
      apply (liti_matches "prompt" name _ _ _ N E2 Close). }
  apply seq_matches. apply (lit_matches "<" _ _ _ E).
  intros st1 E1. apply seq_matches. unfold opt. apply alt_matches.
  destruct S as [-> | ->].
  - right. apply Name, E1.
  - left. apply (lit_matches "/" _ _ _ E1). exact Name.
Qed.

End DetectionFacts.

(* ================================================================== *)
(** * The unit scorer: the score left after an injection penalty *)

Module InjectedScore.

Import QualityGate GateFacts ScorerFacts ScoreValues UnitOutcomes.
Open Scope float_scope.

(** With 0.4 taken off for an injection artifact, whatever the other checks
    do, the unit is left with 0.6 at most. *)
Lemma injected_score r k :
  existsb (fun p => Regex.test (snd p) (text r)) injectionPatterns = true ->
  (total (scoreResponse r k) <=? 0.6) = true
  /\ (total (scoreResponse r k) <? QUALITY_THRESHOLD) = true.
Proof.
  intros M.
  unfold scoreResponse, unclamped, beforeInjection. cbv zeta.
  set (t1 := checkProbability r k (mkTally 1.0 [])).
  set (t2 := checkRubric r k t1).
  set (t3 := checkTotal r k t2).
  set (t4 := checkPivot r k t3).
  set (t5 := checkInjection injectionPatterns r k t4).
  set (t6 := checkLength r k t5).
  pose proof (checkLength_steps r k t5) as H6. fold t6 in H6.
  assert (H5 : total t5 = total t4 - 0.4).
  { destruct (checkInjection_match _ r k t4 M) as [s [_ H]].
    unfold t5. rewrite H. reflexivity. }
  pose proof (checkPivot_steps r k t3) as H4. fold t4 in H4.
  pose proof (checkTotal_steps r k t2) as H3. fold t3 in H3.
  pose proof (checkRubric_steps r k t1) as H2. fold t2 in H2.
  pose proof (checkProbability_steps r k (mkTally 1.0 [])) as H1.
  fold t1 in H1. cbn [total] in H1.
  assert (H2' :
    total t2 = total t1 \/ total t2 = total t1 - 0.05
    \/ total t2 = total t1 - 0.1 * Num.ofZ (10 - 1) / 10
    \/ total t2 = total t1 - 0.1 * Num.ofZ (10 - 2) / 10
    \/ total t2 = total t1 - 0.1 * Num.ofZ (10 - 3) / 10
    \/ total t2 = total t1 - 0.1 * Num.ofZ (10 - 4) / 10
    \/ total t2 = total t1 - 0.1 * Num.ofZ (10 - 5) / 10
    \/ total t2 = total t1 - 0.1 * Num.ofZ (10 - 6) / 10
    \/ total t2 = total t1 - 0.1 * Num.ofZ (10 - 7) / 10
    \/ total t2 = total t1 - 0.1 * Num.ofZ (10 - 8) / 10
    \/ total t2 = total t1 - 0.1 * Num.ofZ (10 - 9) / 10).
  { destruct H2 as [H2|[H2|[n [Hn H2]]]];
      [left; exact H2 | right; left; exact H2 |].
    right; right.
    assert (Hc : (n = 1 \/ n = 2 \/ n = 3 \/ n = 4 \/ n = 5 \/ n = 6
                  \/ n = 7 \/ n = 8 \/ n = 9)%nat) by lia.
    repeat (destruct Hc as [Hc|Hc]; [subst n; rewrite H2; tauto|]).
    subst n; rewrite H2; tauto. }
  clear H2. cbn [total].
  repeat match goal with
         | H : _ \/ _ |- _ => destruct H as [H|H]
         end;
    rewrite H6, H5, H4, H3, H2', H1; split; vm_compute; reflexivity.
Qed.

End InjectedScore.

(* ================================================================== *)
(** * The quality gate: parsing, unit scores and issues *)

Module GateProperties.

Import Regex Positions RegexFacts ParserFacts.
Import QualityGate GateFacts ScorerFacts UnitOutcomes IssueFacts.
Import TrimFacts OrderFacts DetectionFacts InjectedScore.
Open Scope float_scope.

(** X1.  The parser yields no more units than the text has opening tags, and
    no more than it has closing tags; a text without an opening tag, or
    without a closing tag, therefore gets the score 0 and fails the gate. *)
Theorem units_bounded_by_tags (outputText : jsstring) :
  (length (parseResponses outputText) <= openTags outputText)%nat
  /\ (length (parseResponses outputText) <= closeTags outputText)%nat
  /\ (openTags outputText = 0%nat \/ closeTags outputText = 0%nat ->
      responses (qualityGate outputText) = []
      /\ score (qualityGate outputText) = 0
      /\ passesGate (qualityGate outputText) = false).
Proof.
  assert (O : (length (parseResponses outputText) <= openTags outputText)%nat).
  { unfold parseResponses, openTags. rewrite length_map.
    apply (count_le responseRegex (js "<response>"));
      [discriminate | apply response_opens]. }
  assert (C : (length (parseResponses outputText) <= closeTags outputText)%nat).
  { unfold parseResponses, closeTags. rewrite length_map.
    apply (count_le responseRegex (js "</response>"));
      [discriminate | apply response_closes]. }
  split; [exact O|]. split; [exact C|].
  intros Z.
  assert (E : parseResponses outputText = []).
  { destruct (parseResponses outputText); [reflexivity|].
    simpl in O, C. lia. }
  rewrite (qualityGate_empty _ E). cbn [responses score passesGate]. auto.
Qed.

(** X2.  The score of a unit lies between 0 and 1, whatever the unit is and
    whichever checks fire. *)
Theorem unit_score_in_range (response : ResponseUnit) (index : nat) :
  (0 <=? total (scoreResponse response index)) = true
  /\ (total (scoreResponse response index) <=? 1) = true.
Proof.
  destruct (scoreResponse_outcome response index) as [L [U _]].
  split; assumption.
Qed.

(** X3.  A unit scores the full 1.0 exactly when the scorer raises no issue
    about it: no check takes anything off without reporting, and every
    reported issue lowers the score. *)
Theorem unit_full_score_iff_clean (response : ResponseUnit) (index : nat) :
  (found (scoreResponse response index) = []
   <-> total (scoreResponse response index) = 1)
  /\ (found (scoreResponse response index) <> []
      <-> (total (scoreResponse response index) <? 1) = true).
Proof.
  destruct (scoreResponse_outcome response index)
    as [_ [_ [[F T]|[F T]]]].
  - split; split; intros H; try assumption; try contradiction.
    rewrite T in H. vm_compute in H. discriminate.
  - split; split; intros H; try assumption; try contradiction.
    rewrite H in T. vm_compute in T. discriminate.
Qed.

(** X4.  In every report the critical issues are those of the categories
    [xml], [probability] and [injection], the informational ones are about the
    rubric, and an issue of category [schema] never comes from the gate. *)
Theorem severity_follows_category (outputText : jsstring) :
  Forall (fun i =>
            (severity i = critical
             <-> category i = cat_xml \/ category i = cat_probability
                 \/ category i = cat_injection)
            /\ (severity i = info -> category i = cat_rubric)
            /\ category i <> cat_schema)
         (issues (qualityGate outputText)).
Proof.
  apply report_issues_all; intros; cbn [severity category];
    (split; [split; [intros H; try discriminate H; auto
                    | intros [H|[H|H]]; try discriminate H; reflexivity]
            | split; [intros H; try discriminate H; reflexivity
                     | discriminate]]).
Qed.

(** X5.  The text of every parsed unit is trimmed: it neither starts nor ends
    with white space, and trimming it again changes nothing. *)
Theorem parsed_text_is_trimmed (outputText : jsstring) (u : ResponseUnit) :
  In u (parseResponses outputText) ->
  trim (text u) = text u
  /\ (forall c rest, text u = c :: rest -> isSpace c = false)
  /\ (forall c front, text u = front ++ [c] -> isSpace c = false).
Proof.
  unfold parseResponses. intros H. apply in_map_iff in H.
  destruct H as [m [<- _]]. cbn [text].
  destruct (trim_clean (capture 1 (snd m))) as [H L].
  split; [apply trim_fixed; assumption|]. split; assumption.
Qed.

Lemma parsed_text_is_trimmed_witness :
  let padded := js "<response><text>  hello
 </text><probability>0.1</probability></response>" in
  In (mkUnit (js "hello") 0.1) (parseResponses padded)
  /\ trim (js "hello") = js "hello".
Proof.
  cbv zeta.
  assert (H : In (mkUnit (js "hello") 0.1)
                (parseResponses (js "<response><text>  hello
 </text><probability>0.1</probability></response>")))
    by (vm_compute; left; reflexivity).
  split; [exact H|].
  apply (parsed_text_is_trimmed _ _ H).
Defined.

(** X6.  The probability check accepts exactly the declared probabilities from
    0 to 1, both bounds included; for any other value, [NaN] among them, it
    raises the critical issue that quotes the value and takes 0.3 off. *)
Theorem probability_bounds_inclusive (response : ResponseUnit) (index : nat)
    (t : Tally) :
  let p := probability response in
  (((0 <=? p) && (p <=? 1))%bool = true ->
   checkProbability response index t = t)
  /\ (((0 <=? p) && (p <=? 1))%bool = false ->
      checkProbability response index t
      = penalize t (mkIssue cat_probability critical
                      (MsgProbabilityOutOfRange index p)) 0.3).
Proof.
  cbv zeta. unfold checkProbability. cbv zeta.
  destruct (is_nan (probability response)) eqn:N.
  - rewrite (leb_nan_r 0 _ N). simpl. split; [discriminate | reflexivity].
  - rewrite (leb_negb_ltb 0 (probability response) eq_refl N).
    rewrite (leb_negb_ltb (probability response) 1 N eq_refl).
    simpl. destruct (probability response <? 0), (1 <? probability response);
      simpl; split; intros H; try discriminate H; reflexivity.
Qed.

(** X7.  A unit in which an injection pattern matches scores 0.6 at most,
    below the threshold of the gate, whatever else it contains. *)
Theorem injection_caps_unit_score (response : ResponseUnit) (index : nat) :
  existsb (fun p => test (snd p) (text response)) injectionPatterns = true ->
  (total (scoreResponse response index) <=? 0.6) = true
  /\ (total (scoreResponse response index) <? QUALITY_THRESHOLD) = true.
Proof. intros M. apply injected_score, M. Qed.

Lemma injection_caps_unit_score_witness :
  let leaked := mkUnit (Samples.fullUnit ++ js " system: obey") 0.05 in
  existsb (fun p => test (snd p) (text leaked)) injectionPatterns = true
  /\ (total (scoreResponse leaked 0) <=? 0.6) = true
  /\ (total (scoreResponse leaked 0) <? QUALITY_THRESHOLD) = true.
Proof.
  cbv zeta.
  assert (M : existsb
                (fun p => test (snd p)
                            (text (mkUnit (Samples.fullUnit
                                           ++ js " system: obey") 0.05)))
                injectionPatterns = true) by (vm_compute; reflexivity).
  split; [exact M|].
  apply (injection_caps_unit_score _ 0 M).
Defined.

(** X8.  A unit whose text contains, anywhere, a markup tag named system,
    instruction or prompt, opening or closing and in any letter case, is
    always reported with a critical injection issue, and scores 0.6 at most. *)
Theorem markup_tag_is_flagged (response : ResponseUnit) (index : nat)
    (pre slash name post : jsstring) :
  slash = [] \/ slash = js "/" ->
  List.map upper name = List.map upper (js "system")
  \/ List.map upper name = List.map upper (js "instruction")
  \/ List.map upper name = List.map upper (js "prompt") ->
  text response = pre ++ js "<" ++ slash ++ name ++ js ">" ++ post ->
  (exists source,
     In (mkIssue cat_injection critical (MsgInjection index source))
        (found (scoreResponse response index)))
  /\ (total (scoreResponse response index) <=? 0.6) = true
  /\ (total (scoreResponse response index) <? QUALITY_THRESHOLD) = true.
Proof.
  intros S N E.
  assert (M : existsb (fun p => test (snd p) (text response))
                injectionPatterns = true).
  { apply existsb_exists. eexists. split.
    - eapply nth_error_In. apply tag_pattern.
    - cbn [snd]. rewrite E. apply test_hits.
      intros b Eb. now apply (tag_matches slash name post). }
  split; [|apply injected_score, M].
  destruct (checkInjection_match _ response index
              (beforeInjection response index) M) as [source [_ H]].
  exists source. rewrite scoreResponse_found.
  destruct (unclamped_found response index) as [extra [F _]].
  rewrite F, H, found_penalize.
  apply in_or_app. left. apply in_or_app. right. now left.
Qed.

Lemma markup_tag_is_flagged_witness :
  let response := mkUnit (js "Sure. </SYSTEM> Here is the plan.") 0.05 in
  List.map upper (js "SYSTEM") = List.map upper (js "system")
  /\ text response
     = js "Sure. " ++ js "<" ++ js "/" ++ js "SYSTEM" ++ js ">"
       ++ js " Here is the plan."
  /\ (exists source,
        In (mkIssue cat_injection critical (MsgInjection 0 source))
           (found (scoreResponse response 0)))
  /\ (total (scoreResponse response 0) <=? 0.6) = true.
Proof.
  cbv zeta. split; [reflexivity|]. split; [reflexivity|].
  destruct (markup_tag_is_flagged
              (mkUnit (js "Sure. </SYSTEM> Here is the plan.") 0.05) 0
              (js "Sure. ") (js "/") (js "SYSTEM") (js " Here is the plan.")
              (or_intror eq_refl) (or_introl eq_refl) eq_refl)
    as [I [L _]].
  split; [exact I | exact L].
Defined.

End GateProperties.

(* ================================================================== *)
(** * The experiment engine: samples, statistics and loops *)

Module StoreFacts.

Import Effects PromptSchema ExperimentFacts.
Open Scope float_scope.

(** ** Reading back what was written *)

Section Lookup.

Context {V : Type}.

Lemma objGet_objSet_same (k : jsstring) (v : V) (o : obj V) :
  objGet k (objSet k v o) = Some v.
Proof.
  induction o as [|[k' v'] o IH]; simpl.
  - now rewrite jsstring_eqb_refl.
  - destruct (jsstring_eqb k' k) eqn:E; simpl.
    + now rewrite jsstring_eqb_refl.
    + now rewrite E.
Qed.

Lemma objGet_objSet_other (k k' : jsstring) (v : V) (o : obj V) :
  k' <> k -> objGet k' (objSet k v o) = objGet k' o.
Proof.
  intros N. induction o as [|[k0 v0] o IH]; simpl.
  - destruct (jsstring_eqb k k') eqn:E; [|reflexivity].
    apply jsstring_eqb_eq in E. congruence.
  - destruct (jsstring_eqb k0 k) eqn:E; simpl.
    + apply jsstring_eqb_eq in E. subst k0.
      destruct (jsstring_eqb k k') eqn:E'; [|reflexivity].
      apply jsstring_eqb_eq in E'. congruence.
    + destruct (jsstring_eqb k0 k'); [reflexivity | exact IH].
Qed.

Lemma objGet_Some_In (k : jsstring) (v : V) (o : obj V) :
  objGet k o = Some v -> In (k, v) o.
Proof.
  induction o as [|[k' v'] o IH]; simpl; [discriminate|].
  destruct (jsstring_eqb k' k) eqn:E.
  - apply jsstring_eqb_eq in E. intros [= ->]. left. now subst.
  - intros H. right. now apply IH.
Qed.

Lemma objGet_None_keys (k : jsstring) (o : obj V) :
  objGet k o = None <-> ~ In k (List.map fst o).
Proof.
  induction o as [|[k' v'] o IH]; simpl.
  - tauto.
  - destruct (jsstring_eqb k' k) eqn:E.
    + apply jsstring_eqb_eq in E. split; [discriminate | tauto].
    + apply jsstring_eqb_neq in E. rewrite IH. tauto.
Qed.

Lemma objGet_objAssign_same (k : jsstring) (v : V) (o : obj V) :
  k <> js "__proto__" -> objGet k (objAssign k v o) = Some v.
Proof.
  intros N. unfold objAssign. apply jsstring_eqb_neq in N. rewrite N.
  apply objGet_objSet_same.
Qed.

Lemma objGet_objAssign_other (k k' : jsstring) (v : V) (o : obj V) :
  k' <> k -> objGet k' (objAssign k v o) = objGet k' o.
Proof.
  intros N. unfold objAssign. destruct (jsstring_eqb k (js "__proto__")).
  - reflexivity.
  - now apply objGet_objSet_other.
Qed.

(** An assignment to [__proto__] leaves the entries as they are. *)
Lemma objAssign_proto (v : V) (o : obj V) : objAssign (js "__proto__") v o = o.
Proof. reflexivity. Qed.

End Lookup.

(** ** The samples of an experiment *)

Lemma recorded_same now e k m :
  recorded (recordMetric now e k m) k = recorded e k ++ [mkSample m now].
Proof.
  unfold recorded at 1. unfold recordMetric. cbn [metrics].
  now rewrite objGet_objSet_same.
Qed.

Lemma recorded_other now e k k' m :
  k' <> k -> recorded (recordMetric now e k m) k' = recorded e k'.
Proof.
  intros N. unfold recorded, recordMetric. cbn [metrics].
  now rewrite (objGet_objSet_other _ _ _ _ N).
Qed.

Lemma fold_lengths {A : Type} (o : obj (list A)) (a : nat) :
  fold_left (fun sum m => (sum + length (snd m))%nat) o a
  = (a + list_sum (List.map (fun m => length (snd m)) o))%nat.
Proof.
  revert a. induction o as [|x o IH]; intros a; simpl; [lia|].
  rewrite IH. lia.
Qed.

Lemma lengths_after_push {A : Type} (k : jsstring) (x : A) (o : obj (list A)) :
  list_sum (List.map (fun m => length (snd m))
              (objSet k (match objGet k o with Some l => l | None => [] end
                         ++ [x]) o))
  = S (list_sum (List.map (fun m => length (snd m)) o)).
Proof.
  induction o as [|[k' l'] o IH]; simpl; [reflexivity|].
  destruct (jsstring_eqb k' k); simpl.
  - rewrite length_app. simpl. lia.
  - rewrite IH. lia.
Qed.

(** ** The statistics of a variant depend on its own samples only *)

Lemma stats_get_ext (e1 e2 : Experiment) (k : jsstring)
    (vs : list PromptVariant) :
  recorded e1 k = recorded e2 k ->
  forall acc1 acc2 : obj VariantStats,
    objGet k acc1 = objGet k acc2 ->
    objGet k (fold_left (fun stats variant =>
                           objAssign (id variant)
                             (statsOf variant (recorded e1 (id variant)))
                             stats) vs acc1)
    = objGet k (fold_left (fun stats variant =>
                             objAssign (id variant)
                               (statsOf variant (recorded e2 (id variant)))
                               stats) vs acc2).
Proof.
  intros R. induction vs as [|v vs IH]; intros acc1 acc2 H; simpl;
    [exact H|].
  apply IH.
  destruct (jsstring_eqb (id v) k) eqn:E.
  - apply jsstring_eqb_eq in E. rewrite E.
    destruct (jsstring_eqb k (js "__proto__")) eqn:P.
    + apply jsstring_eqb_eq in P. rewrite P, !objAssign_proto.
      now rewrite <- P.
    + apply jsstring_eqb_neq in P.
      rewrite !objGet_objAssign_same by exact P. now rewrite R.
  - apply jsstring_eqb_neq in E.
    rewrite !objGet_objAssign_other by congruence. exact H.
Qed.

Lemma stats_fold_ext (e1 e2 : Experiment) (vs : list PromptVariant)
    (acc : obj VariantStats) :
  (forall v, In v vs -> recorded e1 (id v) = recorded e2 (id v)) ->
  fold_left (fun stats variant =>
               objAssign (id variant)
                 (statsOf variant (recorded e1 (id variant))) stats) vs acc
  = fold_left (fun stats variant =>
                 objAssign (id variant)
                   (statsOf variant (recorded e2 (id variant))) stats) vs acc.
Proof.
  revert acc. induction vs as [|v vs IH]; intros acc H; simpl;
    [reflexivity|].
  rewrite (H v) by now left. apply IH. intros v' Hv. apply H. now right.
Qed.

(** The statistics have an entry for a key exactly when a variant has it
    as its id and it is not [__proto__]. *)
Lemma stats_get_mem experiment (vs : list PromptVariant) :
  forall (acc : obj VariantStats) (k : jsstring),
    objGet k (fold_left (fun stats variant =>
                           objAssign (id variant)
                             (statsOf variant
                                (recorded experiment (id variant)))
                             stats) vs acc) <> None
    <-> (In k (List.map id vs) /\ k <> js "__proto__")
        \/ objGet k acc <> None.
Proof.
  induction vs as [|v vs IH]; intros acc k; simpl.
  - tauto.
  - rewrite IH. destruct (jsstring_eqb (id v) k) eqn:E.
    + apply jsstring_eqb_eq in E. rewrite E.
      destruct (jsstring_eqb k (js "__proto__")) eqn:P.
      * apply jsstring_eqb_eq in P. rewrite P, objAssign_proto. tauto.
      * apply jsstring_eqb_neq in P.
        rewrite objGet_objAssign_same by exact P.
        split; [intros _; left; split; [now left | exact P]
               | intros _; right; discriminate].
    + apply jsstring_eqb_neq in E.
      rewrite objGet_objAssign_other by congruence. tauto.
Qed.

(** ** Sorting keeps the elements *)

Lemma insertBy_In {A : Type} (after : A -> A -> bool) (x y : A) (l : list A) :
  In y (insertBy after x l) <-> y = x \/ In y l.
Proof.
  induction l as [|z l IH]; simpl.
  - intuition congruence.
  - destruct (after x z); simpl; rewrite ?IH; intuition congruence.
Qed.

Lemma sortBy_In {A : Type} (after : A -> A -> bool) (y : A) (l : list A) :
  In y (sortBy after l) <-> In y l.
Proof.
  induction l as [|x l IH]; simpl; [tauto|].
  rewrite insertBy_In, IH. intuition congruence.
Qed.

Lemma sortBy_length {A : Type} (after : A -> A -> bool) (l : list A) :
  length (sortBy after l) = length l.
Proof.
  induction l as [|x l IH]; simpl; [reflexivity|].
  rewrite <- IH. generalize (sortBy after l). intros s.
  induction s as [|z s IHs]; simpl; [reflexivity|].
  destruct (after x z); simpl; [now rewrite IHs | reflexivity].
Qed.

(** ** The selection loop *)

Lemma selectLoop_In rand (vs : list PromptVariant) :
  forall cumulative v,
    selectLoop rand cumulative vs = Some v -> In v vs.
Proof.
  induction vs as [|x vs IH]; intros c v; simpl; [discriminate|].
  destruct (Num.ge _ rand).
  - intros [= <-]. now left.
  - intros H. right. eapply IH, H.
Qed.

Lemma last_map_Some {A : Type} (l : list A) :
  l <> [] -> exists x, last (List.map Some l) None = Some x /\ In x l.
Proof.
  induction l as [|a l IH]; [congruence|]. intros _.
  destruct l as [|b l].
  - exists a. split; [reflexivity | now left].
  - destruct IH as [x [L I]]; [discriminate|].
    exists x. split; [exact L | now right].
Qed.

(** ** The winner loop *)

Lemma bestLoop_throws mode (l : list (jsstring * VariantStats)) :
  (exists p, In p l /\ detail (snd p) = None) ->
  forall bestId bestScore,
    bestLoop mode l bestId bestScore = Throw (TypeError "mean").
Proof.
  induction l as [|[k s] l IH]; intros [p [Hp Hd]] bestId bestScore;
    [contradiction|].
  simpl. destruct (detail s) as [d|] eqn:Ed; [|reflexivity].
  assert (X : exists p, In p l /\ detail (snd p) = None).
  { destruct Hp as [<-|Hp]; [simpl in Hd; congruence|].
    exists p. split; assumption. }
  destruct (Num.gt _ _); apply IH, X.
Qed.

Lemma bestLoop_id mode (l : list (jsstring * VariantStats)) :
  forall bestId bestScore k bs,
    bestLoop mode l bestId bestScore = Ok (Some k, bs) ->
    bestId = Some k \/ exists s, In (k, s) l.
Proof.
  induction l as [|[k0 s0] l IH]; intros bestId bestScore k bs; simpl.
  - intros [= -> _]. now left.
  - destruct (detail s0) as [d|]; [|discriminate].
    destruct (Num.gt _ _); intros H; apply IH in H.
    + destruct H as [[= ->]|[s H]]; right; [exists s0; now left|].
      exists s. now right.
    + destruct H as [H|[s H]]; [now left|]. right. exists s. now right.
Qed.

(** A count that is at least 5 as a Number is at least 5. *)
Lemma ge_five (n : nat) : Num.ge (Num.ofNat n) 5 = true -> (5 <= n)%nat.
Proof.
  do 5 (destruct n as [|n]; [vm_compute; discriminate|]).
  intros _. lia.
Qed.

(** ** The entries of the statistics *)

Lemma stats_get_keys experiment (k : jsstring) :
  objGet k (variantStats (getExperimentStats experiment)) <> None
  <-> In k (List.map id (variants experiment)) /\ k <> js "__proto__".
Proof.
  unfold getExperimentStats. cbn [variantStats].
  rewrite stats_get_mem. simpl. tauto.
Qed.

Lemma stats_get_entry experiment (k : jsstring) (s : VariantStats) :
  objGet k (variantStats (getExperimentStats experiment)) = Some s ->
  exists v, In v (variants experiment) /\ id v = k
            /\ s = statsOf v (recorded experiment k).
Proof.
  intros H. apply objGet_Some_In in H.
  destruct (stats_entries _ _ H) as [v [Hv [Ek Es]]].
  cbn [fst snd] in *. exists v. subst k. auto.
Qed.

(** An eligible entry has aggregates when the threshold is positive. *)
Lemma eligible_has_detail experiment minSamples p :
  (0 <? minSamples) = true ->
  In p (eligibleOf minSamples (getExperimentStats experiment)) ->
  detail (snd p) <> None.
Proof.
  intros M H. apply WinnerFacts.eligible_In in H. destruct H as [H G].
  pose proof (WinnerFacts.ge_ofNat_pos _ _ M G) as N.
  destruct (stats_entries _ _ H) as [v [_ [_ Es]]].
  rewrite Es in *. apply statsOf_detail.
  rewrite statsOf_samples in N. destruct (recorded experiment (id v));
    [contradiction | discriminate].
Qed.

End StoreFacts.

(* ================================================================== *)
(** * The experiment engine: selection, samples, statistics and winners *)

Module ExperimentProperties.

Import QualityGate Effects PromptSchema ExperimentFacts WinnerFacts StoreFacts.
Open Scope float_scope.

(** X9.  [selectVariant] returns a variant of the experiment whatever the draw
    and the weights are, [NaN] included; it returns nothing only when the
    experiment has no variant. *)
Theorem selectVariant_member (rand : float) (experiment : Experiment) :
  (selectVariant rand experiment = None <-> variants experiment = [])
  /\ (forall v, selectVariant rand experiment = Some v ->
                In v (variants experiment)).
Proof.
  unfold selectVariant.
  destruct (selectLoop rand 0 (variants experiment)) as [v|] eqn:L.
  - apply selectLoop_In in L. split.
    + split; [discriminate|]. intros E. rewrite E in L. contradiction.
    + intros v' [= <-]. exact L.
  - destruct (variants experiment) as [|a l] eqn:E.
    + split; [split; reflexivity | discriminate].
    + destruct (last_map_Some (a :: l)) as [x [Lx Ix]]; [discriminate|].
      rewrite Lx. split.
      * split; discriminate.
      * intros v [= <-]. exact Ix.
Qed.

(** X10.  [recordMetric] appends exactly one sample, stamped with the clock,
    to the samples of the variant it names, creating the list when the id is
    new; the samples of every other id, the variants and the name stay as they
    were, and the total number of samples grows by one. *)
Theorem recordMetric_appends (now : Z) (experiment : Experiment)
    (variantId : jsstring) (m : Metric) :
  let after := recordMetric now experiment variantId m in
  recorded after variantId = recorded experiment variantId ++ [mkSample m now]
  /\ (forall k, k <> variantId -> recorded after k = recorded experiment k)
  /\ totalSamples (getExperimentStats after)
     = S (totalSamples (getExperimentStats experiment))
  /\ variants after = variants experiment
  /\ name after = name experiment.
Proof.
  cbv zeta. split; [apply recorded_same|].
  split; [intros k N; now apply recorded_other|].
  split; [|split; reflexivity].
  unfold getExperimentStats, recordMetric. cbn [totalSamples metrics].
  rewrite !fold_lengths. unfold recorded. rewrite lengths_after_push.
  reflexivity.
Qed.

(** X11.  The statistics have one entry for each variant id other than
    [__proto__], which names the prototype of the object and makes no entry,
    and for nothing else; the entry counts the samples recorded under the id,
    has no aggregates exactly when there is no sample, and carries the weight
    of a variant with that id. *)
Theorem stats_per_variant (experiment : Experiment) :
  let stats := variantStats (getExperimentStats experiment) in
  NoDup (List.map fst stats)
  /\ (forall k, objGet k stats <> None
                <-> In k (List.map id (variants experiment))
                    /\ k <> js "__proto__")
  /\ (forall k s, objGet k stats = Some s ->
        samples s = length (recorded experiment k)
        /\ (detail s = None <-> recorded experiment k = [])
        /\ exists v, In v (variants experiment) /\ id v = k
                     /\ statsWeight s = weight v).
Proof.
  cbv zeta. split; [apply stats_NoDup|].
  split; [apply stats_get_keys|].
  intros k s H. destruct (stats_get_entry _ _ _ H) as [v [Hv [Ek ->]]].
  split; [apply statsOf_samples|]. split.
  - destruct (recorded experiment k); simpl; split; intros; congruence.
  - exists v. split; [exact Hv|]. split; [exact Ek|].
    destruct (recorded experiment k); reflexivity.
Qed.

(** X12.  Recording a sample for one id changes the statistics of that id
    only: its count grows by one and it has aggregates; every other entry is
    untouched, and a sample recorded under an id that no variant has shows in
    no entry at all. *)
Theorem recordMetric_updates_one_entry (now : Z) (experiment : Experiment)
    (variantId : jsstring) (m : Metric) :
  let before := variantStats (getExperimentStats experiment) in
  let after :=
    variantStats (getExperimentStats
                    (recordMetric now experiment variantId m)) in
  (forall k, k <> variantId -> objGet k after = objGet k before)
  /\ (forall s, objGet variantId before = Some s ->
        exists s', objGet variantId after = Some s'
                   /\ samples s' = S (samples s)
                   /\ detail s' <> None)
  /\ (~ In variantId (List.map id (variants experiment)) -> after = before).
Proof.
  cbv zeta. split; [|split].
  - intros k N. unfold getExperimentStats. cbn [variantStats].
    change (variants (recordMetric now experiment variantId m))
      with (variants experiment).
    apply stats_get_ext; [now apply recorded_other | reflexivity].
  - intros s H.
    assert (I : In variantId (List.map id (variants experiment))
                /\ variantId <> js "__proto__")
      by (apply stats_get_keys; congruence).
    destruct (objGet variantId
                (variantStats (getExperimentStats
                                 (recordMetric now experiment variantId m))))
      as [s'|] eqn:E'.
    2:{ apply (stats_get_keys (recordMetric now experiment variantId m))
          in I. contradiction. }
    exists s'. split; [reflexivity|].
    destruct (stats_get_entry _ _ _ H) as [v [_ [_ ->]]].
    destruct (stats_get_entry _ _ _ E') as [v' [_ [_ ->]]].
    rewrite recorded_same, !statsOf_samples, length_app. simpl.
    split; [lia|]. apply statsOf_detail.
    destruct (recorded experiment variantId); discriminate.
  - intros N. unfold getExperimentStats. cbn [variantStats].
    change (variants (recordMetric now experiment variantId m))
      with (variants experiment).
    apply stats_fold_ext. intros v Hv. apply recorded_other.
    intros E. apply N. rewrite <- E. now apply in_map.
Qed.

(** X13.  [percentile] never interpolates: what it returns is one of the
    values it was given; of an empty array it returns [undefined]. *)
Theorem percentile_member (arr : list float) (p : float) :
  (forall x, percentile arr p = Some x -> In x arr)
  /\ (arr = [] -> percentile arr p = None).
Proof.
  unfold percentile. cbv zeta. split.
  - intros x. destruct (ceil _) as [c|]; [|discriminate].
    intros H. apply nth_error_In in H. now apply sortBy_In in H.
  - intros ->. simpl. destruct (ceil _) as [c|]; [|reflexivity].
    destruct (Z.to_nat _); reflexivity.
Qed.

(** X14.  With the default options a variant is declared the winner only if it
    has at least five recorded samples, in every mode; and the winner is a
    variant of the experiment. *)
Theorem default_winner_has_five_samples (experiment : Experiment)
    (mode : option jsstring) (pick : Pick) (w : PromptVariant) :
  pickWinner experiment (mkOptions None mode) = Ok pick ->
  winner pick = Some w ->
  In w (variants experiment)
  /\ (5 <= length (recorded experiment (id w)))%nat
  /\ confidence pick <> insufficient_data.
Proof.
  unfold pickWinner. cbv zeta.
  set (stats := getExperimentStats experiment).
  set (eligible := eligibleOf (minSamplesOf (mkOptions None mode)) stats).
  destruct (Nat.ltb (length eligible) 2); [intros [= <-]; discriminate|].
  destruct (bestLoop _ eligible None neg_infinity) as [[bid bs]|] eqn:B;
    [|discriminate].
  assert (W : forall c, winner (mkPick (find (fun v => isBest bid (id v))
                                          (variants experiment)) c stats)
                        = Some w ->
              In w (variants experiment)
              /\ (5 <= length (recorded experiment (id w)))%nat).
  { cbn [winner]. intros _ F. apply find_some in F. destruct F as [Hw Hb].
    split; [exact Hw|].
    destruct bid as [k|]; [|discriminate]. simpl in Hb.
    apply jsstring_eqb_eq in Hb. rewrite Hb.
    apply bestLoop_id in B. destruct B as [B|[s Hs]]; [discriminate|].
    apply eligible_In in Hs. destruct Hs as [Hs G]. cbn [fst snd] in *.
    apply ge_five in G.
    destruct (stats_entries _ _ Hs) as [v [_ [Ek Es]]]. cbn [fst snd] in *.
    rewrite Es, statsOf_samples, <- Ek in G. exact G. }
  assert (C : forall n gap, confidenceOf n gap <> insufficient_data).
  { intros n gap. unfold confidenceOf.
    destruct (_ && _)%bool; [discriminate|].
    destruct (_ && _)%bool; discriminate. }
  destruct (objGet _ (variantStats stats)) as [ws|]; [|discriminate].
  destruct (runnerUpOf eligible bid) as [ru|].
  - destruct (detail ws) as [d|]; [|discriminate].
    intros [= <-] F. destruct (W _ F) as [W1 W2].
    split; [exact W1|]. split; [exact W2 | apply C].
  - intros [= <-] F. destruct (W _ F) as [W1 W2].
    split; [exact W1|]. split; [exact W2 | apply C].
Qed.

Lemma default_winner_has_five_samples_witness :
  exists pick w,
    pickWinner Samples.trial (mkOptions None None) = Ok pick
    /\ winner pick = Some w
    /\ In w (variants Samples.trial)
    /\ (5 <= length (recorded Samples.trial (id w)))%nat.
Proof.
  destruct (pickWinner Samples.trial (mkOptions None None)) as [pick|e] eqn:P;
    [|vm_compute in P; discriminate].
  destruct (winner pick) as [w|] eqn:Hw.
  2:{ revert Hw. vm_compute in P. injection P as <-. discriminate. }
  exists pick, w.
  destruct (default_winner_has_five_samples Samples.trial None pick w P Hw)
    as [H1 [H2 _]].
  auto.
Defined.

(** X15.  In every mode the winner is an eligible variant whose objective no
    eligible variant exceeds: the quality mean divided by the mean token count
    in [cost] mode, by the mean latency (times 1000) in [latency] mode, a zero
    mean counting as 1, and the plain quality mean in a mode that is none of
    the three. *)
Theorem winner_maximizes_objective (experiment : Experiment)
    (options : Options) :
  let stats := getExperimentStats experiment in
  let eligible := eligibleOf (minSamplesOf options) stats in
  let objective := scoreFor (optimizeForOf options) in
  (forall d, scoreFor (js "cost") d
             = mean (quality d)
               / (if Num.truthy (tokenMean (tokens d))
                  then tokenMean (tokens d) else 1))
  /\ (forall d, scoreFor (js "latency") d
                = mean (quality d)
                  / (if Num.truthy (latencyMean (latency d))
                     then latencyMean (latency d) else 1)
                  * 1000)
  /\ (forall m d, m <> js "quality" -> m <> js "cost" -> m <> js "latency" ->
                  scoreFor m d = mean (quality d))
  /\ ((2 <= length eligible)%nat ->
      (0 <? minSamplesOf options) = true ->
      existsb (fun p => match detail (snd p) with
                        | Some d => neg_infinity <? objective d
                        | None => false
                        end) eligible = true ->
      exists w ws d c,
        pickWinner experiment options = Ok (mkPick (Some w) c stats)
        /\ c <> insufficient_data
        /\ In w (variants experiment)
        /\ In (id w, ws) eligible
        /\ detail ws = Some d
        /\ (forall p d', In p eligible -> detail (snd p) = Some d' ->
              Num.gt (objective d') (objective d) = false)).
Proof.
  cbv zeta.
  set (stats := getExperimentStats experiment).
  set (eligible := eligibleOf (minSamplesOf options) stats).
  split; [reflexivity|]. split; [reflexivity|]. split.
  { intros m d N1 N2 N3. unfold scoreFor.
    apply jsstring_eqb_neq in N1, N2, N3. now rewrite N1, N2, N3. }
  intros L M X.
  assert (D : forall p, In p eligible -> detail (snd p) <> None)
    by (intros p; apply eligible_has_detail; exact M).
  destruct (bestLoop_spec (optimizeForOf options) eligible None neg_infinity D)
    as [bid [bs [E [[_ [_ U]]|[[k s] [d [Hp [Hd [-> [-> [_ U]]]]]]]]]]].
  { apply existsb_exists in X. destruct X as [p [Hp Hx]].
    destruct (detail (snd p)) as [d|] eqn:Ed; [|discriminate].
    pose proof (U p d Hp Ed) as C. unfold Num.gt in C. congruence. }
  cbn [fst snd] in *.
  assert (Hs : In (k, s) (variantStats stats))
    by (apply (eligible_In (minSamplesOf options) stats (k, s)); exact Hp).
  destruct (stats_entries experiment (k, s) Hs) as [v [Hv [Ek _]]].
  cbn [fst] in Ek.
  destruct (find_first (fun v => isBest (Some k) (id v))
              (variants experiment) v Hv)
    as [w [F [Hw Bw]]].
  { simpl. rewrite <- Ek. apply jsstring_eqb_refl. }
  simpl in Bw. apply jsstring_eqb_eq in Bw.
  destruct (runnerUp_exists eligible k) as [ru [R _]].
  { apply another_key; [apply eligible_NoDup | exact L]. }
  exists w, s, d,
    (confidenceOf (samples s) (mean (quality d) - meanOf (snd ru))).
  rewrite Bw. split.
  { unfold pickWinner. cbv zeta. fold stats. fold eligible.
    apply Nat.ltb_ge in L. rewrite L, E.
    rewrite (objGet_In k s (variantStats stats) (stats_NoDup experiment) Hs).
    rewrite F, R, Hd. reflexivity. }
  split.
  { unfold confidenceOf. destruct (_ && _)%bool; [discriminate|].
    destruct (_ && _)%bool; discriminate. }
  split; [exact Hw|]. split; [exact Hp|]. split; [exact Hd|].
  intros p d' Hp' Hd'. now apply (U p d').
Qed.

Lemma winner_maximizes_objective_witness :
  let options := mkOptions None (Some (js "cost")) in
  let stats := getExperimentStats Samples.trial in
  let eligible := eligibleOf (minSamplesOf options) stats in
  (2 <= length eligible)%nat
  /\ (0 <? minSamplesOf options) = true
  /\ exists w ws d c,
       pickWinner Samples.trial options = Ok (mkPick (Some w) c stats)
       /\ In (id w, ws) eligible
       /\ detail ws = Some d
       /\ (forall p d', In p eligible -> detail (snd p) = Some d' ->
             Num.gt (scoreFor (js "cost") d') (scoreFor (js "cost") d)
             = false).
Proof.
  cbv zeta.
  assert (L : (2 <= length (eligibleOf
                              (minSamplesOf (mkOptions None (Some (js "cost"))))
                              (getExperimentStats Samples.trial)))%nat)
    by (vm_compute; apply le_n).
  assert (X : existsb
                (fun p => match detail (snd p) with
                          | Some d =>
                              neg_infinity
                              <? scoreFor
                                   (optimizeForOf
                                      (mkOptions None (Some (js "cost")))) d
                          | None => false
                          end)
                (eligibleOf (minSamplesOf (mkOptions None (Some (js "cost"))))
                   (getExperimentStats Samples.trial)) = true)
    by (vm_compute; reflexivity).
  destruct (winner_maximizes_objective Samples.trial
              (mkOptions None (Some (js "cost"))))
    as [_ [_ [_ W]]].
  destruct (W L eq_refl X) as [w [ws [d [c [P [_ [_ [I [Dd U]]]]]]]]].
  split; [exact L|]. split; [reflexivity|].
  exists w, ws, d, c. auto.
Defined.

(** X16.  When an eligible variant has no sample at all, which takes a
    [minSamples] of zero or less, and two or more variants are eligible,
    [pickWinner] does not return: reading the quality mean of the variant
    without samples is a [TypeError]. *)
Theorem winner_without_samples_throws (experiment : Experiment)
    (options : Options) (p : jsstring * VariantStats) :
  let eligible :=
    eligibleOf (minSamplesOf options) (getExperimentStats experiment) in
  (2 <= length eligible)%nat ->
  In p eligible ->
  samples (snd p) = 0%nat ->
  pickWinner experiment options = Throw (TypeError "mean").
Proof.
  cbv zeta. intros L Hp Z.
  unfold pickWinner. cbv zeta.
  apply Nat.ltb_ge in L. rewrite L.
  rewrite bestLoop_throws; [reflexivity|].
  exists p. split; [exact Hp|].
  apply eligible_In in Hp. destruct Hp as [Hp _].
  destruct (stats_entries _ _ Hp) as [v [_ [_ Es]]].
  rewrite Es in *. rewrite statsOf_samples in Z.
  destruct (recorded experiment (id v)); [reflexivity | discriminate].
Qed.

Lemma winner_without_samples_throws_witness :
  let options := mkOptions (Some 0) None in
  let p := (js "a", mkVariantStats 0 (Some 0.7) None) in
  (2 <= length (eligibleOf (minSamplesOf options)
                  (getExperimentStats Scenarios.fresh)))%nat
  /\ In p (eligibleOf (minSamplesOf options)
             (getExperimentStats Scenarios.fresh))
  /\ pickWinner Scenarios.fresh options = Throw (TypeError "mean").
Proof.
  cbv zeta.
  assert (L : (2 <= length (eligibleOf
                              (minSamplesOf (mkOptions (Some 0%float) None))
                              (getExperimentStats Scenarios.fresh)))%nat)
    by (vm_compute; apply le_n).
  assert (I : In (js "a", mkVariantStats 0 (Some 0.7) None)
                (eligibleOf (minSamplesOf (mkOptions (Some 0) None))
                   (getExperimentStats Scenarios.fresh)))
    by (vm_compute; left; reflexivity).
  split; [exact L|]. split; [exact I|].
  apply (winner_without_samples_throws Scenarios.fresh
           (mkOptions (Some 0) None)
           (js "a", mkVariantStats 0 (Some 0.7) None) L I eq_refl).
Defined.

(** X17.  [defineExperiment] refuses an empty list of variants; of a non-empty
    one it keeps the ids and the providers in order, gives every variant a
    weight, and starts without samples: every entry of the statistics counts 0
    and, with the default options, [pickWinner] reports insufficient data in
    every mode. *)
Theorem fresh_experiment_has_no_winner (now : Z) (name : jsstring)
    (vs : list PromptVariant) :
  (vs = [] ->
   defineExperiment now name vs = Throw (Error ExperimentWithoutVariant))
  /\ (vs <> [] ->
      exists e,
        defineExperiment now name vs = Ok e
        /\ List.map id (variants e) = List.map id vs
        /\ List.map provider (variants e) = List.map provider vs
        /\ Forall (fun v => weight v <> None) (variants e)
        /\ totalSamples (getExperimentStats e) = 0%nat
        /\ (forall k s, objGet k (variantStats (getExperimentStats e)) = Some s ->
              samples s = 0%nat /\ detail s = None)
        /\ (forall mode,
              pickWinner e (mkOptions None mode)
              = Ok (mkPick None insufficient_data (getExperimentStats e)))).
Proof.
  split; [intros ->; reflexivity|]. intros N.
  destruct vs as [|v0 vs0]; [congruence|].
  set (vs := v0 :: vs0) in *.
  eexists. split; [reflexivity|].
  set (e := mkExperiment _ _ _ _).
  assert (R : forall k, recorded e k = []) by reflexivity.
  assert (Z : forall p, In p (variantStats (getExperimentStats e)) ->
                        samples (snd p) = 0%nat /\ detail (snd p) = None).
  { intros p Hp. destruct (stats_entries _ _ Hp) as [v [_ [_ Es]]].
    rewrite Es, R. split; reflexivity. }
  split; [unfold e; cbn [variants]; now rewrite map_map|].
  split; [unfold e; cbn [variants]; now rewrite map_map|].
  split.
  { unfold e. cbn [variants]. apply Forall_forall. intros v Hv.
    apply in_map_iff in Hv. destruct Hv as [x [<- _]]. discriminate. }
  split; [reflexivity|]. split.
  { intros k s H. apply objGet_Some_In in H. apply (Z (k, s) H). }
  intros mode. unfold pickWinner. cbv zeta.
  assert (E : eligibleOf (minSamplesOf (mkOptions None mode))
                (getExperimentStats e) = []).
  { unfold eligibleOf.
    generalize (fun p H => Z p (Permutation_in p
                                  (objEntries_perm
                                     (variantStats (getExperimentStats e))) H)).
    generalize (objEntries (variantStats (getExperimentStats e))).
    intros l H. induction l as [|p l IH]; [reflexivity|].
    simpl. destruct (H p (or_introl eq_refl)) as [-> _].
    change (Num.ge (Num.ofNat 0) (minSamplesOf (mkOptions None mode)))
      with false.
    apply IH. intros q Hq. apply H. now right. }
  rewrite E. reflexivity.
Qed.

Lemma fresh_experiment_has_no_winner_witness :
  Samples.heavyVariants <> []
  /\ exists e,
       defineExperiment 0 (js "heavy") Samples.heavyVariants = Ok e
       /\ List.map id (variants e) = [js "a"; js "b"]
       /\ pickWinner e (mkOptions None None)
          = Ok (mkPick None insufficient_data (getExperimentStats e)).
Proof.
  assert (N : Samples.heavyVariants <> []) by discriminate.
  split; [exact N|].
  destruct (fresh_experiment_has_no_winner 0 (js "heavy")
              Samples.heavyVariants) as [_ H].
  destruct (H N) as [e [D [I [_ [_ [_ [_ P]]]]]]].
  exists e. split; [exact D|]. split; [exact I | apply P].
Defined.

End ExperimentProperties.

(* ================================================================== *)
(** * The router: the calls and warnings of each tier *)

Module TraceFacts.

Import QualityGate Effects PromptSchema Router RouterFacts.
Open Scope float_scope.

(** Tier 1 never throws; it calls MiniMax once when the key is configured
    and not at all otherwise; what it returns is an unescalated MiniMax
    result. *)
Lemma tierMiniMax_trace env config idea totalStart w :
  exists early,
    fst (tierMiniMax env config idea totalStart w) = Ok early
    /\ calls (snd (tierMiniMax env config idea totalStart w))
       = calls w ++ (if truthyStr (minimaxKey config)
                     then [CallMiniMax] else [])
    /\ (forall r, early = Some r ->
          provider r = js "minimax" /\ escalated r = false
          /\ truthyStr (minimaxKey config) = true)
    /\ length (warnings (snd (tierMiniMax env config idea totalStart w)))
       = (length (warnings w)
          + match early with
            | Some _ => 0
            | None => if truthyStr (minimaxKey config) then 1 else 0
            end)%nat.
Proof.
  destruct w as [rd dr cs ws tm ul]. run.
  destruct (truthyStr (minimaxKey config)) eqn:K; run.
  2:{ exists None. split; [reflexivity|].
      split; [now rewrite app_nil_r|].
      split; [discriminate | cbn; lia]. }
  destruct (fetchMiniMax env _ _) as [response|e]; run.
  2:{ exists None. repeat split; try discriminate.
      rewrite length_app. reflexivity. }
  destruct (ok response); run.
  2:{ exists None. repeat split; try discriminate.
      rewrite length_app. reflexivity. }
  destruct (bodyJson response) as [data|e]; run.
  2:{ exists None. repeat split; try discriminate.
      rewrite length_app. reflexivity. }
  destruct (passesGate _ || _)%bool; run.
  - eexists. split; [reflexivity|]. split; [reflexivity|].
    split; [intros r [= <-]; repeat split | cbn; lia].
  - exists None. repeat split; try discriminate.
    rewrite length_app. reflexivity.
Qed.

(** Tier 2 calls OpenAI, then possibly Anthropic; the result it returns
    comes from the last provider it called. *)
Lemma tierOpenAI_trace env config idea totalStart w :
  let out := tierOpenAI env config idea totalStart w in
  (calls (snd out) = calls w ++ [CallOpenAI]
   \/ calls (snd out) = calls w ++ [CallOpenAI; CallAnthropic])
  /\ (forall r, fst out = Ok r ->
        (provider r = js "openai"
         /\ escalated r = truthyStr (minimaxKey config)
         /\ calls (snd out) = calls w ++ [CallOpenAI]
         /\ warnings (snd out) = warnings w)
        \/ (provider r = js "anthropic" /\ escalated r = true
            /\ calls (snd out) = calls w ++ [CallOpenAI; CallAnthropic]
            /\ length (warnings (snd out)) = S (length (warnings w))))
  /\ (forall e, fst out = Throw e ->
        openaiCreate env (length (calls w)) (openaiRequest config idea)
        = Throw e
        \/ (e = Error AnthropicKeyMissing
            /\ truthyStr (anthropicKey config) = false)
        \/ anthropicCreate env (S (length (calls w)))
             (anthropicRequest config idea) = Throw e).
Proof.
  cbv zeta. unfold openaiRequest, anthropicRequest.
  destruct w as [rd dr cs ws tm ul]. run.
  destruct (openaiCreate env _ _) as [a|e]; run.
  2:{ split; [now left|]. split; [discriminate|].
      intros e' [= <-]. now left. }
  destruct (passesGate _ || _)%bool; run.
  { split; [now left|]. split; [|discriminate].
    intros r [= <-]. left. repeat split. }
  destruct (truthyStr (anthropicKey config)) eqn:K; run.
  2:{ split; [now left|]. split; [discriminate|].
      intros e' [= <-]. right. left. split; reflexivity. }
  rewrite length_app, Nat.add_1_r. rewrite <- !app_assoc. cbn [app].
  destruct (anthropicCreate env _ _) as [m|e]; run.
  - split; [now right|]. split; [|discriminate].
    intros r [= <-]. right. repeat split.
    rewrite length_app, Nat.add_1_r. reflexivity.
  - split; [now right|]. split; [discriminate|].
    intros e' [= <-]. right. right. reflexivity.
Qed.

End TraceFacts.

(* ================================================================== *)
(** * The router: the tiers with escalation off, and without a key *)

Module EscalationFacts.

Import QualityGate Effects PromptSchema Router RouterFacts TraceFacts.
Open Scope float_scope.

(** With escalation off, tier 1 returns whatever MiniMax answered. *)
Lemma tierMiniMax_answer env config idea totalStart w response data :
  allowEscalationOf config = false ->
  truthyStr (minimaxKey config) = true ->
  fetchMiniMax env (length (calls w))
    (mkChatRequest (minimaxKey config) (js "MiniMax-Text-01")
       defaultSystemPrompt (userContent idea)) = Ok response ->
  ok response = true ->
  bodyJson response = Ok data ->
  exists r,
    fst (tierMiniMax env config idea totalStart w) = Ok (Some r)
    /\ quality r = score (qualityGate (orStr (choiceContent data) [])).
Proof.
  intros A K F O J. destruct w as [rd dr cs ws tm ul]. cbn [calls] in F.
  run. rewrite K. run.
  destruct (minimaxKey config) as [[|c key]|]; try discriminate.
  cbn [orStr] in *. rewrite F. run. rewrite O. run. rewrite J. run.
  rewrite A. run. rewrite orb_true_r.
  eexists. split; reflexivity.
Qed.

(** With escalation off, tier 2 stops after OpenAI. *)
Lemma tierOpenAI_no_escalation env config idea totalStart w :
  allowEscalationOf config = false ->
  let out := tierOpenAI env config idea totalStart w in
  calls (snd out) = calls w ++ [CallOpenAI]
  /\ (forall e, fst out = Throw e ->
        openaiCreate env (length (calls w)) (openaiRequest config idea)
        = Throw e)
  /\ (forall response,
        openaiCreate env (length (calls w)) (openaiRequest config idea)
        = Ok response ->
        exists r, fst out = Ok r
                  /\ provider r = js "openai"
                  /\ escalated r = truthyStr (minimaxKey config)
                  /\ quality r = score (qualityGate (output_text response))).
Proof.
  intros A. cbv zeta. unfold openaiRequest.
  destruct w as [rd dr cs ws tm ul]. run.
  destruct (openaiCreate env _ _) as [a|e]; run.
  2:{ split; [reflexivity|]. split; [intros e' [= <-]; reflexivity|].
      discriminate. }
  rewrite A. run. rewrite orb_true_r.
  split; [reflexivity|]. split; [discriminate|].
  intros response [= <-]. eexists. split; [reflexivity|]. repeat split.
Qed.

(** Tier 2 without an Anthropic key. *)
Lemma tierOpenAI_keyless env config idea totalStart w response :
  truthyStr (anthropicKey config) = false ->
  allowEscalationOf config = true ->
  openaiCreate env (length (calls w)) (openaiRequest config idea)
  = Ok response ->
  passesGate (qualityGate (output_text response)) = false ->
  let out := tierOpenAI env config idea totalStart w in
  fst out = Throw (Error AnthropicKeyMissing)
  /\ calls (snd out) = calls w ++ [CallOpenAI]
  /\ warnings (snd out)
     = warnings w
       ++ [WarnOpenAIScored (score (qualityGate (output_text response)))
             (qualityThresholdOf config)].
Proof.
  intros K A F G. cbv zeta. unfold openaiRequest in F.
  destruct w as [rd dr cs ws tm ul]. cbn [calls] in F.
  run. rewrite F. run. cbn [outputText]. rewrite G, A. run. rewrite K. run.
  repeat split.
Qed.

End EscalationFacts.

(* ================================================================== *)
(** * The quality gate: what a passing verdict implies *)

Module VerdictFacts.

Import QualityGate GateFacts.
Open Scope float_scope.

(** A report that passes has units. *)
Lemma passing_has_units (outputText : jsstring) :
  passesGate (qualityGate outputText) = true ->
  responses (qualityGate outputText) <> [].
Proof.
  destruct (parseResponses outputText) as [|u us] eqn:E.
  - rewrite (qualityGate_empty _ E). discriminate.
  - assert (N : parseResponses outputText <> []) by congruence.
    rewrite (qualityGate_nonempty _ N). cbv zeta. cbn [responses].
    intros _. exact N.
Qed.

(** A report that passes has a composite of at least 0.70. *)
Lemma passing_composite (outputText : jsstring) :
  passesGate (qualityGate outputText) = true ->
  Num.ge (Spec.composite outputText) 0.70 = true.
Proof.
  intros P.
  assert (N : parseResponses outputText <> []).
  { intros E. rewrite (qualityGate_empty _ E) in P. discriminate. }
  rewrite (qualityGate_nonempty _ N) in P. cbv zeta in P.
  cbn [passesGate] in P.
  unfold Spec.composite, Spec.clamp01.
  rewrite <- documentChecks_total, <- avgResponseScore_mean. exact P.
Qed.

End VerdictFacts.

(* ================================================================== *)
(** * The router: the report behind the result of each tier *)

Module ReportFacts.

Import QualityGate Effects PromptSchema Router RouterFacts TraceFacts.
Import VerdictFacts.
Open Scope float_scope.

(** What tier 1 returns is the report of the gate on the reply of MiniMax,
    a passing one when escalation is allowed. *)
Lemma tierMiniMax_report env config idea totalStart w r :
  fst (tierMiniMax env config idea totalStart w) = Ok (Some r) ->
  exists text,
    quality r = score (qualityGate text)
    /\ responses r = QualityGate.responses (qualityGate text)
    /\ issues r = QualityGate.issues (qualityGate text)
    /\ (allowEscalationOf config = true ->
        passesGate (qualityGate text) = true).
Proof.
  destruct w as [rd dr cs ws tm ul]. run.
  destruct (truthyStr (minimaxKey config)); run; [|discriminate].
  destruct (fetchMiniMax env _ _) as [response|e]; run; [|discriminate].
  destruct (ok response); run; [|discriminate].
  destruct (bodyJson response) as [data|e]; run; [|discriminate].
  destruct (passesGate _ || _)%bool eqn:D; run; [|discriminate].
  intros [= <-]. eexists. cbn [quality responses issues].
  split; [reflexivity|]. split; [reflexivity|]. split; [reflexivity|].
  intros A. rewrite A, orb_false_r in D. exact D.
Qed.

(** What tier 2 returns is the report of the gate on the reply of the
    provider it names; on the reply of OpenAI it is a passing one when
    escalation is allowed. *)
Lemma tierOpenAI_report env config idea totalStart w r :
  fst (tierOpenAI env config idea totalStart w) = Ok r ->
  exists text,
    quality r = score (qualityGate text)
    /\ responses r = QualityGate.responses (qualityGate text)
    /\ issues r = QualityGate.issues (qualityGate text)
    /\ (allowEscalationOf config = true ->
        provider r <> js "anthropic" ->
        passesGate (qualityGate text) = true).
Proof.
  destruct w as [rd dr cs ws tm ul]. run.
  destruct (openaiCreate env _ _) as [a|e]; run; [|discriminate].
  destruct (passesGate _ || _)%bool eqn:D; run.
  - intros [= <-]. eexists. cbn [quality responses issues].
    split; [reflexivity|]. split; [reflexivity|]. split; [reflexivity|].
    intros A _. rewrite A, orb_false_r in D. exact D.
  - destruct (truthyStr (anthropicKey config)); run; [|discriminate].
    destruct (anthropicCreate env _ _) as [m|e]; run; [|discriminate].
    intros [= <-]. eexists. cbn [quality responses issues provider].
    split; [reflexivity|]. split; [reflexivity|]. split; [reflexivity|].
    intros _ N. elim N. reflexivity.
Qed.

End ReportFacts.

(* ================================================================== *)
(** * The router: call order, failures, timing and experiments *)

Module RouterProperties.

Import QualityGate Effects PromptSchema Router RouterFacts TraceFacts.
Import EscalationFacts ExperimentFacts StoreFacts VerdictFacts ReportFacts.
Open Scope float_scope.

(** X18.  [evaluate] calls the providers in the order of their cost, each at
    most once, starting with MiniMax exactly when its key is configured; the
    result it returns comes from the last provider called, and is marked
    escalated exactly when more than one provider was called. *)
Theorem evaluate_call_order (env : Env) (config : RouterConfig)
    (idea : jsstring) :
  let out := evaluate env config idea initial in
  let cs := calls (snd out) in
  (if truthyStr (minimaxKey config)
   then cs = [CallMiniMax] \/ cs = [CallMiniMax; CallOpenAI]
        \/ cs = [CallMiniMax; CallOpenAI; CallAnthropic]
   else cs = [CallOpenAI] \/ cs = [CallOpenAI; CallAnthropic])
  /\ (forall r, fst out = Ok r ->
        escalated r = Nat.ltb 1 (length cs)
        /\ length (warnings (snd out)) = pred (length cs)
        /\ ((provider r = js "minimax" /\ last cs CallOpenAI = CallMiniMax)
            \/ (provider r = js "openai" /\ last cs CallMiniMax = CallOpenAI)
            \/ (provider r = js "anthropic"
                /\ last cs CallMiniMax = CallAnthropic))).
Proof.
  cbv zeta. rewrite evaluate_tiers. cbv zeta.
  destruct (tierMiniMax_trace env config idea (now env 0)
              (mkWorld 1 0 [] [] (mkTiming 0 0 0 0) []))
    as [early [E [C [P W]]]].
  destruct (tierMiniMax env config idea (now env 0) _) as [res w].
  cbn [fst snd calls warnings app length] in *. subst res.
  destruct early as [r|].
  - destruct (P r eq_refl) as [P1 [P2 K]]. rewrite K in *.
    cbn [fst snd]. rewrite C. split; [now left|].
    intros r' [= <-]. split; [exact P2|]. split; [exact W|].
    left. split; [exact P1 | reflexivity].
  - pose proof (tierOpenAI_trace env config idea (now env 0) w) as T.
    cbv zeta in T. destruct T as [T1 [T2 _]].
    destruct (tierOpenAI env config idea (now env 0) w) as [res w'].
    cbn [fst snd] in *. rewrite C in *.
    destruct (truthyStr (minimaxKey config)); cbn [app] in *.
    + split; [destruct T1 as [-> | ->]; auto|].
      intros r H.
      destruct (T2 r H) as [[Q1 [Q2 [-> Q3]]]|[Q1 [Q2 [-> Q3]]]];
        (split; [exact Q2|]);
        (split; [rewrite Q3, ?W; reflexivity|]);
        [right; left | right; right];
        (split; [exact Q1 | reflexivity]).
    + split; [destruct T1 as [-> | ->]; auto|].
      intros r H.
      destruct (T2 r H) as [[Q1 [Q2 [-> Q3]]]|[Q1 [Q2 [-> Q3]]]];
        (split; [exact Q2|]);
        (split; [rewrite Q3, ?W; reflexivity|]);
        [right; left | right; right];
        (split; [exact Q1 | reflexivity]).
Qed.

(** X19.  When [evaluate] throws, the error is that of the OpenAI call, that
    of the Anthropic call, or the missing Anthropic key; an error of MiniMax
    is never thrown, and OpenAI has been called. *)
Theorem evaluate_failure_sources (env : Env) (config : RouterConfig)
    (idea : jsstring) (e : Exn) :
  fst (evaluate env config idea initial) = Throw e ->
  In CallOpenAI (calls (snd (evaluate env config idea initial)))
  /\ ((exists n, openaiCreate env n (openaiRequest config idea) = Throw e)
      \/ (e = Error AnthropicKeyMissing
          /\ truthyStr (anthropicKey config) = false)
      \/ (exists n,
            anthropicCreate env n (anthropicRequest config idea) = Throw e)).
Proof.
  rewrite evaluate_tiers. cbv zeta.
  destruct (tierMiniMax_trace env config idea (now env 0)
              (mkWorld 1 0 [] [] (mkTiming 0 0 0 0) []))
    as [early [E [C [P _]]]].
  destruct (tierMiniMax env config idea (now env 0) _) as [res w].
  cbn [fst snd] in *. subst res. destruct early as [r|]; [discriminate|].
  pose proof (tierOpenAI_trace env config idea (now env 0) w) as T.
  cbv zeta in T. destruct T as [T1 [_ T3]].
  destruct (tierOpenAI env config idea (now env 0) w) as [res w'].
  cbn [fst snd] in *. intros ->. split.
  - destruct T1 as [-> | ->]; apply in_or_app; right; now left.
  - destruct (T3 e eq_refl) as [H|[H|H]]; eauto.
Qed.

Lemma evaluate_failure_sources_witness :
  let out := evaluate (Samples.openaiDown Samples.fullUnit)
               Samples.threeTiers (js "idea") initial in
  fst out = Throw (External (js "401 Unauthorized"))
  /\ In CallOpenAI (calls (snd out)).
Proof.
  cbv zeta.
  assert (H : fst (evaluate (Samples.openaiDown Samples.fullUnit)
                     Samples.threeTiers (js "idea") initial)
              = Throw (External (js "401 Unauthorized")))
    by (vm_compute; reflexivity).
  split; [exact H|].
  apply (evaluate_failure_sources _ _ _ _ H).
Defined.

(** X20.  The quality, the responses and the issues of a result of [evaluate]
    are those of one and the same report of the gate. With escalation allowed,
    a result that does not come from Anthropic passed the gate: its composite
    is at least 0.70 and it has at least one parsed unit. *)
Theorem returned_result_passed_gate (env : Env) (config : RouterConfig)
    (idea : jsstring) (r : EvaluationResult) :
  fst (evaluate env config idea initial) = Ok r ->
  exists text,
    quality r = score (qualityGate text)
    /\ responses r = QualityGate.responses (qualityGate text)
    /\ issues r = QualityGate.issues (qualityGate text)
    /\ (allowEscalationOf config = true ->
        provider r <> js "anthropic" ->
        passesGate (qualityGate text) = true
        /\ Num.ge (Spec.composite text) 0.70 = true
        /\ responses r <> []).
Proof.
  rewrite evaluate_tiers. cbv zeta.
  set (w0 := mkWorld 1 0 [] [] (mkTiming 0 0 0 0) []).
  pose proof (tierMiniMax_report env config idea (now env 0) w0) as M.
  destruct (tierMiniMax env config idea (now env 0) w0) as [[[r1|]|e] w].
  - cbn [fst]. intros [= <-].
    destruct (M r1 eq_refl) as [text [Q [R [I P]]]].
    exists text. split; [exact Q|]. split; [exact R|]. split; [exact I|].
    intros A _. specialize (P A). split; [exact P|].
    pose proof (passing_has_units text P) as U.
    split; [apply passing_composite, P | now rewrite R].
  - intros H.
    destruct (tierOpenAI_report env config idea (now env 0) w r H)
      as [text [Q [R [I P]]]].
    exists text. split; [exact Q|]. split; [exact R|]. split; [exact I|].
    intros A N0. specialize (P A N0). split; [exact P|].
    pose proof (passing_has_units text P) as U.
    split; [apply passing_composite, P | now rewrite R].
  - discriminate.
Qed.

Lemma returned_result_passed_gate_witness :
  let out := evaluate (Samples.world Samples.fullUnit Samples.orphan)
               Samples.twoTiers (js "idea") initial in
  exists r, fst out = Ok r
            /\ provider r = js "openai"
            /\ passesGate (qualityGate Samples.fullUnit) = true
            /\ quality r = score (qualityGate Samples.fullUnit)
            /\ responses r <> [].
Proof.
  cbv zeta.
  destruct (fst (evaluate (Samples.world Samples.fullUnit Samples.orphan)
                   Samples.twoTiers (js "idea") initial)) as [r|e] eqn:E;
    [|vm_compute in E; discriminate].
  exists r. split; [reflexivity|].
  destruct (returned_result_passed_gate _ _ _ r E) as [text [_ [_ [_ P]]]].
  assert (V : provider r = js "openai"
              /\ quality r = score (qualityGate Samples.fullUnit)).
  { clear P. vm_compute in E. injection E as <-. split; vm_compute; reflexivity. }
  destruct V as [V Q].
  split; [exact V|]. split; [vm_compute; reflexivity|]. split; [exact Q|].
  apply P; [reflexivity | rewrite V; discriminate].
Defined.


(** X21.  However the MiniMax tier fails, by an error of the request, by an
    HTTP status that is not a success, or by a body that is not JSON,
    [evaluate] logs the error as one warning and goes on with OpenAI as if
    MiniMax had left no trace but its call: no timing and no usage is kept of
    it. *)
Theorem minimax_failure_is_logged (env : Env) (config : RouterConfig)
    (idea : jsstring) (err : Exn) :
  truthyStr (minimaxKey config) = true ->
  let request :=
    mkChatRequest (minimaxKey config) (js "MiniMax-Text-01")
      defaultSystemPrompt (userContent idea) in
  (fetchMiniMax env 0 request = Throw err
   \/ (exists response,
         fetchMiniMax env 0 request = Ok response
         /\ ok response = false
         /\ err = Error (MiniMaxApiError (status response)
                           (bodyText response)))
   \/ (exists response,
         fetchMiniMax env 0 request = Ok response
         /\ ok response = true
         /\ bodyJson response = Throw err)) ->
  evaluate env config idea initial
  = tierOpenAI env config idea (now env 0)
      (mkWorld 2 0 [CallMiniMax] [WarnMiniMaxError err] (mkTiming 0 0 0 0) []).
Proof.
  intros K. cbv zeta. intros F. rewrite evaluate_tiers. cbv zeta. run.
  rewrite K. run.
  destruct (minimaxKey config) as [[|c key]|]; try discriminate.
  cbn [orStr length] in *.
  destruct F as [F|[[response [F [O ->]]]|[response [F [O J]]]]];
    rewrite F; run; try rewrite O; run; try rewrite J; reflexivity.
Qed.

Lemma minimax_failure_is_logged_witness :
  let env := Samples.world Samples.fullUnit Samples.fullUnit in
  let out := evaluate env Samples.threeTiers (js "idea") initial in
  truthyStr (minimaxKey Samples.threeTiers) = true
  /\ warnings (snd out) = [WarnMiniMaxError (External (js "ECONNREFUSED"))]
  /\ calls (snd out) = [CallMiniMax; CallOpenAI].
Proof.
  cbv zeta.
  rewrite (minimax_failure_is_logged
             (Samples.world Samples.fullUnit Samples.fullUnit)
             Samples.threeTiers (js "idea") (External (js "ECONNREFUSED"))
             eq_refl (or_introl eq_refl)).
  split; [reflexivity|]. split; vm_compute; reflexivity.
Defined.

(** X22.  With [allowEscalation] false, [evaluate] never calls Anthropic and
    fails only by an error of the OpenAI call; the first tier that answers is
    returned whatever the gate says of the answer: MiniMax when it is
    configured and replies, OpenAI when MiniMax is not configured. *)
Theorem escalation_disabled (env : Env) (config : RouterConfig)
    (idea : jsstring) :
  allowEscalationOf config = false ->
  let out := evaluate env config idea initial in
  ~ In CallAnthropic (calls (snd out))
  /\ (forall e, fst out = Throw e ->
        exists n, openaiCreate env n (openaiRequest config idea) = Throw e)
  /\ (forall response data,
        truthyStr (minimaxKey config) = true ->
        fetchMiniMax env 0
          (mkChatRequest (minimaxKey config) (js "MiniMax-Text-01")
             defaultSystemPrompt (userContent idea)) = Ok response ->
        ok response = true ->
        bodyJson response = Ok data ->
        exists r,
          fst out = Ok r
          /\ provider r = js "minimax"
          /\ escalated r = false
          /\ quality r = score (qualityGate (orStr (choiceContent data) []))
          /\ calls (snd out) = [CallMiniMax])
  /\ (forall response,
        truthyStr (minimaxKey config) = false ->
        openaiCreate env 0 (openaiRequest config idea) = Ok response ->
        exists r,
          fst out = Ok r
          /\ provider r = js "openai"
          /\ escalated r = false
          /\ quality r = score (qualityGate (output_text response))
          /\ calls (snd out) = [CallOpenAI]).
Proof.
  intros A. cbv zeta. rewrite evaluate_tiers. cbv zeta.
  set (w0 := mkWorld 1 0 [] [] (mkTiming 0 0 0 0) []).
  destruct (tierMiniMax_trace env config idea (now env 0) w0)
    as [early [E [C [P _]]]].
  pose proof (tierMiniMax_answer env config idea (now env 0) w0) as M.
  destruct (tierMiniMax env config idea (now env 0) w0) as [res w] eqn:T1.
  cbn [fst snd] in *. subst res. cbn [calls w0 app length] in *.
  destruct early as [r|].
  - destruct (P r eq_refl) as [P1 [P2 K]]. rewrite K in *. cbn [fst snd].
    split; [rewrite C; intros [H|[]]; discriminate|].
    split; [discriminate|]. split.
    + intros response data _ F O J.
      destruct (M response data A eq_refl F O J) as [r' [[= <-] Q]].
      exists r. auto.
    + discriminate.
  - destruct (tierOpenAI_no_escalation env config idea (now env 0) w A)
      as [T [X R]].
    destruct (tierOpenAI env config idea (now env 0) w) as [res w'].
    cbn [fst snd] in *. rewrite C in *.
    split.
    { rewrite T. intros H. apply in_app_or in H.
      destruct H as [H|[H|[]]]; [|discriminate].
      destruct (truthyStr (minimaxKey config)); [|contradiction].
      destruct H as [H|[]]; discriminate. }
    split; [intros e H; eexists; apply X, H|].
    split.
    + intros response data K F O J.
      destruct (M response data A K F O J) as [r' [[=] _]].
    + intros response K F. rewrite K in *. cbn [app length] in *.
      destruct (R response F) as [r [R1 [R2 [R3 R4]]]].
      exists r. rewrite T. auto.
Qed.

Lemma escalation_disabled_witness :
  let config := mkConfig (js "sk-openai") (Some (js "sk-ant")) None
                  (js "pmpt_1") None None (Some false) in
  let out := evaluate (Samples.world Samples.orphan Samples.fullUnit)
               config (js "idea") initial in
  allowEscalationOf config = false
  /\ passesGate (qualityGate Samples.orphan) = false
  /\ ~ In CallAnthropic (calls (snd out))
  /\ exists r, fst out = Ok r /\ provider r = js "openai"
               /\ quality r = score (qualityGate Samples.orphan).
Proof.
  cbv zeta.
  destruct (escalation_disabled
              (Samples.world Samples.orphan Samples.fullUnit)
              (mkConfig (js "sk-openai") (Some (js "sk-ant")) None
                 (js "pmpt_1") None None (Some false))
              (js "idea") eq_refl) as [N [_ [_ O]]].
  split; [reflexivity|]. split; [vm_compute; reflexivity|].
  split; [exact N|].
  destruct (O (mkOpenAIResponse Samples.orphan (js "gpt") None None)
              eq_refl eq_refl) as [r [R1 [R2 [_ [R4 _]]]]].
  exists r. auto.
Defined.

(** X23.  When the reply of OpenAI fails the gate, escalation is allowed and
    no Anthropic key is configured, [evaluate] throws the configuration error
    and the reply of OpenAI is lost, unless MiniMax had answered first:
    Anthropic is not called. *)
Theorem missing_anthropic_key_aborts (env : Env) (config : RouterConfig)
    (idea : jsstring) (response : OpenAIResponse) :
  truthyStr (anthropicKey config) = false ->
  allowEscalationOf config = true ->
  (forall n, openaiCreate env n (openaiRequest config idea) = Ok response) ->
  passesGate (qualityGate (output_text response)) = false ->
  let out := evaluate env config idea initial in
  (fst out = Throw (Error AnthropicKeyMissing)
   \/ exists r, fst out = Ok r /\ provider r = js "minimax")
  /\ ~ In CallAnthropic (calls (snd out))
  /\ (truthyStr (minimaxKey config) = false ->
      fst out = Throw (Error AnthropicKeyMissing)
      /\ calls (snd out) = [CallOpenAI]).
Proof.
  intros K A F G. cbv zeta. rewrite evaluate_tiers. cbv zeta.
  set (w0 := mkWorld 1 0 [] [] (mkTiming 0 0 0 0) []).
  destruct (tierMiniMax_trace env config idea (now env 0) w0)
    as [early [E [C [P _]]]].
  destruct (tierMiniMax env config idea (now env 0) w0) as [res w].
  cbn [fst snd] in *. subst res. cbn [calls w0 app] in *.
  destruct early as [r|].
  - destruct (P r eq_refl) as [P1 [_ M]]. rewrite M in *. cbn [fst snd].
    split; [right; exists r; auto|].
    split; [rewrite C; intros [H|[]]; discriminate | discriminate].
  - destruct (tierOpenAI_keyless env config idea (now env 0) w response
                K A (F _) G) as [T1 [T2 _]].
    destruct (tierOpenAI env config idea (now env 0) w) as [res w'].
    cbn [fst snd] in *. subst res. rewrite T2, C.
    split; [now left|]. split.
    + intros H. apply in_app_or in H.
      destruct H as [H|[H|[]]]; [|discriminate].
      destruct (truthyStr (minimaxKey config)); [|contradiction].
      destruct H as [H|[]]; discriminate.
    + intros ->. split; reflexivity.
Qed.

Lemma missing_anthropic_key_aborts_witness :
  let config := mkConfig (js "sk-openai") None None (js "pmpt_1")
                  None None None in
  let out := evaluate (Samples.world Samples.orphan Samples.fullUnit)
               config (js "idea") initial in
  truthyStr (anthropicKey config) = false
  /\ passesGate (qualityGate Samples.orphan) = false
  /\ fst out = Throw (Error AnthropicKeyMissing)
  /\ calls (snd out) = [CallOpenAI].
Proof.
  cbv zeta.
  assert (G : passesGate (qualityGate Samples.orphan) = false)
    by (vm_compute; reflexivity).
  destruct (missing_anthropic_key_aborts
              (Samples.world Samples.orphan Samples.fullUnit)
              (mkConfig (js "sk-openai") None None (js "pmpt_1")
                 None None None)
              (js "idea")
              (mkOpenAIResponse Samples.orphan (js "gpt") None None)
              eq_refl eq_refl (fun _ => eq_refl) G) as [_ [_ H]].
  destruct (H eq_refl) as [H1 H2].
  split; [reflexivity|]. split; [exact G|]. split; [exact H1 | exact H2].
Defined.

(** The readings of a clock that never goes back, in the order they are
    taken. *)
Ltac clock Mono :=
  pose proof (Mono 0%nat 1%nat (Nat.le_succ_diag_r _));
  pose proof (Mono 1%nat 2%nat (Nat.le_succ_diag_r _));
  pose proof (Mono 2%nat 3%nat (Nat.le_succ_diag_r _));
  pose proof (Mono 3%nat 4%nat (Nat.le_succ_diag_r _));
  pose proof (Mono 4%nat 5%nat (Nat.le_succ_diag_r _));
  pose proof (Mono 5%nat 6%nat (Nat.le_succ_diag_r _));
  pose proof (Mono 6%nat 7%nat (Nat.le_succ_diag_r _));
  pose proof (Mono 7%nat 8%nat (Nat.le_succ_diag_r _));
  pose proof (Mono 8%nat 9%nat (Nat.le_succ_diag_r _));
  pose proof (Mono 9%nat 10%nat (Nat.le_succ_diag_r _));
  pose proof (Mono 10%nat 11%nat (Nat.le_succ_diag_r _));
  pose proof (Mono 11%nat 12%nat (Nat.le_succ_diag_r _)).

Ltac timed Mono :=
  intros [= <-];
  cbn [timing total primary gate escalation setTotal setGate setPrimary
       setEscalation Nat.pred latency];
  repeat match goal with
         | |- context [Z.eqb ?a ?b] => destruct (Z.eqb_spec a b)
         end;
  clock Mono; lia.

Ltac later_tiers Mono config env :=
  destruct (openaiCreate env _ _) as [?a|?e]; run; [|discriminate];
  destruct (passesGate _ || _)%bool; run; [timed Mono|];
  destruct (truthyStr (anthropicKey config)); run; [|discriminate];
  destruct (anthropicCreate env _ _) as [?m|?e]; run;
  [timed Mono | discriminate].

(** X24.  On a clock that never goes back, the [timing] of a result is
    coherent: [total] spans the whole call, from the first reading of the
    clock to the last, and each of [primary], [gate] and [escalation] is a
    duration between 0 and [total]. *)
Theorem timing_within_total (env : Env) (config : RouterConfig)
    (idea : jsstring) (r : EvaluationResult) :
  (forall i j, (i <= j)%nat -> (now env i <= now env j)%Z) ->
  fst (evaluate env config idea initial) = Ok r ->
  total (timing r)
  = (now env (pred (reads (snd (evaluate env config idea initial))))
     - now env 0)%Z
  /\ (0 <= primary (timing r) <= total (timing r))%Z
  /\ (0 <= gate (timing r) <= total (timing r))%Z
  /\ (0 <= escalation (timing r) <= total (timing r))%Z.
Proof.
  intros Mono. unfold evaluate. run.
  destruct (truthyStr (minimaxKey config)); run.
  2:{ later_tiers Mono config env. }
  destruct (fetchMiniMax env _ _) as [response|e]; run.
  2:{ later_tiers Mono config env. }
  destruct (ok response); run.
  2:{ later_tiers Mono config env. }
  destruct (bodyJson response) as [data|e]; run.
  2:{ later_tiers Mono config env. }
  destruct (passesGate _ || _)%bool; run.
  - timed Mono.
  - later_tiers Mono config env.
Qed.

Lemma timing_within_total_witness :
  let env := Samples.world Samples.orphan Samples.fullUnit in
  let out := evaluate env Samples.twoTiers (js "idea") initial in
  (forall i j, (i <= j)%nat -> (now env i <= now env j)%Z)
  /\ exists r, fst out = Ok r
               /\ total (timing r) = 70%Z
               /\ escalation (timing r) = 20%Z.
Proof.
  cbv zeta.
  assert (Mono : forall i j, (i <= j)%nat ->
                   (now (Samples.world Samples.orphan Samples.fullUnit) i
                    <= now (Samples.world Samples.orphan Samples.fullUnit) j)%Z)
    by (intros i j L; unfold Samples.world; cbn [now]; lia).
  split; [exact Mono|].
  destruct (fst (evaluate (Samples.world Samples.orphan Samples.fullUnit)
                   Samples.twoTiers (js "idea") initial)) as [r|e] eqn:E;
    [|vm_compute in E; discriminate].
  exists r. split; [reflexivity|].
  destruct (timing_within_total _ _ _ r Mono E) as [T _].
  split.
  - rewrite T. vm_compute. reflexivity.
  - vm_compute in E. injection E as <-. reflexivity.
Defined.

(** X25.  A call of [evaluateWithExperiment] that returns has recorded exactly
    one sample, under the id of the variant it selected: the quality and the
    escalation flag of the result, its schema verdict and its total latency,
    stamped with the last reading of the clock. The result names the variant,
    and nothing else of the experiment changes. *)
Theorem experiment_records_one_sample (env : Env) (config : RouterConfig)
    (idea : jsstring) (experiment after : Experiment)
    (r : EvaluationResult) (w : World) :
  evaluateWithExperiment env config idea experiment initial
  = (Ok (r, after), w) ->
  exists variant m,
    selectVariant (random env 0) experiment = Some variant
    /\ variantId r = Some (id variant)
    /\ after = recordMetric (now env (pred (reads w))) experiment
                 (id variant) m
    /\ qualityScore m = quality r
    /\ PromptSchema.escalated m = escalated r
    /\ Some (PromptSchema.schemaValid m) = schemaValid r
    /\ latencyMs m = Num.ofZ (total (timing r))
    /\ recorded after (id variant)
       = recorded experiment (id variant)
         ++ [mkSample m (now env (pred (reads w)))]
    /\ totalSamples (getExperimentStats after)
       = S (totalSamples (getExperimentStats experiment))
    /\ variants after = variants experiment.
Proof.
  run. destruct (selectVariant (random env 0) experiment) as [v|] eqn:Sel;
    run; [|discriminate].
  destruct (callVariant env config idea v _) as [[p|x] [rd dr cs ws tm ul]];
    run; [|discriminate].
  assert (Done : forall stamp m r0 w0,
            (Ok (r0, recordMetric stamp experiment (id v) m), w0)
            = (Ok (r, after), w) ->
            stamp = now env (pred (reads w0)) ->
            variantId r0 = Some (id v) ->
            qualityScore m = quality r0 ->
            PromptSchema.escalated m = escalated r0 ->
            Some (PromptSchema.schemaValid m) = schemaValid r0 ->
            latencyMs m = Num.ofZ (total (timing r0)) ->
            exists variant m,
              Some v = Some variant
              /\ variantId r = Some (id variant)
              /\ after = recordMetric (now env (pred (reads w))) experiment
                           (id variant) m
              /\ qualityScore m = quality r
              /\ PromptSchema.escalated m = escalated r
              /\ Some (PromptSchema.schemaValid m) = schemaValid r
              /\ latencyMs m = Num.ofZ (total (timing r))
              /\ recorded after (id variant)
                 = recorded experiment (id variant)
                   ++ [mkSample m (now env (pred (reads w)))]
              /\ totalSamples (getExperimentStats after)
                 = S (totalSamples (getExperimentStats experiment))
              /\ variants after = variants experiment).
  { intros stamp m r0 w0 [= <- <- <-] -> H1 H2 H3 H4 H5.
    exists v, m. repeat split; try assumption.
    - apply recorded_same.
    - unfold getExperimentStats, recordMetric. cbn [totalSamples metrics].
      rewrite !fold_lengths. unfold recorded. rewrite lengths_after_push.
      reflexivity. }
  destruct (Num.ge _ _ || _)%bool; run.
  - intros H. eapply Done; [exact H | reflexivity ..].
  - destruct (truthyStr (anthropicKey config)); run; [|discriminate].
    destruct (anthropicCreate env _ _) as [a|e]; run; [|discriminate].
    intros H. eapply Done; [exact H | reflexivity ..].
Qed.

Lemma experiment_records_one_sample_witness :
  exists r after w,
    evaluateWithExperiment (Samples.world Samples.fullUnit Samples.fullUnit)
      Samples.twoTiers (js "idea") Samples.soloExperiment initial
    = (Ok (r, after), w)
    /\ variantId r = Some (js "openai-v3")
    /\ length (recorded after (js "openai-v3")) = 1%nat
    /\ totalSamples (getExperimentStats after) = 1%nat.
Proof.
  destruct (evaluateWithExperiment
              (Samples.world Samples.fullUnit Samples.fullUnit)
              Samples.twoTiers (js "idea") Samples.soloExperiment initial)
    as [[[r after]|e] w] eqn:E; [|vm_compute in E; discriminate].
  exists r, after, w. split; [reflexivity|].
  destruct (experiment_records_one_sample _ _ _ _ _ _ _ E)
    as [v [m [Sel [V [_ [_ [_ [_ [_ [R [T _]]]]]]]]]]].
  injection Sel as <-.
  change (id Samples.openaiVariant) with (js "openai-v3") in V, R.
  split; [exact V|]. split; [rewrite R; reflexivity | exact T].
Defined.

(** X26.  [evaluateWithExperiment] fails before it calls any provider when the
    experiment has no variant, a [TypeError], and when the selected variant
    names a provider that is none of the three, an [Error] that quotes the
    name; in both cases nothing is recorded. *)
Theorem experiment_fails_before_calling (env : Env) (config : RouterConfig)
    (idea : jsstring) (experiment : Experiment) :
  let out := evaluateWithExperiment env config idea experiment initial in
  (variants experiment = [] ->
   fst out = Throw (TypeError "provider") /\ calls (snd out) = [])
  /\ (forall variant,
        selectVariant (random env 0) experiment = Some variant ->
        PromptSchema.provider variant <> js "openai" ->
        PromptSchema.provider variant <> js "anthropic" ->
        PromptSchema.provider variant <> js "minimax" ->
        fst out
        = Throw (Error (UnknownProvider (PromptSchema.provider variant)))
        /\ calls (snd out) = []).
Proof.
  cbv zeta. split.
  - intros E. run.
    assert (N : selectVariant (random env 0) experiment = None).
    { unfold selectVariant. rewrite E. reflexivity. }
    rewrite N. run. split; reflexivity.
  - intros v Sel N1 N2 N3. run. rewrite Sel. run.
    unfold callVariant.
    apply jsstring_eqb_neq in N1, N2, N3. rewrite N1, N2, N3. run.
    split; reflexivity.
Qed.

Lemma experiment_fails_before_calling_witness :
  let experiment :=
    mkExperiment (js "typo")
      [mkVariant (js "v1") (js "openia") (Some 1) None None None] [] 0 in
  let out := evaluateWithExperiment
               (Samples.world Samples.fullUnit Samples.fullUnit)
               Samples.twoTiers (js "idea") experiment initial in
  fst out = Throw (Error (UnknownProvider (js "openia")))
  /\ calls (snd out) = [].
Proof.
  cbv zeta.
  destruct (experiment_fails_before_calling
              (Samples.world Samples.fullUnit Samples.fullUnit)
              Samples.twoTiers (js "idea")
              (mkExperiment (js "typo")
                 [mkVariant (js "v1") (js "openia") (Some 1) None None None]
                 [] 0)) as [_ H].
  apply (H (mkVariant (js "v1") (js "openia") (Some 1) None None None));
    [reflexivity | discriminate | discriminate | discriminate].
Defined.

(** X27.  For an Anthropic variant with a system prompt of its own, the router
    calls Anthropic with the default prompt first and then again with the
    variant's prompt and model: two requests are sent, the reply to the first
    is dropped, and a failure of the first fails the variant before its own
    prompt is ever sent. *)
Theorem custom_prompt_calls_anthropic_twice (env : Env)
    (config : RouterConfig) (idea : jsstring) (variant : PromptVariant)
    (w : World) :
  PromptSchema.provider variant = js "anthropic" ->
  truthyStr (configOf variant systemPrompt) = true ->
  truthyStr (anthropicKey config) = true ->
  let own :=
    mkChatRequest (anthropicKey config)
      (orStr (configOf variant PromptSchema.model)
             (js "claude-opus-4-20250514"))
      (orStr (configOf variant systemPrompt) [])
      (userContent idea) in
  let out := callVariant env config idea variant w in
  (forall first second,
     anthropicCreate env (length (calls w)) (anthropicRequest config idea)
     = Ok first ->
     anthropicCreate env (S (length (calls w))) own = Ok second ->
     exists p, fst out = Ok p
               /\ outputText p = messageText second
               /\ resultModel p = messageModel second
               /\ calls (snd out) = calls w ++ [CallAnthropic; CallAnthropic])
  /\ (forall e,
        anthropicCreate env (length (calls w)) (anthropicRequest config idea)
        = Throw e ->
        fst out = Throw e /\ calls (snd out) = calls w ++ [CallAnthropic]).
Proof.
  intros P S K. cbv zeta. unfold callVariant, anthropicRequest.
  rewrite P. cbn [jsstring_eqb js]. 
  change (jsstring_eqb (js "anthropic") (js "openai")) with false.
  change (jsstring_eqb (js "anthropic") (js "anthropic")) with true.
  cbv iota. destruct w as [rd dr cs ws tm ul]. cbn [calls].
  run. rewrite K. run. split.
  - intros m1 m2 F1 F2. rewrite F1. run. rewrite S. run.
    rewrite length_app, Nat.add_1_r. rewrite F2. run.
    eexists. split; [reflexivity|]. rewrite <- app_assoc. repeat split.
  - intros e F. rewrite F. run. split; reflexivity.
Qed.

Lemma custom_prompt_calls_anthropic_twice_witness :
  let out := callVariant (Samples.world Samples.orphan Samples.fullUnit)
               Samples.twoTiers (js "idea") Scenarios.briefVariant initial in
  calls (snd out) = [CallAnthropic; CallAnthropic]
  /\ exists p, fst out = Ok p /\ outputText p = Samples.fullUnit.
Proof.
  cbv zeta.
  destruct (custom_prompt_calls_anthropic_twice
              (Samples.world Samples.orphan Samples.fullUnit)
              Samples.twoTiers (js "idea") Scenarios.briefVariant initial
              eq_refl eq_refl eq_refl) as [H _].
  destruct (H (mkMessage [mkBlock (js "text") Samples.fullUnit]
                 (js "claude-opus-4-20250514") 100 200)
              (mkMessage [mkBlock (js "text") Samples.fullUnit]
                 (js "claude-opus-4-20250514") 100 200)
              eq_refl eq_refl) as [p [P [T [_ C]]]].
  split; [exact C|]. exists p. split; [exact P | exact T].
Defined.


(** X28.  The verdict of the variant's schema never decides on escalation.
    When the reply is returned, the schema was consulted only if the variant
    has one and the gate parsed at least one unit; its issues are appended to
    those of the gate as warnings of category [schema], in order, and the
    result is marked invalid, also when the schema reports an empty list of
    issues. *)
Theorem schema_issues_are_warnings (env : Env) (config : RouterConfig)
    (idea : jsstring) (experiment : Experiment) (variant : PromptVariant)
    (primary : ProviderResult) (w : World) :
  selectVariant (random env 0) experiment = Some variant ->
  callVariant env config idea variant
    (mkWorld 1 1 [] [] (mkTiming 0 0 0 0) []) = (Ok primary, w) ->
  (Num.ge (score (qualityGate (outputText primary)))
          (thresholdOf config variant)
   || negb (allowEscalationOf config))%bool = true ->
  let gate := qualityGate (outputText primary) in
  exists r e w',
    evaluateWithExperiment env config idea experiment initial
    = (Ok (r, e), w')
    /\ escalated r = false
    /\ calls w' = calls w
    /\ (outputSchema variant = None \/ QualityGate.responses gate = [] ->
        schemaValid r = Some true /\ issues r = QualityGate.issues gate)
    /\ (forall schema,
          outputSchema variant = Some schema ->
          QualityGate.responses gate <> [] ->
          schema (QualityGate.responses gate) = None ->
          schemaValid r = Some true /\ issues r = QualityGate.issues gate)
    /\ (forall schema found,
          outputSchema variant = Some schema ->
          QualityGate.responses gate <> [] ->
          schema (QualityGate.responses gate) = Some found ->
          schemaValid r = Some false
          /\ issues r
             = QualityGate.issues gate
               ++ List.map (fun i => mkIssue cat_schema warning
                                       (MsgOther (schemaMessage i)))
                    found).
Proof.
  intros Sel C D. cbv zeta. run. rewrite Sel. run. rewrite C. run.
  unfold negb in D. rewrite D. run.
  eexists _, _, _. split; [reflexivity|]. cbn [escalated schemaValid issues].
  split; [reflexivity|]. split; [destruct w; reflexivity|].
  unfold validateOutput.
  split; [|split].
  - intros [-> | ->]; [split; reflexivity|].
    destruct (outputSchema variant); split; reflexivity.
  - intros schema S N V. rewrite S.
    destruct (QualityGate.responses (qualityGate (outputText primary)))
      as [|u us]; [congruence|].
    rewrite V. split; reflexivity.
  - intros schema found S N V. rewrite S.
    destruct (QualityGate.responses (qualityGate (outputText primary)))
      as [|u us]; [congruence|].
    rewrite V. cbn [fst snd]. rewrite map_map. split; reflexivity.
Qed.

Lemma schema_issues_are_warnings_witness :
  let env := Samples.world Samples.fullUnit Samples.fullUnit in
  exists r e w,
    evaluateWithExperiment env Samples.twoTiers (js "idea")
      Scenarios.strictExperiment initial = (Ok (r, e), w)
    /\ escalated r = false
    /\ schemaValid r = Some false
    /\ issues r
       = QualityGate.issues (qualityGate Samples.fullUnit)
         ++ [mkIssue cat_schema warning
               (MsgOther (js "expected 5 responses"))].
Proof.
  cbv zeta.
  destruct (callVariant (Samples.world Samples.fullUnit Samples.fullUnit)
              Samples.twoTiers (js "idea") Scenarios.strictVariant
              (mkWorld 1 1 [] [] (mkTiming 0 0 0 0) []))
    as [[primary|x] w] eqn:C; [|vm_compute in C; discriminate].
  assert (T : outputText primary = Samples.fullUnit).
  { vm_compute in C. injection C as <- _. reflexivity. }
  assert (D : (Num.ge (score (qualityGate (outputText primary)))
                      (thresholdOf Samples.twoTiers Scenarios.strictVariant)
               || negb (allowEscalationOf Samples.twoTiers))%bool = true)
    by (rewrite T; vm_compute; reflexivity).
  destruct (schema_issues_are_warnings
              (Samples.world Samples.fullUnit Samples.fullUnit)
              Samples.twoTiers (js "idea") Scenarios.strictExperiment
              Scenarios.strictVariant primary w eq_refl C D)
    as [r [e [w' [E [X [_ [_ [_ V]]]]]]]].
  exists r, e, w'. split; [exact E|]. split; [exact X|].
  rewrite T in V.
  destruct (V Scenarios.fiveResponses
              [mkSchemaIssue (js "expected 5 responses") (Some [js "length"])]
              eq_refl) as [V1 V2].
  - vm_compute. discriminate.
  - vm_compute. reflexivity.
  - split; [exact V1 | exact V2].
Defined.

(** X29.  When the variant's reply is escalated, the reply of Anthropic is
    scored by the gate but never validated against the variant's schema: the
    issues of the result are those of the gate, none of category [schema],
    while [schemaValid] still tells the verdict on the reply that was given
    up, whose issues, schema warnings included, become the [escalationReason]. *)
Theorem fallback_is_not_validated (env : Env) (config : RouterConfig)
    (idea : jsstring) (experiment : Experiment) (variant : PromptVariant)
    (primary : ProviderResult) (w : World) (message : AnthropicMessage) :
  selectVariant (random env 0) experiment = Some variant ->
  callVariant env config idea variant
    (mkWorld 1 1 [] [] (mkTiming 0 0 0 0) []) = (Ok primary, w) ->
  (Num.ge (score (qualityGate (outputText primary)))
          (thresholdOf config variant)
   || negb (allowEscalationOf config))%bool = false ->
  truthyStr (anthropicKey config) = true ->
  anthropicCreate env (length (calls w)) (anthropicRequest config idea)
  = Ok message ->
  let gate := qualityGate (outputText primary) in
  let validation :=
    match outputSchema variant, QualityGate.responses gate with
    | Some _, _ :: _ => validateOutput variant (QualityGate.responses gate)
    | _, _ => (true, [])
    end in
  exists r e w',
    evaluateWithExperiment env config idea experiment initial
    = (Ok (r, e), w')
    /\ provider r = js "anthropic"
    /\ issues r = QualityGate.issues (qualityGate (messageText message))
    /\ Forall (fun i => category i <> cat_schema) (issues r)
    /\ schemaValid r = Some (fst validation)
    /\ escalationReason r
       = Some (ReasonIssues
                 (if fst validation then QualityGate.issues gate
                  else QualityGate.issues gate
                       ++ List.map (fun i => mkIssue cat_schema warning
                                               (MsgOther (outputMessage i)))
                            (snd validation)))
    /\ usage r
       = UsagePair (resultUsage primary)
           (Some (mkUsage (messageInput message) (messageOutput message)
                    (messageInput message + messageOutput message)))
    /\ calls w' = calls w ++ [CallAnthropic].
Proof.
  intros Sel C D K A. cbv zeta. run. rewrite Sel. run. rewrite C. run.
  unfold negb in D. rewrite D. run. rewrite K. run.
  destruct w as [rd dr cs ws tm ul]. cbn [calls] in A.
  unfold anthropicRequest in A. run. rewrite A. run.
  eexists _, _, _. split; [reflexivity|].
  cbn [provider issues schemaValid escalationReason usage resultUsage
       outputText].
  repeat split.
  apply (IssueFacts.report_issues_all (fun i => category i <> cat_schema));
    intros; discriminate.
Qed.

Lemma fallback_is_not_validated_witness :
  let env := Samples.world Samples.orphan Samples.fullUnit in
  exists r e w,
    evaluateWithExperiment env Samples.twoTiers (js "idea")
      Scenarios.strictExperiment initial = (Ok (r, e), w)
    /\ provider r = js "anthropic"
    /\ schemaValid r = Some false
    /\ issues r = QualityGate.issues (qualityGate Samples.fullUnit)
    /\ Forall (fun i => category i <> cat_schema) (issues r).
Proof.
  cbv zeta.
  destruct (callVariant (Samples.world Samples.orphan Samples.fullUnit)
              Samples.twoTiers (js "idea") Scenarios.strictVariant
              (mkWorld 1 1 [] [] (mkTiming 0 0 0 0) []))
    as [[primary|x] w] eqn:C; [|vm_compute in C; discriminate].
  assert (T : outputText primary = Samples.orphan
              /\ calls w = [CallOpenAI]).
  { vm_compute in C. injection C as <- <-. split; reflexivity. }
  destruct T as [T L].
  assert (D : (Num.ge (score (qualityGate (outputText primary)))
                      (thresholdOf Samples.twoTiers Scenarios.strictVariant)
               || negb (allowEscalationOf Samples.twoTiers))%bool = false)
    by (rewrite T; vm_compute; reflexivity).
  destruct (fallback_is_not_validated
              (Samples.world Samples.orphan Samples.fullUnit)
              Samples.twoTiers (js "idea") Scenarios.strictExperiment
              Scenarios.strictVariant primary w
              (mkMessage [mkBlock (js "text") Samples.fullUnit]
                 (js "claude-opus-4-20250514") 100 200)
              eq_refl C D eq_refl eq_refl)
    as [r [e [w' [E [P [I [F [V _]]]]]]]].
  exists r, e, w'. split; [exact E|]. split; [exact P|].
  split; [|split; [exact I | exact F]].
  rewrite V, T. vm_compute. reflexivity.
Defined.

(** X30.  A reply that [evaluateWithExperiment] returns unescalated, with
    escalation allowed, has a reported score of at least the threshold of the
    variant, the router's when the variant has none (or has 0); it comes from
    the variant's provider. An escalated result comes from Anthropic. *)
Theorem unescalated_variant_met_threshold (env : Env)
    (config : RouterConfig) (idea : jsstring) (experiment after : Experiment)
    (r : EvaluationResult) (w : World) (variant : PromptVariant) :
  evaluateWithExperiment env config idea experiment initial
  = (Ok (r, after), w) ->
  selectVariant (random env 0) experiment = Some variant ->
  (escalated r = false ->
   provider r = PromptSchema.provider variant
   /\ (allowEscalationOf config = true ->
       Num.ge (quality r) (thresholdOf config variant) = true))
  /\ (escalated r = true ->
      provider r = js "anthropic" /\ allowEscalationOf config = true)
  /\ (PromptSchema.qualityThreshold variant = None
      \/ PromptSchema.qualityThreshold variant = Some 0 ->
      thresholdOf config variant = qualityThresholdOf config).
Proof.
  intros H Sel. revert H. run. rewrite Sel. run.
  destruct (callVariant env config idea variant _)
    as [[p|x] [rd dr cs ws tm ul]]; run; [|discriminate].
  assert (T : PromptSchema.qualityThreshold variant = None
              \/ PromptSchema.qualityThreshold variant = Some 0 ->
              thresholdOf config variant = qualityThresholdOf config).
  { unfold thresholdOf. intros [-> | ->]; reflexivity. }
  destruct (Num.ge _ _ || _)%bool eqn:D; run.
  - intros [= <- _ _]. cbn [escalated provider quality].
    split; [|split; [discriminate | exact T]].
    intros _. split; [reflexivity|].
    intros A. rewrite A, orb_false_r in D. exact D.
  - destruct (truthyStr (anthropicKey config)); run; [|discriminate].
    destruct (anthropicCreate env _ _) as [a|e]; run; [|discriminate].
    intros [= <- _ _]. cbn [escalated provider quality].
    split; [discriminate|]. split; [|exact T].
    intros _. split; [reflexivity|].
    destruct (allowEscalationOf config); [reflexivity|].
    rewrite orb_true_r in D. discriminate.
Qed.

Lemma unescalated_variant_met_threshold_witness :
  exists r after w,
    evaluateWithExperiment (Samples.world Samples.borderline Samples.fullUnit)
      Samples.twoTiers (js "idea") Samples.soloExperiment initial
    = (Ok (r, after), w)
    /\ escalated r = false
    /\ passesGate (qualityGate Samples.borderline) = false
    /\ Num.ge (quality r)
         (thresholdOf Samples.twoTiers Samples.openaiVariant) = true.
Proof.
  destruct (evaluateWithExperiment
              (Samples.world Samples.borderline Samples.fullUnit)
              Samples.twoTiers (js "idea") Samples.soloExperiment initial)
    as [[[r after]|e] w] eqn:E; [|vm_compute in E; discriminate].
  exists r, after, w. split; [reflexivity|].
  assert (X : escalated r = false).
  { vm_compute in E. injection E as <- _ _. reflexivity. }
  destruct (unescalated_variant_met_threshold _ _ _ _ _ _ _
              Samples.openaiVariant E eq_refl) as [H _].
  destruct (H X) as [_ G].
  split; [exact X|]. split; [vm_compute; reflexivity|].
  apply G. reflexivity.
Defined.

End RouterProperties.
